(** * Cheap-offer discovery engine (internal/cheapoffers)

    A shallow embedding of [cheapoffers.Find], [findForTripLength] and
    [validateArgs].

    The goroutines of [findForTripLength] are modelled as an interleaving:
    each refinement task is a small state machine whose steps are its
    pricing-client calls, its [cancel()] and its send on [resultsCh]; a
    schedule, a list of task indices, says in which order the runtime lets
    the tasks take their steps.  Every property below is proved for every
    schedule.  The pricing client is a record of functions of the context's
    state and of the call's arguments.  The engine also keeps a log of the
    client calls it makes, so that properties about calls made or not made
    can be stated.

    Conventions.
    - [time.Time] is the instant it denotes (an integer count of
      nanoseconds); [Equal] and [Before] compare instants.
    - A [float64] is NaN or a number.  The numbers of float64, that is
      the finite values, which are integer multiples of 2^-1074, and the
      two infinities beyond them, are ordered as the integers are: a number
      is represented by an integer, a finite value by its multiple of
      2^-1074 (both zeros by 0), an infinity by an integer beyond these.
      Go's [==], [<] and [>=] between numbers are the integer comparisons;
      as soon as an operand is NaN they are false.
    - Go's [int] trip length is an integer; it is only compared with 0.
    - An [error] is identified with its message; [nil] is [None].
    - A [context.Context] is observed through its done flag.  The caller's
      context is taken in one state for the whole of a call of [Find]; the
      scope of a search adds the effect of [cancel()] to it. *)

From stdpp Require Import base numbers list strings sorting.

Local Open Scope Z_scope.

(** ** Primitive data *)

Definition Time := Z.
Definition Time_Equal (t u : Time) : bool := t =? u.
Definition Time_Before (t u : Time) : bool := t <? u.

Inductive float64 := NaN | Num (x : Z).
Coercion Num : Z >-> float64.

(** Go's [==], [<] and [>=] on float64. *)
Definition float64_eq (a b : float64) : bool :=
  match a, b with Num x, Num y => x =? y | _, _ => false end.

Definition float64_lt (a b : float64) : bool :=
  match a, b with Num x, Num y => x <? y | _, _ => false end.

Definition float64_ge (a b : float64) : bool :=
  match a, b with Num x, Num y => x >=? y | _, _ => false end.

Definition error := string.

(** [true] when the context is done (cancelled or expired). *)
Definition Ctx := bool.

(** ** The pricing client's data (package flights) *)

(** Modelled from the spec: the stop policy of the travel-options bundle;
    package flights is not among the sources, the callers use [AnyStops]. *)
Inductive Stops := AnyStops | Nonstop | Stop1 | Stop2.

(** Modelled from the spec: the cabin class of the travel-options bundle;
    the callers use [Economy]. *)
Inductive Class := Economy | PremiumEconomy | Business | First.

(** Modelled from the spec: the trip type of the travel-options bundle;
    the callers use [RoundTrip]. *)
Inductive TripType := RoundTrip | OneWay.

Module Travelers.
(** Modelled from the spec: the traveler count of the travel-options
    bundle, as the callers build it ([flights.Travelers{Adults: n}]). *)
Record t := { Adults : Z }.
End Travelers.

Module Options.
(** Modelled from the spec: [flights.Options], the travel-options bundle
    (traveler count, currency, cabin class, stop policy, trip type,
    language) handed unchanged to the pricing client. *)
Record t := {
  Travelers : Travelers.t;
  Currency : string;
  Stops : Stops;
  Class : Class;
  TripType : TripType;
  Lang : string
}.
End Options.

Module Offer.
(** Modelled from the spec: [flights.Offer], one PriceGraphSample (a
    departure date, a return date and an approximate price). *)
Record t := { StartDate : Time; ReturnDate : Time; Price : float64 }.
End Offer.

Module FullOffer.
(** Modelled from the spec: [flights.FullOffer], one DetailedOffer
    (departure date, return date, airport codes, price); only the fields
    that [findForTripLength] reads. *)
Record t := {
  StartDate : Time;
  ReturnDate : Time;
  Price : float64;
  SrcAirportCode : string;
  DstAirportCode : string
}.
(** Go's zero value, the initial [bestOffer]. *)
Definition zero : t :=
  {| StartDate := 0; ReturnDate := 0; Price := 0;
     SrcAirportCode := ""; DstAirportCode := "" |}.
End FullOffer.

Module PriceRange.
(** Modelled from the spec: [flights.PriceRange], the RouteBaseline
    (low and high bound). *)
Record t := { Low : float64; High : float64 }.
End PriceRange.

Module FlightsArgs.
(** Modelled from the spec: [flights.Args], the input of the detailed
    offer listing and of the shareable-link operation.  Fields left out of
    a Go composite literal are nil slices, here [[]]. *)
Record t := {
  Date : Time;
  ReturnDate : Time;
  SrcCities : list string;
  DstCities : list string;
  SrcAirports : list string;
  DstAirports : list string;
  Options : Options.t
}.
End FlightsArgs.

Module PriceGraphArgs.
(** Modelled from the spec: [flights.PriceGraphArgs], the input of the
    coarse price-graph lookup. *)
Record t := {
  RangeStartDate : Time;
  RangeEndDate : Time;
  TripLength : Z;
  SrcCities : list string;
  DstCities : list string;
  Options : Options.t
}.
End PriceGraphArgs.

Module Session.
(** Modelled from the spec: the three operations of [*flights.Session]
    that the engine calls, each a function of the context's done flag and
    of its arguments, returning Go's tuple of values and error. *)
Record t := {
  GetPriceGraph : Ctx → PriceGraphArgs.t → list Offer.t * option error;
  GetOffers :
    Ctx → FlightsArgs.t → list FullOffer.t * option PriceRange.t * option error;
  SerializeURL : Ctx → FlightsArgs.t → string * option error
}.
End Session.

(** One pricing-client call, as recorded in the call log. *)
Inductive Call :=
| CallGetPriceGraph (c : Ctx) (a : PriceGraphArgs.t)
| CallGetOffers (c : Ctx) (a : FlightsArgs.t)
| CallSerializeURL (c : Ctx) (a : FlightsArgs.t).

(** ** The engine's data (package cheapoffers) *)

Module Args.
Record t := {
  RangeStartDate : Time;
  RangeEndDate : Time;
  TripLengths : list Z;
  SrcCities : list string;
  DstCities : list string;
  Options : Options.t
}.
End Args.

Module Result.
Record t := {
  StartDate : Time;
  ReturnDate : Time;
  SrcAirport : string;
  DstAirport : string;
  Price : float64;
  TripLength : Z;
  ShareableLink : string
}.
Definition zero : t :=
  {| StartDate := 0; ReturnDate := 0; SrcAirport := ""; DstAirport := "";
     Price := 0; TripLength := 0; ShareableLink := "" |}.
End Result.

Module resultOrError.
Record t := { result : Result.t; err : option error }.
End resultOrError.

(** ** validateArgs *)

Definition validateArgs (args : Args.t) : option error :=
  if bool_decide (length (Args.TripLengths args) = 0%nat) then
    Some "at least one trip length is required"%string
  else if existsb (λ l, l <=? 0) (Args.TripLengths args) then
    Some "trip lengths must be positive"%string
  else if Time_Before (Args.RangeEndDate args) (Args.RangeStartDate args) then
    Some "rangeEndDate must be on or after rangeStartDate"%string
  else if bool_decide (length (Args.SrcCities args) = 0%nat) then
    Some "at least one source city is required"%string
  else if bool_decide (length (Args.DstCities args) = 0%nat) then
    Some "at least one destination city is required"%string
  else None.

(** The five failures of [validateArgs]: the spec's InvalidRequest. *)
Definition InvalidRequest (e : error) : Prop :=
  e ∈ [ "at least one trip length is required"%string;
        "trip lengths must be positive"%string;
        "rangeEndDate must be on or after rangeStartDate"%string;
        "at least one source city is required"%string;
        "at least one destination city is required"%string ].

(** ** The comparator of Find's sort.Slice *)

Definition less (a b : Result.t) : bool :=
  if float64_eq (Result.Price a) (Result.Price b) then
    if Time_Equal (Result.StartDate a) (Result.StartDate b) then
      if Time_Equal (Result.ReturnDate a) (Result.ReturnDate b) then
        Result.TripLength a <? Result.TripLength b
      else Time_Before (Result.ReturnDate a) (Result.ReturnDate b)
    else Time_Before (Result.StartDate a) (Result.StartDate b)
  else float64_lt (Result.Price a) (Result.Price b).

(** ** Selection of the winning offer (findForTripLength, lines 117-125) *)

Definition bestOffer_step (bestOffer fullOffer : FullOffer.t) : FullOffer.t :=
  if float64_eq (FullOffer.Price fullOffer) 0 then bestOffer
  else if float64_eq (FullOffer.Price bestOffer) 0
          || float64_lt (FullOffer.Price fullOffer) (FullOffer.Price bestOffer)
       then fullOffer
       else bestOffer.

Definition pickBestOffer (fullOffers : list FullOffer.t) : FullOffer.t :=
  foldl bestOffer_step FullOffer.zero fullOffers.

(** ** The arguments of the four pricing-client calls *)

Definition priceGraphArgs (args : Args.t) (tripLength : Z) : PriceGraphArgs.t :=
  {| PriceGraphArgs.RangeStartDate := Args.RangeStartDate args;
     PriceGraphArgs.RangeEndDate := Args.RangeEndDate args;
     PriceGraphArgs.TripLength := tripLength;
     PriceGraphArgs.SrcCities := Args.SrcCities args;
     PriceGraphArgs.DstCities := Args.DstCities args;
     PriceGraphArgs.Options := Args.Options args |}.

(** Lines 103-109: the detailed offers of one price-graph sample. *)
Definition offersArgs (args : Args.t) (offer : Offer.t) : FlightsArgs.t :=
  {| FlightsArgs.Date := Offer.StartDate offer;
     FlightsArgs.ReturnDate := Offer.ReturnDate offer;
     FlightsArgs.SrcCities := Args.SrcCities args;
     FlightsArgs.DstCities := Args.DstCities args;
     FlightsArgs.SrcAirports := [];
     FlightsArgs.DstAirports := [];
     FlightsArgs.Options := Args.Options args |}.

(** Lines 132-138 and 155-161: the exact route and dates of the winner,
    used for its baseline and for its link. *)
Definition routeArgs (args : Args.t) (bestOffer : FullOffer.t) : FlightsArgs.t :=
  {| FlightsArgs.Date := FullOffer.StartDate bestOffer;
     FlightsArgs.ReturnDate := FullOffer.ReturnDate bestOffer;
     FlightsArgs.SrcCities := [];
     FlightsArgs.DstCities := [];
     FlightsArgs.SrcAirports := [FullOffer.SrcAirportCode bestOffer];
     FlightsArgs.DstAirports := [FullOffer.DstAirportCode bestOffer];
     FlightsArgs.Options := Args.Options args |}.

(** Lines 170-178. *)
Definition makeResult (bestOffer : FullOffer.t) (tripLength : Z) (url : string)
  : Result.t :=
  {| Result.StartDate := FullOffer.StartDate bestOffer;
     Result.ReturnDate := FullOffer.ReturnDate bestOffer;
     Result.SrcAirport := FullOffer.SrcAirportCode bestOffer;
     Result.DstAirport := FullOffer.DstAirportCode bestOffer;
     Result.Price := FullOffer.Price bestOffer;
     Result.TripLength := tripLength;
     Result.ShareableLink := url |}.

Definition sendErr (e : error) : resultOrError.t :=
  {| resultOrError.result := Result.zero; resultOrError.err := Some e |}.

Definition sendResult (r : Result.t) : resultOrError.t :=
  {| resultOrError.result := r; resultOrError.err := None |}.

(** ** One refinement task as a state machine

    A goroutine of [findForTripLength] touches shared state only when it
    calls the pricing client (which reads the shared context), calls
    [cancel()] and sends on [resultsCh].  Its control points are the
    program points just before each of these actions. *)

Inductive task :=
| AtGetOffers (offer : Offer.t)            (* line 101 *)
| AtGetPriceRange (bestOffer : FullOffer.t) (* line 130 *)
| AtSerializeURL (bestOffer : FullOffer.t)  (* line 153 *)
| AtCancel (e : error)                      (* lines 112, 141, 164 *)
| AtSend (item : resultOrError.t)           (* lines 113, 142, 165, 169 *)
| Finished.

(** What one step of a task does to the shared state. *)
Record action := {
  next : task;
  called : list Call;
  cancels : bool;
  sends : list resultOrError.t
}.

Definition goto (t : task) (cs : list Call) : action :=
  {| next := t; called := cs; cancels := false; sends := [] |}.

Section Engine.

Variable session : Session.t.
Variable sort_Slice :
  (Result.t → Result.t → bool) → list Result.t → list Result.t.
Variable ctx : Ctx.
Variable args : Args.t.

(** The step of a task that observes the shared context as [c]. *)
Definition task_step (tripLength : Z) (c : Ctx) (t : task) : action :=
  match t with
  | AtGetOffers offer =>
      let a := offersArgs args offer in
      match Session.GetOffers session c a with
      | (_, _, Some e) => goto (AtCancel e) [CallGetOffers c a]
      | (fullOffers, _, None) =>
          let bestOffer := pickBestOffer fullOffers in
          if float64_eq (FullOffer.Price bestOffer) 0
          then goto Finished [CallGetOffers c a]
          else goto (AtGetPriceRange bestOffer) [CallGetOffers c a]
      end
  | AtGetPriceRange bestOffer =>
      let a := routeArgs args bestOffer in
      match Session.GetOffers session c a with
      | (_, _, Some e) => goto (AtCancel e) [CallGetOffers c a]
      | (_, None, None) => goto Finished [CallGetOffers c a]
      | (_, Some priceRange, None) =>
          if float64_ge (FullOffer.Price bestOffer) (PriceRange.Low priceRange)
          then goto Finished [CallGetOffers c a]
          else goto (AtSerializeURL bestOffer) [CallGetOffers c a]
      end
  | AtSerializeURL bestOffer =>
      let a := routeArgs args bestOffer in
      match Session.SerializeURL session c a with
      | (_, Some e) => goto (AtCancel e) [CallSerializeURL c a]
      | (url, None) =>
          goto (AtSend (sendResult (makeResult bestOffer tripLength url)))
               [CallSerializeURL c a]
      end
  | AtCancel e =>
      {| next := AtSend (sendErr e); called := []; cancels := true; sends := [] |}
  | AtSend item =>
      {| next := Finished; called := []; cancels := false; sends := [item] |}
  | Finished => goto Finished []
  end.

(** The goroutine's body read sequentially, for a context that stays [c]:
    what the task sends from each of its control points on. *)
Definition linkStage (tripLength : Z) (c : Ctx) (bestOffer : FullOffer.t)
  : list resultOrError.t :=
  match Session.SerializeURL session c (routeArgs args bestOffer) with
  | (_, Some e) => [sendErr e]
  | (url, None) => [sendResult (makeResult bestOffer tripLength url)]
  end.

Definition baselineStage (tripLength : Z) (c : Ctx) (bestOffer : FullOffer.t)
  : list resultOrError.t :=
  match Session.GetOffers session c (routeArgs args bestOffer) with
  | (_, _, Some e) => [sendErr e]
  | (_, None, None) => []
  | (_, Some priceRange, None) =>
      if float64_ge (FullOffer.Price bestOffer) (PriceRange.Low priceRange)
      then []
      else linkStage tripLength c bestOffer
  end.

Definition refine (tripLength : Z) (c : Ctx) (offer : Offer.t)
  : list resultOrError.t :=
  match Session.GetOffers session c (offersArgs args offer) with
  | (_, _, Some e) => [sendErr e]
  | (fullOffers, _, None) =>
      let bestOffer := pickBestOffer fullOffers in
      if float64_eq (FullOffer.Price bestOffer) 0
      then []
      else baselineStage tripLength c bestOffer
  end.

Definition pending (tripLength : Z) (c : Ctx) (t : task)
  : list resultOrError.t :=
  match t with
  | AtGetOffers offer => refine tripLength c offer
  | AtGetPriceRange bestOffer => baselineStage tripLength c bestOffer
  | AtSerializeURL bestOffer => linkStage tripLength c bestOffer
  | AtCancel e => [sendErr e]
  | AtSend item => [item]
  | Finished => []
  end.

(** ** The shared state of one per-trip-length search *)

Record search := {
  tasks : list task;
  cancelled : bool;                    (* cancel() was called *)
  resultsCh : list resultOrError.t;    (* items in the order sent *)
  calls : list Call                    (* client calls in the order made *)
}.

(** [ctxWithCancel] is done when its parent is or when it was cancelled. *)
Definition ctxWithCancel (st : search) : Ctx := ctx || cancelled st.

(** Task [i] takes its next step. *)
Definition step (tripLength : Z) (st : search) (i : nat) : search :=
  match tasks st !! i with
  | None => st
  | Some t =>
      let a := task_step tripLength (ctxWithCancel st) t in
      {| tasks := <[i := next a]> (tasks st);
         cancelled := cancelled st || cancels a;
         resultsCh := resultsCh st ++ sends a;
         calls := calls st ++ called a |}
  end.

Definition run (tripLength : Z) (sched : list nat) (st : search) : search :=
  foldl (step tripLength) st sched.

(** Lines 91-97: one task per price-graph sample, an empty channel. *)
Definition spawn (priceGraphOffers : list Offer.t) : search :=
  {| tasks := AtGetOffers <$> priceGraphOffers;
     cancelled := false;
     resultsCh := [];
     calls := [] |}.

(** A task ends within five steps (three calls, [cancel()], one send).
    [wg.Wait()] returns once every task has ended: after the schedule, each
    task still running is stepped to its end. *)
Definition completion (n : nat) : list nat :=
  flat_map (λ i, [i; i; i; i; i]) (seq 0 n).

(** Lines 188-207: the consumer of [resultsCh]. *)
Definition collect_step (acc : list Result.t * option error)
  (item : resultOrError.t) : list Result.t * option error :=
  match resultOrError.err item with
  | Some e =>
      (acc.1, match acc.2 with None => Some e | Some first => Some first end)
  | None => (acc.1 ++ [resultOrError.result item], acc.2)
  end.

Definition collect (ch : list resultOrError.t) : list Result.t * option error :=
  let acc := foldl collect_step ([], None) ch in
  match acc.2 with
  | Some firstErr => ([], Some firstErr)
  | None => (acc.1, None)
  end.

(** The state in which [wg.Wait()] returns. *)
Definition finalState (sched : list nat) (tripLength : Z)
  (priceGraphOffers : list Offer.t) : search :=
  run tripLength (sched ++ completion (length priceGraphOffers))
    (spawn priceGraphOffers).

(** [findForTripLength], with the calls it made.  [sched] is the order in
    which the runtime lets the tasks take their steps. *)
Definition findForTripLength (sched : list nat) (tripLength : Z)
  : list Result.t * option error * list Call :=
  let a := priceGraphArgs args tripLength in
  match Session.GetPriceGraph session ctx a with
  | (_, Some e) => ([], Some e, [CallGetPriceGraph ctx a])
  | (priceGraphOffers, None) =>
      let st := finalState sched tripLength priceGraphOffers in
      (collect (resultsCh st), CallGetPriceGraph ctx a :: calls st)
  end.

(** Lines 43-49 of [Find]: the searches in request order, [k] counting
    them; the log has one entry per search started. *)
Fixpoint searchTripLengths (sched : nat → list nat) (k : nat)
  (tripLengths : list Z) (allResults : list Result.t)
  (log : list (Z * list Call))
  : list Result.t * option error * list (Z * list Call) :=
  match tripLengths with
  | [] => (allResults, None, log)
  | tripLength :: rest =>
      let '(partial, err, cs) := findForTripLength (sched k) tripLength in
      match err with
      | Some e => ([], Some e, log ++ [(tripLength, cs)])
      | None =>
          searchTripLengths sched (S k) rest (allResults ++ partial)
            (log ++ [(tripLength, cs)])
      end
  end.

Definition Find (sched : nat → list nat)
  : list Result.t * option error * list (Z * list Call) :=
  match validateArgs args with
  | Some e => ([], Some e, [])
  | None =>
      let '(allResults, err, log) :=
        searchTripLengths sched 0 (Args.TripLengths args) [] [] in
      match err with
      | Some e => ([], Some e, log)
      | None => (sort_Slice less allResults, None, log)
      end
  end.

End Engine.

(** ** sort.Slice

    [sort.Slice] belongs to Go's library.  Its documented contract: it
    sorts the slice given the less function, is not guaranteed to be
    stable, and wants a less function that is a transitive ordering (if
    both less(i, j) and less(j, k) hold then less(i, k) holds, and if both
    fail then less(i, k) fails).  The less function is only ever applied
    to elements of the slice, so it is on these that it has to be a
    transitive ordering.  [sort.Slice] only swaps elements, so its result
    is a rearrangement of its input whatever the less function. *)

Record StrictWeakOrderOn (lt : Result.t → Result.t → bool) (l : list Result.t)
  : Prop := {
  lt_irrefl : ∀ a, a ∈ l → lt a a = false;
  lt_trans : ∀ a b c, a ∈ l → b ∈ l → c ∈ l →
    lt a b = true → lt b c = true → lt a c = true;
  lt_incomp_trans : ∀ a b c, a ∈ l → b ∈ l → c ∈ l →
    lt a b = false → lt b c = false → lt a c = false
}.

Record SortSliceSpec
  (sort : (Result.t → Result.t → bool) → list Result.t → list Result.t)
  : Prop := {
  sort_Slice_perm : ∀ lt l, sort lt l ≡ₚ l;
  sort_Slice_sorted : ∀ lt l,
    StrictWeakOrderOn lt l → StronglySorted (λ a b, lt b a = false) (sort lt l)
}.

(** [insertionSort_func] of Go's sort package, which is all of
    [sort.Slice] on a slice of at most twelve elements: each element in
    turn is swapped leftwards while it is less than its left neighbour.
    [revPrefix] is the sorted prefix, last element first. *)
Fixpoint insertLeft (lt : Result.t → Result.t → bool) (x : Result.t)
  (revPrefix : list Result.t) : list Result.t :=
  match revPrefix with
  | [] => [x]
  | y :: rest => if lt x y then y :: insertLeft lt x rest else x :: y :: rest
  end.

Definition insertionSort_func (lt : Result.t → Result.t → bool)
  (data : list Result.t) : list Result.t :=
  rev (foldl (λ revPrefix x, insertLeft lt x revPrefix) [] data).

(** ** Vocabulary of the specification *)

(** A request that the Argument Validator must reject. *)
Definition malformed (args : Args.t) : Prop :=
  Args.TripLengths args = []
  ∨ (∃ l, l ∈ Args.TripLengths args ∧ l ≤ 0)
  ∨ Args.RangeEndDate args < Args.RangeStartDate args
  ∨ Args.SrcCities args = []
  ∨ Args.DstCities args = [].

(** A price that is a number. *)
Definition isNumber (p : float64) : Prop := p ≠ NaN.

(** The order of prices: [p] is a number, [q] is a number, and [p] is at
    most [q]. *)
Definition float64_le (p q : float64) : Prop :=
  match p, q with Num x, Num y => x ≤ y | _, _ => False end.

(** The ranking tuple of a Result and its lexicographic order, which
    relates no tuple whose price is NaN. *)
Definition rankKey (r : Result.t) : float64 * Z * Z * Z :=
  (Result.Price r, Result.StartDate r, Result.ReturnDate r, Result.TripLength r).

Definition keyLe (k1 k2 : float64 * Z * Z * Z) : Prop :=
  let '(p1, s1, r1, l1) := k1 in
  let '(p2, s2, r2, l2) := k2 in
  float64_lt p1 p2 = true
  ∨ (float64_eq p1 p2 = true
     ∧ (s1 < s2 ∨ (s1 = s2 ∧ (r1 < r2 ∨ (r1 = r2 ∧ l1 ≤ l2))))).

(** [a] ranks no later than [b]: cheaper, or as cheap and departing
    earlier, or also departing together and returning earlier, or also
    returning together and no longer. *)
Definition rankLe (a b : Result.t) : Prop := keyLe (rankKey a) (rankKey b).

(** A price that Go's [== 0] takes for zero, and one that it does not. *)
Definition isZero (p : float64) : Prop := float64_eq p 0 = true.
Definition nonZero (p : float64) : Prop := float64_eq p 0 = false.

(** No Result of the list has a NaN price. *)
Definition numberPriced (rs : list Result.t) : Prop :=
  ∀ r, r ∈ rs → isNumber (Result.Price r).

(** [p] is the minimum non-zero price among [fullOffers]. *)
Definition minNonZeroPrice (p : float64) (fullOffers : list FullOffer.t) : Prop :=
  nonZero p
  ∧ (∃ o, o ∈ fullOffers ∧ FullOffer.Price o = p)
  ∧ (∀ o, o ∈ fullOffers → nonZero (FullOffer.Price o) →
       float64_le p (FullOffer.Price o)).

(** No detailed offer of the list has a NaN price. *)
Definition pricesAreNumbers (fullOffers : list FullOffer.t) : Prop :=
  ∀ o, o ∈ fullOffers → isNumber (FullOffer.Price o).

Definition isErr (item : resultOrError.t) : Prop :=
  resultOrError.err item ≠ None.

Definition isResult (item : resultOrError.t) : Prop :=
  resultOrError.err item = None.

(** A call that observed its context as done. *)
Definition sawDone (c : Call) : Prop :=
  match c with
  | CallGetPriceGraph d _ | CallGetOffers d _ | CallSerializeURL d _ => d = true
  end.

(** What the tasks of the search for [tripLength] send when each runs
    undisturbed, sample by sample in price-graph order. *)
Definition sampleItems (session : Session.t) (ctx : Ctx) (args : Args.t)
  (tripLength : Z) : list resultOrError.t :=
  concat (refine session args tripLength ctx
            <$> (Session.GetPriceGraph session ctx (priceGraphArgs args tripLength)).1).

(** The price-graph lookup succeeds and no sample leads to an error. *)
Definition searchOk (session : Session.t) (ctx : Ctx) (args : Args.t)
  (tripLength : Z) : Prop :=
  (Session.GetPriceGraph session ctx (priceGraphArgs args tripLength)).2 = None
  ∧ Forall isResult (sampleItems session ctx args tripLength).

(** The price-graph lookup fails or some sample leads to an error. *)
Definition searchFails (session : Session.t) (ctx : Ctx) (args : Args.t)
  (tripLength : Z) : Prop :=
  (Session.GetPriceGraph session ctx (priceGraphArgs args tripLength)).2 ≠ None
  ∨ Exists isErr (sampleItems session ctx args tripLength).

(** The qualifying Results of a search, in price-graph order. *)
Definition qualifying (session : Session.t) (ctx : Ctx) (args : Args.t)
  (tripLength : Z) : list Result.t :=
  resultOrError.result <$> sampleItems session ctx args tripLength.

(** The route and dates of a Result, as [routeArgs] queries them. *)
Definition resultRoute (args : Args.t) (r : Result.t) : FlightsArgs.t :=
  {| FlightsArgs.Date := Result.StartDate r;
     FlightsArgs.ReturnDate := Result.ReturnDate r;
     FlightsArgs.SrcCities := [];
     FlightsArgs.DstCities := [];
     FlightsArgs.SrcAirports := [Result.SrcAirport r];
     FlightsArgs.DstAirports := [Result.DstAirport r];
     FlightsArgs.Options := Args.Options args |}.

(** [r] is what the task of [offer] emits when its three calls see the
    context as [c]: the winner of the sample's detailed offers, which the
    test of line 126 does not take for zero and the test of line 149 does
    not find greater than or equal to the low bound of the baseline of its
    exact route and dates. *)
Definition refinedFrom (session : Session.t) (args : Args.t) (tripLength : Z)
  (c : Ctx) (offer : Offer.t) (r : Result.t) : Prop :=
  ∃ fullOffers pr0 routeOffers priceRange url,
    Session.GetOffers session c (offersArgs args offer) = (fullOffers, pr0, None)
    ∧ nonZero (FullOffer.Price (pickBestOffer fullOffers))
    ∧ Session.GetOffers session c (routeArgs args (pickBestOffer fullOffers))
      = (routeOffers, Some priceRange, None)
    ∧ float64_ge (FullOffer.Price (pickBestOffer fullOffers))
        (PriceRange.Low priceRange) = false
    ∧ Session.SerializeURL session c (routeArgs args (pickBestOffer fullOffers))
      = (url, None)
    ∧ r = makeResult (pickBestOffer fullOffers) tripLength url.

(** [bestOffer] won the detailed offers that the client returned for the
    sample [offer], whatever the context was at that call. *)
Definition winnerOf (session : Session.t) (args : Args.t)
  (offer : Offer.t) (bestOffer : FullOffer.t) : Prop :=
  ∃ c fullOffers pr0,
    Session.GetOffers session c (offersArgs args offer) = (fullOffers, pr0, None)
    ∧ bestOffer = pickBestOffer fullOffers
    ∧ nonZero (FullOffer.Price bestOffer).

(** A Result sent by the task of [offer] was built from the winner of
    that sample, with the link of the winner's route and dates. *)
Definition emittedFor (session : Session.t) (args : Args.t) (tripLength : Z)
  (offer : Offer.t) (item : resultOrError.t) : Prop :=
  isResult item →
  ∃ bestOffer c url,
    winnerOf session args offer bestOffer
    ∧ Session.SerializeURL session c (routeArgs args bestOffer) = (url, None)
    ∧ resultOrError.result item = makeResult bestOffer tripLength url.

(** What the task of [offer] holds at each control point. *)
Definition tracedTask (session : Session.t) (args : Args.t) (tripLength : Z)
  (offer : Offer.t) (t : task) : Prop :=
  match t with
  | AtGetOffers o => o = offer
  | AtGetPriceRange bestOffer | AtSerializeURL bestOffer =>
      winnerOf session args offer bestOffer
  | AtSend item => emittedFor session args tripLength offer item
  | AtCancel _ | Finished => True
  end.

(** The items of a channel, each with the task that sent it: [senders]
    names, in channel order, the task of every item, no task twice, and
    [P] holds of every item and the price-graph sample that its task was
    spawned for. *)
Definition eachItemOfItsTask (priceGraphOffers : list Offer.t)
  (ch : list resultOrError.t) (P : Offer.t → resultOrError.t → Prop) : Prop :=
  ∃ senders : list nat,
    NoDup senders
    ∧ Forall2 (λ i item, ∃ offer, priceGraphOffers !! i = Some offer ∧ P offer item)
        senders ch.

(** One token for a task that has not ended. *)
Definition alive (t : task) : list unit :=
  match t with Finished => [] | _ => [()] end.

(** The call that task [t] is about to make, seeing the context as [c],
    returns no usable data: detailed offers that are all priced zero (or
    none at all), or no baseline, or a baseline with a low bound that the
    winner's price is greater than or equal to. *)
Definition noQualifyingData (session : Session.t) (args : Args.t) (c : Ctx)
  (t : task) : Prop :=
  match t with
  | AtGetOffers offer =>
      ∃ fullOffers pr0,
        Session.GetOffers session c (offersArgs args offer) = (fullOffers, pr0, None)
        ∧ ∀ o, o ∈ fullOffers → isZero (FullOffer.Price o)
  | AtGetPriceRange bestOffer =>
      ∃ routeOffers pr,
        Session.GetOffers session c (routeArgs args bestOffer) = (routeOffers, pr, None)
        ∧ (pr = None
           ∨ ∃ priceRange,
               pr = Some priceRange
               ∧ float64_ge (FullOffer.Price bestOffer) (PriceRange.Low priceRange)
                 = true)
  | _ => False
  end.

(** The same for a whole sample, under a context that stays [c]. *)
Definition sampleNoData (session : Session.t) (args : Args.t) (c : Ctx)
  (offer : Offer.t) : Prop :=
  ∃ fullOffers pr0,
    Session.GetOffers session c (offersArgs args offer) = (fullOffers, pr0, None)
    ∧ ((∀ o, o ∈ fullOffers → isZero (FullOffer.Price o))
       ∨ noQualifyingData session args c (AtGetPriceRange (pickBestOffer fullOffers))).

(** The call that task [t] is about to make, seeing the context as [c],
    fails with [e]. *)
Definition callFails (session : Session.t) (args : Args.t) (c : Ctx)
  (t : task) (e : error) : Prop :=
  match t with
  | AtGetOffers offer =>
      (Session.GetOffers session c (offersArgs args offer)).2 = Some e
  | AtGetPriceRange bestOffer =>
      (Session.GetOffers session c (routeArgs args bestOffer)).2 = Some e
  | AtSerializeURL bestOffer =>
      (Session.SerializeURL session c (routeArgs args bestOffer)).2 = Some e
  | _ => False
  end.

(** ** Invariants of the interleaving *)

(** What [bestOffer] is after the loop of lines 118-125 has seen [seen]. *)
Definition bestOf (seen : list FullOffer.t) (bestOffer : FullOffer.t) : Prop :=
  (bestOffer = FullOffer.zero ∧ ∀ o, o ∈ seen → isZero (FullOffer.Price o))
  ∨ (bestOffer ∈ seen
     ∧ nonZero (FullOffer.Price bestOffer)
     ∧ (pricesAreNumbers seen → minNonZeroPrice (FullOffer.Price bestOffer) seen)).

(** An upper bound on the steps a task still takes. *)
Definition rank (t : task) : nat :=
  match t with
  | AtGetOffers _ => 5
  | AtGetPriceRange _ => 4
  | AtSerializeURL _ => 3
  | AtCancel _ => 2
  | AtSend _ => 1
  | Finished => 0
  end.

(** Everything the tasks of [st] would still send under context [c]. *)
Definition pendings (session : Session.t) (args : Args.t) (tripLength : Z)
  (c : Ctx) (st : search) : list resultOrError.t :=
  concat (pending session args tripLength c <$> tasks st).

(** No [cancel()] so far and no task is heading for an error. *)
Definition quiet (session : Session.t) (ctx : Ctx) (args : Args.t)
  (tripLength : Z) (st : search) : Prop :=
  cancelled st = false ∧ Forall isResult (pendings session args tripLength ctx st).

(** An error was sent or some task is heading for one. *)
Definition doomed (session : Session.t) (ctx : Ctx) (args : Args.t)
  (tripLength : Z) (st : search) : Prop :=
  Exists isErr (resultsCh st)
  ∨ ∃ j t, tasks st !! j = Some t
           ∧ Exists isErr (pending session args tripLength (ctxWithCancel ctx st) t).

(** Every task is accounted for by its own sample, and every item sent
    by the sample of a task that has ended, no task accounting for two
    items. *)
Definition traced (session : Session.t) (args : Args.t) (tripLength : Z)
  (priceGraphOffers : list Offer.t) (st : search) : Prop :=
  Forall2 (tracedTask session args tripLength) priceGraphOffers (tasks st)
  ∧ ∃ senders : list nat,
      NoDup senders
      ∧ Forall (λ i, tasks st !! i = Some Finished) senders
      ∧ Forall2 (λ i item,
                   ∃ offer, priceGraphOffers !! i = Some offer
                            ∧ emittedFor session args tripLength offer item)
          senders (resultsCh st).

(** ** Stub pricing clients and requests for the examples *)

Definition day (n : Z) : Time := n * 86400000000000.

Definition economy : Options.t :=
  {| Options.Travelers := {| Travelers.Adults := 1 |};
     Options.Currency := "USD";
     Options.Stops := AnyStops;
     Options.Class := Economy;
     Options.TripType := RoundTrip;
     Options.Lang := "en" |}.

(** 2024-06-01 to 2024-06-03, San Francisco to New York. *)
Definition request (tripLengths : list Z) : Args.t :=
  {| Args.RangeStartDate := day 19875;
     Args.RangeEndDate := day 19877;
     Args.TripLengths := tripLengths;
     Args.SrcCities := ["San Francisco"%string];
     Args.DstCities := ["New York"%string];
     Args.Options := economy |}.

Definition sample (start : Z) (nights : Z) : Offer.t :=
  {| Offer.StartDate := day start;
     Offer.ReturnDate := day (start + nights);
     Offer.Price := 480 |}.

Definition itinerary (start ret : Time) (src : string) (price : float64)
  : FullOffer.t :=
  {| FullOffer.StartDate := start;
     FullOffer.ReturnDate := ret;
     FullOffer.Price := price;
     FullOffer.SrcAirportCode := src;
     FullOffer.DstAirportCode := "JFK" |}.

(** A table-driven client that honours cancellation: samples by trip
    length, detailed offers by the dates queried, the baseline by the
    source airport queried. *)
Record stub := {
  stubSamples : Z → list Offer.t * option error;
  stubOffers : Time → Time → list FullOffer.t * option error;
  stubBaseline : string → option PriceRange.t * option error;
  stubLink : string * option error
}.

Definition stubSession (s : stub) : Session.t :=
  {| Session.GetPriceGraph := λ c a,
       if c then ([], Some "context canceled"%string)
       else stubSamples s (PriceGraphArgs.TripLength a);
     Session.GetOffers := λ c a,
       if c then ([], None, Some "context canceled"%string)
       else match FlightsArgs.SrcAirports a with
            | [] =>
                (( (stubOffers s (FlightsArgs.Date a) (FlightsArgs.ReturnDate a)).1,
                   None),
                 (stubOffers s (FlightsArgs.Date a) (FlightsArgs.ReturnDate a)).2)
            | src :: _ => (([], (stubBaseline s src).1), (stubBaseline s src).2)
            end;
     Session.SerializeURL := λ c a,
       if c then (""%string, Some "context canceled"%string) else stubLink s |}.

(** One sample on 2024-06-01 per trip length; its detailed offers cost 300
    for ten nights and 500 otherwise, next to a zero-priced entry; the
    baseline's low bound is [low]. *)
Definition bargain (low : float64) : stub :=
  {| stubSamples := λ T, ([sample 19875 T], None);
     stubOffers := λ d r,
       ([itinerary d r "SFO" (if r - d =? day 10 then 300 else 500);
         itinerary d r "SFO" 0], None);
     stubBaseline := λ _, (Some {| PriceRange.Low := low; PriceRange.High := 900 |}, None);
     stubLink := ("https://www.google.com/travel/flights"%string, None) |}.

(** As [bargain 600], with three samples per trip length, and the detailed
    offers of every seven-night sample failing. *)
Definition flaky : stub :=
  {| stubSamples := λ T, ([sample 19875 T; sample 19876 T; sample 19877 T], None);
     stubOffers := λ d r,
       if r - d =? day 7 then ([], Some "rate limited"%string)
       else ([itinerary d r "SFO" 500], None);
     stubBaseline := λ _, (Some {| PriceRange.Low := 600; PriceRange.High := 900 |}, None);
     stubLink := ("https://www.google.com/travel/flights"%string, None) |}.

(** Two samples per trip length whose detailed offers are the same dates
    at the same price from two airports. *)
Definition twoAirports : stub :=
  {| stubSamples := λ T, ([sample 19875 T; sample 19876 T], None);
     stubOffers := λ d r,
       if d =? day 19875
       then ([itinerary (day 19875) (day 19882) "SFO" 500], None)
       else ([itinerary (day 19875) (day 19882) "SJC" 500], None);
     stubBaseline := λ _, (Some {| PriceRange.Low := 600; PriceRange.High := 900 |}, None);
     stubLink := ("https://www.google.com/travel/flights"%string, None) |}.

(** One sample whose only detailed offer has a negative price, under a
    baseline with low bound 0. *)
Definition refund : stub :=
  {| stubSamples := λ T, ([sample 19875 T], None);
     stubOffers := λ d r, ([itinerary d r "SFO" (-5)], None);
     stubBaseline := λ _, (Some {| PriceRange.Low := 0; PriceRange.High := 900 |}, None);
     stubLink := ("https://www.google.com/travel/flights"%string, None) |}.

(** One sample per trip length, with detailed offers at the prices
    [prices], under a baseline with low bound [low]. *)
Definition quoted (prices : list float64) (low : float64) : stub :=
  {| stubSamples := λ T, ([sample 19875 T], None);
     stubOffers := λ d r, (itinerary d r "SFO" <$> prices, None);
     stubBaseline := λ _, (Some {| PriceRange.Low := low; PriceRange.High := 900 |}, None);
     stubLink := ("https://www.google.com/travel/flights"%string, None) |}.

(** Three samples per trip length, whose only detailed offers cost 520,
    NaN and 510, under a baseline with low bound 600. *)
Definition mixed : stub :=
  {| stubSamples := λ T, ([sample 19875 T; sample 19876 T; sample 19877 T], None);
     stubOffers := λ d r,
       ([itinerary d r "SFO"
           (if d =? day 19875 then Num 520 else if d =? day 19876 then NaN
            else Num 510)], None);
     stubBaseline := λ _, (Some {| PriceRange.Low := 600; PriceRange.High := 900 |}, None);
     stubLink := ("https://www.google.com/travel/flights"%string, None) |}.

(** The three Results of [mixed] for seven nights, in price-graph order. *)
Definition mixedResults : list Result.t :=
  [makeResult (itinerary (day 19875) (day 19882) "SFO" 520) 7
     "https://www.google.com/travel/flights";
   makeResult (itinerary (day 19876) (day 19883) "SFO" NaN) 7
     "https://www.google.com/travel/flights";
   makeResult (itinerary (day 19877) (day 19884) "SFO" 510) 7
     "https://www.google.com/travel/flights"].

(** As [bargain 600], with two samples per trip length, and the detailed
    offers of the first sample failing. *)
Definition oneBad : stub :=
  {| stubSamples := λ T, ([sample 19875 T; sample 19876 T], None);
     stubOffers := λ d r,
       if d =? day 19875 then ([], Some "rate limited"%string)
       else ([itinerary d r "SFO" 500], None);
     stubBaseline := λ _, (Some {| PriceRange.Low := 600; PriceRange.High := 900 |}, None);
     stubLink := ("https://www.google.com/travel/flights"%string, None) |}.

(** The schedule that leaves every search to its completion order. *)
Definition inOrder : nat → list nat := λ _, [].

(** The schedule that lets the second task of every search run first. *)
Definition secondFirst : nat → list nat := λ _, [1; 1; 1; 1; 1]%nat.

(** ** Further vocabulary: the calls of a search *)

(** A query by city sets for the exact dates of a price-graph sample. *)
Definition citiesQuery (args : Args.t) (a : FlightsArgs.t) : Prop :=
  FlightsArgs.SrcCities a = Args.SrcCities args
  ∧ FlightsArgs.DstCities a = Args.DstCities args
  ∧ FlightsArgs.SrcAirports a = []
  ∧ FlightsArgs.DstAirports a = []
  ∧ FlightsArgs.Options a = Args.Options args.

(** A query for one source airport and one destination airport. *)
Definition routeQuery (args : Args.t) (a : FlightsArgs.t) : Prop :=
  FlightsArgs.SrcCities a = []
  ∧ FlightsArgs.DstCities a = []
  ∧ (∃ src, FlightsArgs.SrcAirports a = [src])
  ∧ (∃ dst, FlightsArgs.DstAirports a = [dst])
  ∧ FlightsArgs.Options a = Args.Options args.

(** The calls that refinement tasks make. *)
Definition refinementCall (args : Args.t) (c : Call) : Prop :=
  match c with
  | CallGetPriceGraph _ _ => False
  | CallGetOffers _ a => citiesQuery args a ∨ routeQuery args a
  | CallSerializeURL _ a => routeQuery args a
  end.

(** The calls of one search as they are logged: the coarse lookup first,
    then refinement calls only. *)
Definition searchCalls (ctx : Ctx) (args : Args.t) (entry : Z * list Call) : Prop :=
  ∃ rest,
    entry.2 = CallGetPriceGraph ctx (priceGraphArgs args entry.1) :: rest
    ∧ Forall (refinementCall args) rest.

(** One token per pricing-client call that a task may still make. *)
Definition callsLeft (t : task) : list unit :=
  match t with
  | AtGetOffers _ => [(); (); ()]
  | AtGetPriceRange _ => [(); ()]
  | AtSerializeURL _ => [()]
  | AtCancel _ | AtSend _ | Finished => []
  end.

(** [e] is an error that the pricing client returns to some call. *)
Definition returnedByClient (session : Session.t) (e : error) : Prop :=
  (∃ c a, (Session.GetPriceGraph session c a).2 = Some e)
  ∨ (∃ c a, (Session.GetOffers session c a).2 = Some e)
  ∨ (∃ c a, (Session.SerializeURL session c a).2 = Some e).

(** The errors that a task carries and the errors on the channel are the
    client's. *)
Definition carriesClientError (session : Session.t) (t : task) : Prop :=
  match t with
  | AtCancel e => returnedByClient session e
  | AtSend item =>
      ∀ e, resultOrError.err item = Some e → returnedByClient session e
  | _ => True
  end.

Definition clientErrors (session : Session.t) (st : search) : Prop :=
  Forall (carriesClientError session) (tasks st)
  ∧ Forall (λ item, ∀ e, resultOrError.err item = Some e →
                         returnedByClient session e) (resultsCh st).

(** Detailed offers of which two tie at the lowest non-zero price, the
    San Jose departure listed before the San Francisco one. *)
Definition tiedOffers : list FullOffer.t :=
  [itinerary (day 19875) (day 19882) "OAK" 0;
   itinerary (day 19875) (day 19882) "SJC" 500;
   itinerary (day 19875) (day 19882) "SFO" 700;
   itinerary (day 19875) (day 19882) "SFO" 500].

(** [bestOffer] is the first offer of [seen], in list order, that has the
    lowest non-zero price: everything before it is priced zero or dearer,
    everything after it is priced zero or no cheaper. *)
Definition firstCheapest (seen : list FullOffer.t) (bestOffer : FullOffer.t)
  : Prop :=
  ∃ pre post,
    seen = pre ++ bestOffer :: post
    ∧ nonZero (FullOffer.Price bestOffer)
    ∧ (∀ o, o ∈ pre →
         isZero (FullOffer.Price o)
         ∨ float64_lt (FullOffer.Price bestOffer) (FullOffer.Price o) = true)
    ∧ (∀ o, o ∈ post →
         isZero (FullOffer.Price o)
         ∨ float64_le (FullOffer.Price bestOffer) (FullOffer.Price o)).

(** A client with no sample for seven nights, whose price graph fails for
    ten nights, and which is [bargain 600] otherwise. *)
Definition sparse : stub :=
  {| stubSamples := λ T,
       if T =? 7 then ([], None)
       else if T =? 10 then ([], Some "price graph unavailable"%string)
       else ([sample 19875 T], None);
     stubOffers := stubOffers (bargain 600);
     stubBaseline := stubBaseline (bargain 600);
     stubLink := stubLink (bargain 600) |}.

(** ** The tool front end (cmd/mcp-server)

    [findCheapestOffers] is the handler of the MCP tool.  The library
    functions it calls are parameters: [time.Parse] with the layout
    [time.DateOnly], [Time.Format] with [time.RFC3339], [language.Parse],
    [currency.ParseISO], [Unit.String] and fmt's verbs [%d] and [%.0f].  A
    [language.Tag] and a [currency.Unit] are held as strings, as in
    [Options.t]. *)

Module Std.
Record t := {
  time_Parse : string → Time * option error;
  Time_Format : Time → string;
  language_Parse : string → string * option error;
  currency_ParseISO : string → string * option error;
  Unit_String : string → string;
  Sprintf_d : Z → string;
  Sprintf_0f : float64 → string
}.
End Std.

Definition language_English : string := "en".
Definition currency_USD : string := "USD".

Module findCheapestOffersParams.
Record t := {
  RangeStartDate : string;
  RangeEndDate : string;
  TripLengths : list Z;
  SrcCities : list string;
  DstCities : list string;
  Language : string;
  Currency : string;
  Adults : Z
}.
End findCheapestOffersParams.

Module offerResponse.
Record t := {
  StartDate : string;
  ReturnDate : string;
  SrcAirport : string;
  DstAirport : string;
  Price : float64;
  TripLength : Z;
  Currency : string;
  ShareableLink : string
}.
End offerResponse.

Module findCheapestOffersResponse.
Record t := { Offers : list offerResponse.t }.
(** Go's zero value, returned with every error. *)
Definition zero : t := {| Offers := [] |}.
End findCheapestOffersResponse.

Module CallToolResult.
(** Modelled from the spec: the tool result of the MCP SDK, as the handler
    builds it: a list of text contents. *)
Record t := { Content : list string }.
End CallToolResult.

Module server.
Record t := { session : Session.t }.
End server.

(** [fmt.Errorf] with a message ending in [: %w]. *)
Definition Errorf_w (message : string) (err : error) : error :=
  (message +:+ ": " +:+ err)%string.

(** Lines 59-127 of the handler: the request for [cheapoffers.Find] and
    the currency, or the handler's own error. *)
Definition parseParams (std : Std.t) (params : findCheapestOffersParams.t)
  : error + (Args.t * string) :=
  match Std.time_Parse std (findCheapestOffersParams.RangeStartDate params) with
  | (_, Some err) => inl (Errorf_w "parse rangeStartDate" err)
  | (startDate, None) =>
  match Std.time_Parse std (findCheapestOffersParams.RangeEndDate params) with
  | (_, Some err) => inl (Errorf_w "parse rangeEndDate" err)
  | (endDate, None) =>
  if bool_decide (length (findCheapestOffersParams.TripLengths params) = 0%nat)
  then inl "tripLengths must contain at least one value"%string
  else if existsb (λ l, l <=? 0) (findCheapestOffersParams.TripLengths params)
  then inl "tripLengths must be positive values"%string
  else if bool_decide (length (findCheapestOffersParams.SrcCities params) = 0%nat)
  then inl "at least one source city is required"%string
  else if bool_decide (length (findCheapestOffersParams.DstCities params) = 0%nat)
  then inl "at least one destination city is required"%string
  else
  match (if bool_decide (findCheapestOffersParams.Language params ≠ ""%string)
         then Std.language_Parse std (findCheapestOffersParams.Language params)
         else (language_English, None)) with
  | (_, Some parseErr) => inl (Errorf_w "parse language" parseErr)
  | (lang, None) =>
  match (if bool_decide (findCheapestOffersParams.Currency params ≠ ""%string)
         then Std.currency_ParseISO std (findCheapestOffersParams.Currency params)
         else (currency_USD, None)) with
  | (_, Some parseErr) => inl (Errorf_w "parse currency" parseErr)
  | (curr, None) =>
  let adults :=
    if findCheapestOffersParams.Adults params =? 0 then 1
    else findCheapestOffersParams.Adults params in
  if adults <? 0
  then inl "adults must be greater than zero"%string
  else
    inr ({| Args.RangeStartDate := startDate;
            Args.RangeEndDate := endDate;
            Args.TripLengths := findCheapestOffersParams.TripLengths params;
            Args.SrcCities := findCheapestOffersParams.SrcCities params;
            Args.DstCities := findCheapestOffersParams.DstCities params;
            Args.Options :=
              {| Options.Travelers := {| Travelers.Adults := adults |};
                 Options.Currency := curr;
                 Options.Stops := AnyStops;
                 Options.Class := Economy;
                 Options.TripType := RoundTrip;
                 Options.Lang := lang |} |},
         curr)
  end end end end.

(** Lines 135-144: one offer of the response. *)
Definition offerOf (std : Std.t) (curr : string) (res : Result.t)
  : offerResponse.t :=
  {| offerResponse.StartDate := Std.Time_Format std (Result.StartDate res);
     offerResponse.ReturnDate := Std.Time_Format std (Result.ReturnDate res);
     offerResponse.SrcAirport := Result.SrcAirport res;
     offerResponse.DstAirport := Result.DstAirport res;
     offerResponse.Price := Result.Price res;
     offerResponse.TripLength := Result.TripLength res;
     offerResponse.Currency := Std.Unit_String std curr;
     offerResponse.ShareableLink := Result.ShareableLink res |}.

(** Lines 147-159: the text of the tool result. *)
Definition summaryText (std : Std.t) (offers : list offerResponse.t) : string :=
  ("Found " +:+ Std.Sprintf_d std (Z.of_nat (length offers)) +:+ " cheap offer(s)."
   +:+ match offers with
       | [] => ""
       | cheapest :: _ =>
           " Cheapest: " +:+ offerResponse.SrcAirport cheapest
           +:+ " -> " +:+ offerResponse.DstAirport cheapest
           +:+ " on " +:+ offerResponse.StartDate cheapest
           +:+ " for " +:+ Std.Sprintf_0f std (offerResponse.Price cheapest)
           +:+ " " +:+ offerResponse.Currency cheapest
           +:+ " (" +:+ Std.Sprintf_d std (offerResponse.TripLength cheapest)
           +:+ " days)."
       end)%string.

(** The handler, with the log of the pricing-client calls it caused. *)
Definition findCheapestOffers (std : Std.t)
  (sort_Slice : (Result.t → Result.t → bool) → list Result.t → list Result.t)
  (s : server.t) (ctx : Ctx) (sched : nat → list nat)
  (params : findCheapestOffersParams.t)
  : option CallToolResult.t * findCheapestOffersResponse.t * option error
    * list (Z * list Call) :=
  match parseParams std params with
  | inl err => (None, findCheapestOffersResponse.zero, Some err, [])
  | inr (args, curr) =>
      match Find (server.session s) sort_Slice ctx args sched with
      | (_, Some err, log) => (None, findCheapestOffersResponse.zero, Some err, log)
      | (results, None, log) =>
          let offers := offerOf std curr <$> results in
          (Some {| CallToolResult.Content := [summaryText std offers] |},
           {| findCheapestOffersResponse.Offers := offers |}, None, log)
      end
  end.

(** A request that the handler's own checks reject. *)
Definition rejected (std : Std.t) (params : findCheapestOffersParams.t) : Prop :=
  (Std.time_Parse std (findCheapestOffersParams.RangeStartDate params)).2 ≠ None
  ∨ (Std.time_Parse std (findCheapestOffersParams.RangeEndDate params)).2 ≠ None
  ∨ findCheapestOffersParams.TripLengths params = []
  ∨ (∃ l, l ∈ findCheapestOffersParams.TripLengths params ∧ l ≤ 0)
  ∨ findCheapestOffersParams.SrcCities params = []
  ∨ findCheapestOffersParams.DstCities params = []
  ∨ (findCheapestOffersParams.Language params ≠ ""%string
     ∧ (Std.language_Parse std (findCheapestOffersParams.Language params)).2 ≠ None)
  ∨ (findCheapestOffersParams.Currency params ≠ ""%string
     ∧ (Std.currency_ParseISO std (findCheapestOffersParams.Currency params)).2 ≠ None)
  ∨ findCheapestOffersParams.Adults params < 0.

(** The options of a call. *)
Definition callOptions (c : Call) : Options.t :=
  match c with
  | CallGetPriceGraph _ a => PriceGraphArgs.Options a
  | CallGetOffers _ a | CallSerializeURL _ a => FlightsArgs.Options a
  end.

(** Library functions for the examples: the two dates of the scenarios and
    the currency codes USD and EUR parse, nothing else does. *)
Definition stubStd : Std.t :=
  {| Std.time_Parse := λ s,
       if bool_decide (s = "2024-06-01"%string) then (day 19875, None)
       else if bool_decide (s = "2024-06-03"%string) then (day 19877, None)
       else (0, Some "cannot parse date"%string);
     Std.Time_Format := λ t,
       if t =? day 19875 then "2024-06-01T00:00:00Z"%string
       else if t =? day 19882 then "2024-06-08T00:00:00Z"%string
       else "another day"%string;
     Std.language_Parse := λ s,
       if bool_decide (s = "de"%string) then ("de"%string, None)
       else (""%string, Some "language: tag is not well-formed"%string);
     Std.currency_ParseISO := λ s,
       if bool_decide (s = "EUR"%string) then ("EUR"%string, None)
       else (""%string, Some "currency: tag is not a recognized currency"%string);
     Std.Unit_String := λ u, u;
     Std.Sprintf_d := λ n,
       if n =? 0 then "0" else if n =? 1 then "1" else if n =? 2 then "2"
       else if n =? 7 then "7" else "many";
     Std.Sprintf_0f := λ p, if float64_eq p 500 then "500" else "some" |}.

Definition toolParams (start : string) (tripLengths : list Z) (adults : Z)
  : findCheapestOffersParams.t :=
  {| findCheapestOffersParams.RangeStartDate := start;
     findCheapestOffersParams.RangeEndDate := "2024-06-03";
     findCheapestOffersParams.TripLengths := tripLengths;
     findCheapestOffersParams.SrcCities := ["San Francisco"%string];
     findCheapestOffersParams.DstCities := ["New York"%string];
     findCheapestOffersParams.Language := "";
     findCheapestOffersParams.Currency := "";
     findCheapestOffersParams.Adults := adults |}.

(** The options that the handler derives from its parameters: at least
    one adult (one when none is given), any stops, economy, round trip,
    English and US dollars unless stated otherwise. *)
Definition frontEndOptions (params : findCheapestOffersParams.t) (o : Options.t)
  : Prop :=
  1 ≤ Travelers.Adults (Options.Travelers o)
  ∧ Travelers.Adults (Options.Travelers o)
    = (if findCheapestOffersParams.Adults params =? 0 then 1
       else findCheapestOffersParams.Adults params)
  ∧ Options.Stops o = AnyStops
  ∧ Options.Class o = Economy
  ∧ Options.TripType o = RoundTrip
  ∧ (findCheapestOffersParams.Language params = ""%string →
     Options.Lang o = language_English)
  ∧ (findCheapestOffersParams.Currency params = ""%string →
     Options.Currency o = currency_USD).

(** * Properties *)

(** ** The Argument Validator *)

Lemma existsb_nonpositive (ls : list Z) :
  existsb (λ l, l <=? 0) ls = true ↔ ∃ l, l ∈ ls ∧ l ≤ 0.
Proof.
  rewrite existsb_exists. split.
  - intros (l & Hin & Hl). exists l. split; [by apply list_elem_of_In | lia].
  - intros (l & Hin & Hl). exists l. split; [by apply list_elem_of_In | lia].
Qed.

Lemma validateArgs_spec (args : Args.t) :
  match validateArgs args with
  | Some e => malformed args ∧ InvalidRequest e
  | None => ¬ malformed args
  end.
Proof.
  unfold validateArgs, malformed, InvalidRequest, Time_Before.
  case_bool_decide as Hlen.
  { split; [left; by apply length_zero_iff_nil | apply list_elem_of_here]. }
  destruct (existsb _ _) eqn:Hex.
  { split; [right; left; by apply existsb_nonpositive |].
    do 1 apply list_elem_of_further. apply list_elem_of_here. }
  destruct (_ <? _) eqn:Hlt.
  { split; [right; right; left; by apply Z.ltb_lt |].
    do 2 apply list_elem_of_further. apply list_elem_of_here. }
  case_bool_decide as Hsrc.
  { split; [do 3 right; left; by apply length_zero_iff_nil |].
    do 3 apply list_elem_of_further. apply list_elem_of_here. }
  case_bool_decide as Hdst.
  { split; [do 4 right; by apply length_zero_iff_nil |].
    do 4 apply list_elem_of_further. apply list_elem_of_here. }
  rewrite length_zero_iff_nil in Hlen, Hsrc, Hdst.
  intros [?|[Hl|[?|[?|?]]]]; try done.
  - apply existsb_nonpositive in Hl. congruence.
  - apply Z.ltb_ge in Hlt. lia.
Qed.

(** C6: [Find] fails with an InvalidRequest error, with no pricing-client
    call made, exactly when the request has no trip length, a trip length
    at most 0, an end date before the start date, no source city or no
    destination city; on every other request [validateArgs], a pure
    function, returns nil. *)
Theorem C6_invalid_request_iff_malformed
  (session : Session.t)
  (sort_Slice : (Result.t → Result.t → bool) → list Result.t → list Result.t)
  (ctx : Ctx) (args : Args.t) (sched : nat → list nat) :
  (malformed args ↔
     ∃ e, InvalidRequest e ∧ validateArgs args = Some e
          ∧ Find session sort_Slice ctx args sched = ([], Some e, []))
  ∧ (¬ malformed args ↔ validateArgs args = None).
Proof.
  pose proof (validateArgs_spec args) as Hspec.
  unfold Find. destruct (validateArgs args) as [e|].
  - destruct Hspec as [Hbad Hinv]. split.
    + split; [intros _; by exists e | done].
    + split; [done | discriminate].
  - split.
    + split; [done | by intros (e & _ & [=] & _)].
    + done.
Qed.

Lemma C6_invalid_request_witness :
  ∃ e, InvalidRequest e
       ∧ validateArgs (request [7; 0]) = Some e
       ∧ Find (stubSession (bargain 600)) insertionSort_func false
           (request [7; 0]) inOrder
         = ([], Some e, []).
Proof.
  apply (C6_invalid_request_iff_malformed (stubSession (bargain 600))
           insertionSort_func false (request [7; 0]) inOrder).
  right; left. exists 0. split; [| reflexivity].
  apply list_elem_of_further, list_elem_of_here.
Defined.

(** The five rejections, in the order [validateArgs] tests them, and the
    request of the specification's scenarios, which passes. *)
Example validateArgs_cases :
  validateArgs (request []) = Some "at least one trip length is required"%string
  ∧ validateArgs (request [7; 0])
    = Some "trip lengths must be positive"%string
  ∧ validateArgs
      {| Args.RangeStartDate := day 19877; Args.RangeEndDate := day 19875;
         Args.TripLengths := [7]; Args.SrcCities := ["San Francisco"%string];
         Args.DstCities := ["New York"%string]; Args.Options := economy |}
    = Some "rangeEndDate must be on or after rangeStartDate"%string
  ∧ validateArgs
      {| Args.RangeStartDate := day 19875; Args.RangeEndDate := day 19877;
         Args.TripLengths := [7]; Args.SrcCities := [];
         Args.DstCities := ["New York"%string]; Args.Options := economy |}
    = Some "at least one source city is required"%string
  ∧ validateArgs
      {| Args.RangeStartDate := day 19875; Args.RangeEndDate := day 19877;
         Args.TripLengths := [7]; Args.SrcCities := ["San Francisco"%string];
         Args.DstCities := []; Args.Options := economy |}
    = Some "at least one destination city is required"%string
  ∧ validateArgs (request [7]) = None.
Proof. repeat split; reflexivity. Qed.

(** ** Prices *)

Lemma isZero_nonZero (p : float64) : isZero p → nonZero p → False.
Proof. unfold isZero, nonZero. congruence. Qed.

Lemma isZero_or_nonZero (p : float64) : {isZero p} + {nonZero p}.
Proof. unfold isZero, nonZero. destruct (float64_eq p 0); [by left | by right]. Qed.

Lemma float64_le_refl (p : float64) : isNumber p → float64_le p p.
Proof. destruct p; [done | simpl; lia]. Qed.

Lemma float64_lt_le_trans (p q r : float64) :
  float64_lt p q = true → float64_le q r → float64_le p r.
Proof. destruct p, q, r; simpl; try done. lia. Qed.

Lemma float64_not_lt_le (p q : float64) :
  isNumber p → isNumber q → float64_lt p q = false → float64_le q p.
Proof. destruct p, q; simpl; try done. lia. Qed.

Lemma float64_ge_false_lt (p q : float64) :
  isNumber p → isNumber q → float64_ge p q = false → float64_lt p q = true.
Proof. destruct p, q; simpl; try done. lia. Qed.

Lemma float64_lt_trans (p q r : float64) :
  float64_lt p q = true → float64_lt q r = true → float64_lt p r = true.
Proof. destruct p, q, r; simpl; try done. rewrite !Z.ltb_lt. lia. Qed.

Lemma float64_lt_le_lt (p q r : float64) :
  float64_lt p q = true → float64_le q r → float64_lt p r = true.
Proof. destruct p, q, r; simpl; try done. rewrite !Z.ltb_lt. lia. Qed.

(** ** The winning offer *)

Lemma bestOffer_step_bestOf seen bestOffer fullOffer :
  bestOf seen bestOffer →
  bestOf (seen ++ [fullOffer]) (bestOffer_step bestOffer fullOffer).
Proof.
  unfold bestOffer_step, bestOf.
  assert (∀ o, o ∈ seen → o ∈ seen ++ [fullOffer]) as Hold
    by (intros o Ho; apply elem_of_app; by left).
  assert (fullOffer ∈ seen ++ [fullOffer]) as Hnew
    by (apply elem_of_app; right; by left).
  assert (pricesAreNumbers (seen ++ [fullOffer]) →
          pricesAreNumbers seen ∧ isNumber (FullOffer.Price fullOffer)) as Hnum.
  { intros Hall. split; [intros o Ho; by apply Hall, Hold | by apply Hall]. }
  intros [[-> Hzero] | (Hin & Hnz & Hmin)].
  - destruct (float64_eq (FullOffer.Price fullOffer) 0) eqn:Hp.
    + left. split; [done |].
      intros o [Ho | ->%list_elem_of_singleton]%elem_of_app; [by apply Hzero | done].
    + right. simpl. split; [done |]. split; [done |].
      intros [_ Hf]%Hnum. split; [done |]. split; [by exists fullOffer |].
      intros o [Ho | ->%list_elem_of_singleton]%elem_of_app Hne.
      * destruct (isZero_nonZero _ (Hzero o Ho) Hne).
      * by apply float64_le_refl.
  - right. destruct (float64_eq (FullOffer.Price fullOffer) 0) eqn:Hp.
    + split; [by apply Hold |]. split; [done |].
      intros [Hs _]%Hnum. destruct (Hmin Hs) as (_ & _ & Hle).
      split; [done |]. split; [exists bestOffer; split; [by apply Hold | done] |].
      intros o [Ho | ->%list_elem_of_singleton]%elem_of_app Hne; [by apply Hle |].
      unfold nonZero in Hne. congruence.
    + unfold nonZero in Hnz. rewrite Hnz. simpl.
      destruct (float64_lt (FullOffer.Price fullOffer) (FullOffer.Price bestOffer))
        eqn:Hlt.
      * split; [done |]. split; [done |].
        intros [Hs Hf]%Hnum. destruct (Hmin Hs) as (_ & _ & Hle).
        split; [done |]. split; [by exists fullOffer |].
        intros o [Ho | ->%list_elem_of_singleton]%elem_of_app Hne.
        -- eapply float64_lt_le_trans; [exact Hlt | by apply Hle].
        -- by apply float64_le_refl.
      * split; [by apply Hold |]. split; [done |].
        intros [Hs Hf]%Hnum. destruct (Hmin Hs) as (_ & _ & Hle).
        split; [done |]. split; [exists bestOffer; split; [by apply Hold | done] |].
        intros o [Ho | ->%list_elem_of_singleton]%elem_of_app Hne; [by apply Hle |].
        apply float64_not_lt_le; [done | by apply Hs | done].
Qed.

Lemma foldl_bestOf (more seen : list FullOffer.t) (bestOffer : FullOffer.t) :
  bestOf seen bestOffer →
  bestOf (seen ++ more) (foldl bestOffer_step bestOffer more).
Proof.
  revert seen bestOffer.
  induction more as [| o more IH]; intros seen bestOffer Hb; simpl.
  - by rewrite app_nil_r.
  - replace (seen ++ o :: more) with ((seen ++ [o]) ++ more)
      by (by rewrite <- app_assoc).
    apply IH. by apply bestOffer_step_bestOf.
Qed.

Lemma pickBestOffer_bestOf (fullOffers : list FullOffer.t) :
  bestOf fullOffers (pickBestOffer fullOffers).
Proof.
  apply (foldl_bestOf fullOffers []). left. split; [done |].
  intros o Ho. by apply elem_of_nil in Ho.
Qed.

(** A winner that is not taken for zero is one of the offers, and the
    cheapest of those not taken for zero when every price is a number. *)
Lemma pickBestOffer_nonzero (fullOffers : list FullOffer.t) :
  nonZero (FullOffer.Price (pickBestOffer fullOffers)) →
  pickBestOffer fullOffers ∈ fullOffers
  ∧ (pricesAreNumbers fullOffers →
     minNonZeroPrice (FullOffer.Price (pickBestOffer fullOffers)) fullOffers).
Proof.
  intros Hnz. destruct (pickBestOffer_bestOf fullOffers) as [[Hz _] | (? & _ & ?)];
    [| done].
  rewrite Hz in Hnz. discriminate Hnz.
Qed.

Lemma pickBestOffer_zero (fullOffers : list FullOffer.t) :
  isZero (FullOffer.Price (pickBestOffer fullOffers)) ↔
  ∀ o, o ∈ fullOffers → isZero (FullOffer.Price o).
Proof.
  destruct (pickBestOffer_bestOf fullOffers) as [[Hz Hall] | (Hin & Hnz & _)].
  - by rewrite Hz.
  - split.
    + intros Hz. destruct (isZero_nonZero _ Hz Hnz).
    + intros Hall. by apply Hall.
Qed.

(** ** The consumer loop *)

Lemma foldl_collect_results (ch : list resultOrError.t)
  (acc : list Result.t * option error) :
  Forall isResult ch →
  foldl collect_step acc ch = (acc.1 ++ (resultOrError.result <$> ch), acc.2).
Proof.
  revert acc. induction ch as [| item ch IH]; intros [rs fe] Hall; simpl.
  - by rewrite app_nil_r.
  - apply Forall_cons in Hall as [Hitem Hall]. unfold isResult in Hitem.
    unfold collect_step at 2. rewrite Hitem. rewrite IH by done. simpl.
    by rewrite <- app_assoc.
Qed.

Lemma foldl_collect_keeps_first (ch : list resultOrError.t)
  (rs : list Result.t) (e : error) :
  (foldl collect_step (rs, Some e) ch).2 = Some e.
Proof.
  revert rs. induction ch as [| item ch IH]; intros rs; simpl; [done |].
  unfold collect_step at 2. simpl. destruct (resultOrError.err item); apply IH.
Qed.

Lemma collect_results (ch : list resultOrError.t) :
  Forall isResult ch → collect ch = (resultOrError.result <$> ch, None).
Proof.
  intros Hall. unfold collect. by rewrite foldl_collect_results.
Qed.

Lemma collect_first_error (pre post : list resultOrError.t)
  (item : resultOrError.t) (e : error) :
  Forall isResult pre → resultOrError.err item = Some e →
  collect (pre ++ item :: post) = ([], Some e).
Proof.
  intros Hpre Hitem. unfold collect.
  rewrite foldl_app, (foldl_collect_results pre) by done. simpl.
  unfold collect_step at 2. rewrite Hitem. simpl.
  by rewrite foldl_collect_keeps_first.
Qed.

Lemma isResult_dec (item : resultOrError.t) : {isResult item} + {isErr item}.
Proof.
  unfold isResult, isErr. destruct (resultOrError.err item).
  - right. discriminate.
  - by left.
Qed.

Lemma first_error_split (ch : list resultOrError.t) :
  Forall isResult ch
  ∨ ∃ pre item post e, ch = pre ++ item :: post ∧ Forall isResult pre
                       ∧ resultOrError.err item = Some e.
Proof.
  induction ch as [| item ch IH]; [left; constructor |].
  destruct (resultOrError.err item) as [e|] eqn:Hitem.
  - right. exists [], item, ch, e. split; [done |]. split; [constructor | done].
  - destruct IH as [Hall | (pre & it & post & e & -> & Hpre & Hit)].
    + left. by constructor.
    + right. exists (item :: pre), it, post, e. split; [done |].
      split; [by constructor | done].
Qed.



(** ** Steps of the interleaving *)

Lemma elem_of_concat {X : Type} (x : X) (ls : list (list X)) :
  x ∈ concat ls ↔ ∃ l, x ∈ l ∧ l ∈ ls.
Proof.
  rewrite list_elem_of_In, in_concat. split.
  - intros (l & Hl & Hx). exists l. by rewrite !list_elem_of_In.
  - intros (l & Hx & Hl). exists l. by rewrite <- !list_elem_of_In.
Qed.

Lemma concat_fmap_insert {X : Type} (f : task → list X) (l : list task)
  (i : nat) (x y : task) :
  l !! i = Some x →
  concat (f <$> <[i:=y]> l) ++ f x ≡ₚ concat (f <$> l) ++ f y.
Proof.
  intros Hi. rewrite insert_take_drop by (by eapply lookup_lt_Some).
  rewrite <- (take_drop_middle l i x Hi) at 3.
  rewrite !fmap_app, !fmap_cons, !concat_app, !concat_cons.
  rewrite <- !app_assoc.
  apply Permutation_app_head.
  rewrite (Permutation_app_comm (f x) (concat _ ++ f y)).
  rewrite <- !app_assoc.
  rewrite (Permutation_app_comm (f y) (concat _ ++ f x)).
  rewrite <- app_assoc. apply Permutation_app_head, Permutation_app_comm.
Qed.

Section Interleaving.

Variable session : Session.t.
Variable ctx : Ctx.
Variable args : Args.t.
Variable tripLength : Z.

Lemma task_step_pending (c : Ctx) (t : task) :
  pending session args tripLength c t
  = sends (task_step session args tripLength c t)
    ++ pending session args tripLength c (next (task_step session args tripLength c t)).
Proof.
  destruct t as [offer | bestOffer | bestOffer | e | item |]; simpl; try done.
  - unfold refine.
    destruct (Session.GetOffers session c _) as [[fullOffers pr] [e|]]; [done |].
    by destruct (float64_eq _ _).
  - unfold baselineStage.
    destruct (Session.GetOffers session c _) as [[fullOffers [pr|]] [e|]];
      try done.
    by destruct (float64_ge _ _).
  - unfold linkStage.
    by destruct (Session.SerializeURL session c _) as [url [e|]].
Qed.

Lemma task_step_cancels (c : Ctx) (t : task) :
  cancels (task_step session args tripLength c t) = true ↔ ∃ e, t = AtCancel e.
Proof.
  split.
  - destruct t; simpl; repeat case_match; simpl; try discriminate. by eexists.
  - by intros [e ->].
Qed.

Lemma task_step_sends_length (c : Ctx) (t : task) :
  (length (sends (task_step session args tripLength c t))
   + (if next (task_step session args tripLength c t) is Finished then 0 else 1)
   ≤ if t is Finished then 0 else 1)%nat.
Proof. destruct t; simpl; repeat case_match; simpl; lia. Qed.

Lemma step_length (st : search) (i : nat) :
  length (tasks (step session ctx args tripLength st i)) = length (tasks st).
Proof.
  unfold step. destruct (tasks st !! i); [| done]. simpl. apply length_insert.
Qed.

Lemma run_length (sched : list nat) (st : search) :
  length (tasks (run session ctx args tripLength sched st)) = length (tasks st).
Proof.
  unfold run. revert st.
  induction sched as [| i sched IH]; intros st; simpl; [done |].
  rewrite IH. apply step_length.
Qed.

Lemma run_app (s1 s2 : list nat) (st : search) :
  run session ctx args tripLength (s1 ++ s2) st
  = run session ctx args tripLength s2 (run session ctx args tripLength s1 st).
Proof. unfold run. apply foldl_app. Qed.

Lemma step_lookup_ne (st : search) (i j : nat) :
  i ≠ j →
  tasks (step session ctx args tripLength st i) !! j = tasks st !! j.
Proof.
  intros Hne. unfold step. destruct (tasks st !! i); [| done]. simpl.
  by apply list_lookup_insert_ne.
Qed.

Lemma step_lookup_eq (st : search) (i : nat) (t : task) :
  tasks st !! i = Some t →
  tasks (step session ctx args tripLength st i) !! i
  = Some (next (task_step session args tripLength (ctxWithCancel ctx st) t)).
Proof.
  intros Hi. unfold step. rewrite Hi. simpl.
  apply list_lookup_insert_eq. by eapply lookup_lt_Some.
Qed.

End Interleaving.

(** ** Every task ends *)

Section Termination.

Variable session : Session.t.
Variable ctx : Ctx.
Variable args : Args.t.
Variable tripLength : Z.

Lemma task_step_rank (c : Ctx) (t : task) :
  (rank (next (task_step session args tripLength c t)) ≤ pred (rank t))%nat.
Proof. destruct t; simpl; repeat case_match; simpl; lia. Qed.

Lemma rank_0 (t : task) : rank t = 0%nat → t = Finished.
Proof. by destruct t. Qed.

Lemma finished_step (st : search) (i j : nat) :
  tasks st !! j = Some Finished →
  tasks (step session ctx args tripLength st i) !! j = Some Finished.
Proof.
  intros Hj. destruct (decide (i = j)) as [-> | Hne].
  - by rewrite (step_lookup_eq _ _ _ _ _ _ _ Hj).
  - by rewrite step_lookup_ne.
Qed.

Lemma finished_run (sched : list nat) (st : search) (j : nat) :
  tasks st !! j = Some Finished →
  tasks (run session ctx args tripLength sched st) !! j = Some Finished.
Proof.
  unfold run. revert st.
  induction sched as [| i sched IH]; intros st Hj; simpl; [done |].
  by apply IH, finished_step.
Qed.

Lemma replicate_run_finishes (n i : nat) (st : search) (t : task) :
  tasks st !! i = Some t → (rank t ≤ n)%nat →
  tasks (run session ctx args tripLength (replicate n i) st) !! i = Some Finished.
Proof.
  revert st t. induction n as [| n IH]; intros st t Hi Hrank; simpl.
  - rewrite Hi. f_equal. apply rank_0. lia.
  - eapply IH; [by apply step_lookup_eq |].
    pose proof (task_step_rank (ctxWithCancel ctx st) t). lia.
Qed.

Lemma rank_le_5 (t : task) : (rank t ≤ 5)%nat.
Proof. destruct t; simpl; lia. Qed.

Lemma completion_run_finishes (n a : nat) (st : search) (j : nat) :
  (a ≤ j < a + n)%nat → (j < length (tasks st))%nat →
  tasks (run session ctx args tripLength
           (flat_map (λ i, [i; i; i; i; i]) (seq a n)) st) !! j
  = Some Finished.
Proof.
  revert a st. induction n as [| n IH]; intros a st Hj Hlen; [lia |].
  cbn [seq flat_map]. rewrite run_app.
  destruct (decide (j = a)) as [-> | Hne].
  - apply finished_run.
    destruct (lookup_lt_is_Some_2 _ _ Hlen) as [t Ht].
    apply (replicate_run_finishes 5 a st t Ht (rank_le_5 t)).
  - apply IH; [lia |]. by rewrite run_length.
Qed.

Lemma finalState_finished (sched : list nat) (priceGraphOffers : list Offer.t)
  (j : nat) (t : task) :
  tasks (finalState session ctx args sched tripLength priceGraphOffers) !! j
  = Some t →
  t = Finished.
Proof.
  unfold finalState. rewrite run_app. intros Hj.
  pose proof (lookup_lt_Some _ _ _ Hj) as Hlt.
  rewrite !run_length in Hlt.
  unfold completion in Hj. rewrite completion_run_finishes in Hj.
  - by injection Hj.
  - unfold spawn in Hlt. simpl in Hlt. rewrite length_fmap in Hlt. lia.
  - by rewrite run_length.
Qed.

End Termination.

(** ** What a search sends, whatever the schedule *)

Section Outcome.

Variable session : Session.t.
Variable ctx : Ctx.
Variable args : Args.t.
Variable tripLength : Z.

Lemma pendings_lookup (c : Ctx) (st : search) (i : nat) (t : task) (x : resultOrError.t) :
  tasks st !! i = Some t → x ∈ pending session args tripLength c t →
  x ∈ pendings session args tripLength c st.
Proof.
  intros Hi Hx. unfold pendings. apply elem_of_concat.
  exists (pending session args tripLength c t). split; [done |].
  apply list_elem_of_fmap. exists t. split; [done |].
  by eapply list_elem_of_lookup_2.
Qed.

Lemma step_quiet (st : search) (i : nat) :
  quiet session ctx args tripLength st →
  quiet session ctx args tripLength (step session ctx args tripLength st i)
  ∧ resultsCh (step session ctx args tripLength st i)
      ++ pendings session args tripLength ctx (step session ctx args tripLength st i)
    ≡ₚ resultsCh st ++ pendings session args tripLength ctx st.
Proof.
  intros [Hc Hq]. unfold step. destruct (tasks st !! i) as [t|] eqn:Hi;
    [| by split].
  assert (ctxWithCancel ctx st = ctx) as ->
    by (unfold ctxWithCancel; rewrite Hc; apply orb_false_r).
  set (a := task_step session args tripLength ctx t).
  assert (cancels a = false) as Hnc.
  { destruct (cancels a) eqn:Hca; [| done].
    apply task_step_cancels in Hca as [e ->].
    rewrite Forall_forall in Hq. specialize (Hq (sendErr e)).
    unfold isResult in Hq. simpl in Hq. discriminate Hq.
    eapply pendings_lookup; [done |]. simpl. by left. }
  assert (pendings session args tripLength ctx {| tasks := <[i:=next a]> (tasks st);
                          cancelled := cancelled st || cancels a;
                          resultsCh := resultsCh st ++ sends a;
                          calls := calls st ++ called a |} ++ sends a
          ≡ₚ pendings session args tripLength ctx st) as Hperm.
  { unfold pendings. simpl.
    pose proof (concat_fmap_insert (pending session args tripLength ctx)
                  (tasks st) i t (next a) Hi) as Hins.
    rewrite (task_step_pending session args tripLength ctx t) in Hins.
    fold a in Hins. rewrite app_assoc in Hins.
    by apply Permutation_app_inv_r in Hins. }
  split; [split |]; simpl.
  - by rewrite Hc, Hnc.
  - rewrite Forall_forall in Hq |- *. intros x Hx. apply Hq.
    rewrite <- Hperm. apply elem_of_app. by left.
  - rewrite <- Hperm. rewrite <- !app_assoc. apply Permutation_app_head.
    apply Permutation_app_comm.
Qed.

Lemma run_quiet (sched : list nat) (st : search) :
  quiet session ctx args tripLength st →
  quiet session ctx args tripLength (run session ctx args tripLength sched st)
  ∧ resultsCh (run session ctx args tripLength sched st)
      ++ pendings session args tripLength ctx (run session ctx args tripLength sched st)
    ≡ₚ resultsCh st ++ pendings session args tripLength ctx st.
Proof.
  unfold run. revert st.
  induction sched as [| i sched IH]; intros st Hq; simpl; [done |].
  destruct (step_quiet st i Hq) as [Hq' Hperm].
  destruct (IH _ Hq') as [Hq'' Hperm']. split; [done |].
  by rewrite Hperm'.
Qed.

Lemma pendings_finished (c : Ctx) (st : search) :
  (∀ j t, tasks st !! j = Some t → t = Finished) → pendings session args tripLength c st = [].
Proof.
  unfold pendings. induction (tasks st) as [| t l IH]; intros Hfin; [done |].
  simpl. rewrite (Hfin 0%nat t eq_refl). simpl. apply IH.
  intros j t' Hj. by apply (Hfin (S j)).
Qed.

Lemma pendings_spawn (priceGraphOffers : list Offer.t) :
  pendings session args tripLength ctx (spawn priceGraphOffers)
  = concat (refine session args tripLength ctx <$> priceGraphOffers).
Proof. unfold pendings, spawn. simpl. by rewrite <- list_fmap_compose. Qed.

(** When no sample leads to an error, the channel ends up holding exactly
    what the tasks send sequentially, in some order, and [cancel()] is not
    called before the search returns. *)
Lemma finalState_quiet (sched : list nat) (priceGraphOffers : list Offer.t) :
  Forall isResult (concat (refine session args tripLength ctx <$> priceGraphOffers)) →
  resultsCh (finalState session ctx args sched tripLength priceGraphOffers)
  ≡ₚ concat (refine session args tripLength ctx <$> priceGraphOffers)
  ∧ cancelled (finalState session ctx args sched tripLength priceGraphOffers) = false.
Proof.
  intros Hall. rewrite <- pendings_spawn in Hall |- *.
  assert (quiet session ctx args tripLength (spawn priceGraphOffers)) as Hq by done.
  destruct (run_quiet (sched ++ completion (length priceGraphOffers)) _ Hq)
    as [[Hc _] Hperm].
  split; [| done]. fold (finalState session ctx args sched tripLength priceGraphOffers) in Hperm.
  rewrite (pendings_finished ctx (finalState _ _ _ _ _ _)) in Hperm
    by apply finalState_finished.
  by rewrite app_nil_r in Hperm.
Qed.

Lemma step_doomed (st : search) (i : nat) :
  doomed session ctx args tripLength st → doomed session ctx args tripLength (step session ctx args tripLength st i).
Proof.
  intros Hd. unfold step. destruct (tasks st !! i) as [t|] eqn:Hi; [| done].
  set (a := task_step session args tripLength (ctxWithCancel ctx st) t).
  destruct Hd as [Hch | (j & tj & Hj & Hex)].
  { left. simpl. apply Exists_app. by left. }
  destruct (cancels a) eqn:Hca.
  - apply task_step_cancels in Hca as [e ->].
    right. exists i, (AtSend (sendErr e)). simpl. split.
    + apply list_lookup_insert_eq. by eapply lookup_lt_Some.
    + apply Exists_cons_hd. unfold isErr. done.
  - assert (ctxWithCancel ctx
              {| tasks := <[i:=next a]> (tasks st);
                 cancelled := cancelled st || false;
                 resultsCh := resultsCh st ++ sends a;
                 calls := calls st ++ called a |} = ctxWithCancel ctx st) as Hctx.
    { unfold ctxWithCancel. simpl. by rewrite orb_false_r. }
    destruct (decide (i = j)) as [-> | Hne].
    + rewrite Hi in Hj. injection Hj as <-.
      rewrite task_step_pending in Hex. fold a in Hex.
      apply Exists_app in Hex as [Hs | Hn].
      * left. simpl. apply Exists_app. by right.
      * right. exists j, (next a). rewrite Hctx. split; [| done].
        simpl. apply list_lookup_insert_eq. by eapply lookup_lt_Some.
    + right. exists j, tj. rewrite Hctx. split; [| done].
      simpl. by rewrite list_lookup_insert_ne.
Qed.

Lemma run_doomed (sched : list nat) (st : search) :
  doomed session ctx args tripLength st → doomed session ctx args tripLength (run session ctx args tripLength sched st).
Proof.
  unfold run. revert st.
  induction sched as [| i sched IH]; intros st Hd; simpl; [done |].
  by apply IH, step_doomed.
Qed.

(** When some sample leads to an error, an error reaches the channel. *)
Lemma finalState_doomed (sched : list nat) (priceGraphOffers : list Offer.t) :
  Exists isErr (concat (refine session args tripLength ctx <$> priceGraphOffers)) →
  Exists isErr (resultsCh (finalState session ctx args sched tripLength priceGraphOffers)).
Proof.
  intros Hex.
  assert (doomed session ctx args tripLength (spawn priceGraphOffers)) as Hd.
  { right. apply Exists_exists in Hex as (x & Hx & Herr).
    apply elem_of_concat in Hx as (xs & Hx & Hxs).
    apply list_elem_of_fmap in Hxs as (offer & -> & Hoffer).
    apply list_elem_of_lookup in Hoffer as [j Hj].
    exists j, (AtGetOffers offer). split.
    - unfold spawn. simpl. by rewrite list_lookup_fmap, Hj.
    - apply Exists_exists. exists x. split; [| done].
      unfold ctxWithCancel. simpl. by rewrite orb_false_r. }
  apply (run_doomed (sched ++ completion (length priceGraphOffers))) in Hd.
  fold (finalState session ctx args sched tripLength priceGraphOffers) in Hd.
  destruct Hd as [Hch | (j & t & Hj & Hex')]; [done |].
  apply finalState_finished in Hj as ->. by apply Exists_nil in Hex'.
Qed.

End Outcome.

(** ** One per-trip-length search *)

Section Search.

Variable session : Session.t.
Variable ctx : Ctx.
Variable args : Args.t.

Lemma searchOk_or_searchFails (tripLength : Z) :
  {searchOk session ctx args tripLength} + {searchFails session ctx args tripLength}.
Proof.
  unfold searchOk, searchFails.
  destruct ((Session.GetPriceGraph session ctx (priceGraphArgs args tripLength)).2)
    as [e|]; [right; by left |].
  destruct (Forall_Exists_dec isResult isErr isResult_dec
              (sampleItems session ctx args tripLength)) as [Hall | Hex].
  - by left.
  - right. by right.
Qed.

Lemma isResult_not_isErr (items : list resultOrError.t) :
  Forall isResult items → Exists isErr items → False.
Proof.
  intros Hall (x & Hx & Herr)%Exists_exists.
  rewrite Forall_forall in Hall. by apply Herr, Hall.
Qed.


Lemma findForTripLength_ok (sched : list nat) (tripLength : Z) :
  searchOk session ctx args tripLength →
  ∃ rs cs, findForTripLength session ctx args sched tripLength = (rs, None, cs)
           ∧ rs ≡ₚ qualifying session ctx args tripLength.
Proof.
  unfold searchOk, qualifying, sampleItems, findForTripLength.
  destruct (Session.GetPriceGraph session ctx _) as [priceGraphOffers err].
  simpl. intros [-> Hall].
  destruct (finalState_quiet session ctx args tripLength sched priceGraphOffers Hall)
    as [Hperm _].
  assert (Forall isResult
            (resultsCh (finalState session ctx args sched tripLength priceGraphOffers)))
    as Hres by (by rewrite Hperm).
  rewrite (collect_results _ Hres). eexists _, _. split; [done |].
  by rewrite Hperm.
Qed.

Lemma findForTripLength_fails (sched : list nat) (tripLength : Z) :
  searchFails session ctx args tripLength →
  ∃ e cs, findForTripLength session ctx args sched tripLength = ([], Some e, cs).
Proof.
  unfold searchFails, sampleItems, findForTripLength.
  destruct (Session.GetPriceGraph session ctx _) as [priceGraphOffers [e|]];
    simpl; [by eexists _, _ |].
  intros [? | Hex]; [done |].
  apply (finalState_doomed session ctx args tripLength sched) in Hex.
  destruct (first_error_split
              (resultsCh (finalState session ctx args sched tripLength priceGraphOffers)))
    as [Hall | (pre & item & post & e & -> & Hpre & Hitem)].
  - destruct (isResult_not_isErr _ Hall Hex).
  - rewrite (collect_first_error pre post item e Hpre Hitem). by eexists _, _.
Qed.

Lemma findForTripLength_success (sched : list nat) (tripLength : Z)
  (rs : list Result.t) (cs : list Call) :
  findForTripLength session ctx args sched tripLength = (rs, None, cs) →
  searchOk session ctx args tripLength
  ∧ rs ≡ₚ qualifying session ctx args tripLength.
Proof.
  intros Hfind.
  destruct (searchOk_or_searchFails tripLength) as [Hok | Hfail].
  - split; [done |].
    destruct (findForTripLength_ok sched tripLength Hok) as (rs' & cs' & Heq & Hperm).
    rewrite Heq in Hfind. by injection Hfind as <- <-.
  - destruct (findForTripLength_fails sched tripLength Hfail) as (e & cs' & Heq).
    rewrite Heq in Hfind. discriminate.
Qed.


End Search.

(** ** The batch *)

Section Batch.

Variable session : Session.t.
Variable ctx : Ctx.
Variable args : Args.t.

Lemma searchTripLengths_ok (sched : nat → list nat) (tripLengths : list Z)
  (k : nat) (acc : list Result.t) (log : list (Z * list Call)) :
  Forall (searchOk session ctx args) tripLengths →
  ∃ rs log',
    searchTripLengths session ctx args sched k tripLengths acc log = (rs, None, log')
    ∧ rs ≡ₚ acc ++ concat (qualifying session ctx args <$> tripLengths)
    ∧ log'.*1 = log.*1 ++ tripLengths.
Proof.
  revert k acc log.
  induction tripLengths as [| tl rest IH]; intros k acc log Hall; simpl.
  - eexists _, _. split; [done |]. by rewrite !app_nil_r.
  - apply Forall_cons in Hall as [Hok Hrest].
    destruct (findForTripLength_ok session ctx args (sched k) tl Hok)
      as (partial & cs & -> & Hperm).
    destruct (IH (S k) (acc ++ partial) (log ++ [(tl, cs)]) Hrest)
      as (rs & log' & -> & Hrs & Hlog).
    eexists _, _. split; [done |]. split.
    + by rewrite Hrs, Hperm, <- app_assoc.
    + by rewrite Hlog, fmap_app, <- app_assoc.
Qed.

Lemma searchTripLengths_success (sched : nat → list nat) (tripLengths : list Z)
  (k : nat) (acc rs : list Result.t) (log log' : list (Z * list Call)) :
  searchTripLengths session ctx args sched k tripLengths acc log = (rs, None, log') →
  Forall (searchOk session ctx args) tripLengths
  ∧ rs ≡ₚ acc ++ concat (qualifying session ctx args <$> tripLengths).
Proof.
  revert k acc log.
  induction tripLengths as [| tl rest IH]; intros k acc log; simpl.
  - intros [= <- <-]. split; [constructor | by rewrite app_nil_r].
  - destruct (findForTripLength _ _ _ _ _) as [[partial [e|]] cs] eqn:Hfind;
      [discriminate |].
    intros Hrest. apply IH in Hrest as [Hall Hrs].
    apply findForTripLength_success in Hfind as [Hok Hperm].
    split; [by constructor |].
    by rewrite Hrs, Hperm, <- app_assoc.
Qed.

(** The searches before the first failing one run, the failing one runs,
    and nothing after it does. *)
Lemma searchTripLengths_first_failure (sched : nat → list nat)
  (pre post : list Z) (T : Z) (e : error)
  (k : nat) (acc : list Result.t) (log : list (Z * list Call)) :
  (∀ j tl, pre !! j = Some tl →
     (findForTripLength session ctx args (sched (k + j)%nat) tl).1.2 = None) →
  (findForTripLength session ctx args (sched (k + length pre)%nat) T).1.2 = Some e →
  ∃ log',
    searchTripLengths session ctx args sched k (pre ++ T :: post) acc log
    = ([], Some e, log')
    ∧ log'.*1 = log.*1 ++ pre ++ [T].
Proof.
  revert k acc log.
  induction pre as [| tl pre IH]; intros k acc log Hpre HT; simpl in *.
  - rewrite Nat.add_0_r in HT.
    destruct (findForTripLength _ _ _ _ _) as [[partial err] cs]. simpl in HT.
    subst err. eexists. split; [done |]. by rewrite fmap_app.
  - pose proof (Hpre 0%nat tl eq_refl) as Htl. rewrite Nat.add_0_r in Htl.
    destruct (findForTripLength _ _ _ (sched k) tl) as [[partial err] cs].
    simpl in Htl. subst err.
    destruct (IH (S k) (acc ++ partial) (log ++ [(tl, cs)])) as (log' & -> & Hlog).
    + intros j tl' Hj. replace (S k + j)%nat with (k + S j)%nat by lia.
      by apply Hpre.
    + by replace (S k + length pre)%nat with (k + S (length pre))%nat by lia.
    + eexists. split; [done |]. by rewrite Hlog, fmap_app, <- app_assoc.
Qed.

End Batch.

(** ** Ranking and sorting *)

Lemma less_false_rankLe (a b : Result.t) :
  isNumber (Result.Price a) → isNumber (Result.Price b) →
  less b a = false ↔ rankLe a b.
Proof.
  unfold less, rankLe, rankKey, keyLe, Time_Equal, Time_Before, isNumber.
  destruct (Result.Price a) as [| p], (Result.Price b) as [| q]; try done.
  intros _ _. simpl.
  repeat (case_match; rewrite ?Z.eqb_eq, ?Z.eqb_neq, ?Z.ltb_lt, ?Z.ltb_ge in *);
    lia.
Qed.

Lemma less_true_rankLe (a b : Result.t) : less a b = true → rankLe a b.
Proof.
  unfold less, rankLe, rankKey, keyLe, Time_Equal, Time_Before.
  destruct (Result.Price a) as [| p], (Result.Price b) as [| q]; try done.
  simpl.
  repeat (case_match; rewrite ?Z.eqb_eq, ?Z.eqb_neq, ?Z.ltb_lt, ?Z.ltb_ge in *);
    lia.
Qed.

(** A Result whose price is NaN is unordered with every Result. *)
Lemma less_NaN (a b : Result.t) :
  Result.Price a = NaN → less a b = false ∧ less b a = false.
Proof.
  unfold less. intros ->. by destruct (Result.Price b).
Qed.

Lemma keyLe_trans (k1 k2 k3 : float64 * Z * Z * Z) :
  keyLe k1 k2 → keyLe k2 k3 → keyLe k1 k3.
Proof.
  destruct k1 as [[[[| p1] s1] r1] l1], k2 as [[[[| p2] s2] r2] l2],
    k3 as [[[[| p3] s3] r3] l3]; unfold keyLe; simpl; try (intros [|[]]; done);
    try (intros _ [|[]]; done).
  rewrite !Z.ltb_lt, !Z.eqb_eq. lia.
Qed.

Lemma keyLe_antisym (k1 k2 : float64 * Z * Z * Z) :
  keyLe k1 k2 → keyLe k2 k1 → k1 = k2.
Proof.
  destruct k1 as [[[[| p1] s1] r1] l1], k2 as [[[[| p2] s2] r2] l2];
    unfold keyLe; simpl; try (intros [|[]]; done).
  rewrite !Z.ltb_lt, !Z.eqb_eq. intros H1 H2. repeat f_equal; lia.
Qed.

Lemma keyLe_total (k1 k2 : float64 * Z * Z * Z) :
  isNumber k1.1.1.1 → isNumber k2.1.1.1 → keyLe k1 k2 ∨ keyLe k2 k1.
Proof.
  destruct k1 as [[[[| p1] s1] r1] l1], k2 as [[[[| p2] s2] r2] l2];
    unfold keyLe, isNumber; simpl; try done.
  rewrite !Z.ltb_lt, !Z.eqb_eq. lia.
Qed.

(** On Results whose prices are numbers the comparator is a transitive
    ordering. *)
Lemma less_StrictWeakOrderOn (l : list Result.t) :
  numberPriced l → StrictWeakOrderOn less l.
Proof.
  intros Hnum. split.
  - intros a Ha. apply less_false_rankLe; [by apply Hnum | by apply Hnum |].
    unfold rankLe.
    destruct (keyLe_total (rankKey a) (rankKey a)); try done; by apply Hnum.
  - intros a b c Ha Hb Hc Hab Hbc.
    destruct (less a c) eqn:Hac; [done |]. exfalso.
    apply less_false_rankLe in Hac; [| by apply Hnum | by apply Hnum].
    assert (less b a = false) as Hba.
    { apply less_false_rankLe; [by apply Hnum | by apply Hnum |].
      by apply less_true_rankLe. }
    apply less_true_rankLe in Hbc.
    assert (rankLe b a) as Hba' by (eapply keyLe_trans; done).
    apply less_false_rankLe in Hba'; [| by apply Hnum | by apply Hnum].
    congruence.
  - intros a b c Ha Hb Hc Hab Hbc.
    apply less_false_rankLe; [by apply Hnum | by apply Hnum |].
    apply less_false_rankLe in Hab; [| by apply Hnum | by apply Hnum].
    apply less_false_rankLe in Hbc; [| by apply Hnum | by apply Hnum].
    eapply keyLe_trans; done.
Qed.

Lemma insertLeft_perm (lt : Result.t → Result.t → bool) (x : Result.t)
  (l : list Result.t) :
  insertLeft lt x l ≡ₚ x :: l.
Proof.
  induction l as [| y l IH]; simpl; [done |].
  destruct (lt x y); [| done]. rewrite IH. apply Permutation_swap.
Qed.

Lemma insertLeft_descending (lt : Result.t → Result.t → bool)
  (data : list Result.t) (x : Result.t) (l : list Result.t) :
  StrictWeakOrderOn lt data →
  x ∈ data → (∀ a, a ∈ l → a ∈ data) →
  StronglySorted (λ a b, lt a b = false) l →
  StronglySorted (λ a b, lt a b = false) (insertLeft lt x l).
Proof.
  intros Hlt Hx. induction l as [| y l IH]; intros Hin Hl; simpl.
  - repeat constructor.
  - apply StronglySorted_inv in Hl as [Hl Hy].
    assert (y ∈ data) as Hyd by (apply Hin; by left).
    assert (∀ a, a ∈ l → a ∈ data) as Hld by (intros a Ha; apply Hin; by right).
    destruct (lt x y) eqn:Hxy.
    + constructor; [by apply IH |].
      rewrite insertLeft_perm. constructor; [| done].
      destruct (lt y x) eqn:Hyx; [| done].
      pose proof (lt_trans lt data Hlt x y x Hx Hyd Hx Hxy Hyx) as Hxx.
      by rewrite (lt_irrefl lt data Hlt) in Hxx.
    + constructor; [by constructor |]. constructor; [done |].
      rewrite Forall_forall in Hy |- *. intros z Hz.
      apply (lt_incomp_trans lt data Hlt x y z); [done | done | | done |].
      * by apply Hld.
      * by apply Hy.
Qed.

Lemma StronglySorted_rev {A : Type} (R : A → A → Prop) (l : list A) :
  StronglySorted R l → StronglySorted (λ a b, R b a) (rev l).
Proof.
  induction 1 as [| x l Hl IH Hx]; simpl; [constructor |].
  apply StronglySorted_app. split; [| split]; [| done | repeat constructor].
  intros a b Ha ->%list_elem_of_singleton.
  rewrite Forall_forall in Hx. apply Hx.
  apply list_elem_of_In, in_rev. by apply list_elem_of_In.
Qed.

(** Go's insertion sort meets the contract of [sort.Slice]. *)
Lemma insertionSort_func_spec : SortSliceSpec insertionSort_func.
Proof.
  assert (∀ lt l acc, foldl (λ revPrefix x, insertLeft lt x revPrefix) acc l
                      ≡ₚ l ++ acc) as Hperm.
  { intros lt l. induction l as [| x l IH]; intros acc; simpl; [done |].
    rewrite IH, insertLeft_perm. by rewrite Permutation_middle. }
  split.
  - intros lt l. unfold insertionSort_func. rewrite <- Permutation_rev.
    rewrite Hperm. by rewrite app_nil_r.
  - intros lt data Hlt. unfold insertionSort_func.
    apply (StronglySorted_rev (λ a b, lt a b = false)).
    assert (∀ l acc,
              (∀ a, a ∈ l ++ acc → a ∈ data) →
              StronglySorted (λ a b, lt a b = false) acc →
              StronglySorted (λ a b, lt a b = false)
                (foldl (λ revPrefix x, insertLeft lt x revPrefix) acc l))
      as Hgen.
    { induction l as [| x l IH]; intros acc Hin Hacc; simpl; [done |].
      apply IH.
      - intros a Ha. apply Hin. rewrite insertLeft_perm in Ha.
        by rewrite <- Permutation_middle in Ha.
      - apply (insertLeft_descending lt data); try done.
        + apply Hin. by left.
        + intros a Ha. apply Hin. right. apply elem_of_app. by right. }
    apply Hgen; [| constructor]. intros a Ha. by rewrite app_nil_r in Ha.
Qed.

Lemma StronglySorted_impl_elem {A : Type} (R R' : A → A → Prop) (l : list A) :
  (∀ a b, a ∈ l → b ∈ l → R a b → R' a b) →
  StronglySorted R l → StronglySorted R' l.
Proof.
  intros Himpl Hl. induction Hl as [| x l Hl IH Hx]; [constructor |].
  constructor.
  - apply IH. intros a b Ha Hb. apply Himpl; by right.
  - rewrite Forall_forall in Hx |- *. intros y Hy.
    apply Himpl; [by left | by right | by apply Hx].
Qed.

(** ** Successful calls *)

Section Success.

Variable session : Session.t.
Variable sort_Slice :
  (Result.t → Result.t → bool) → list Result.t → list Result.t.
Variable ctx : Ctx.
Variable args : Args.t.

Hypothesis sort_Slice_spec : SortSliceSpec sort_Slice.

Lemma refine_refinedFrom (tripLength : Z) (c : Ctx) (offer : Offer.t)
  (item : resultOrError.t) :
  item ∈ refine session args tripLength c offer → isResult item →
  refinedFrom session args tripLength c offer (resultOrError.result item).
Proof.
  unfold refine, baselineStage, linkStage, refinedFrom.
  destruct (Session.GetOffers session c (offersArgs args offer))
    as [[fullOffers pr0] [e|]] eqn:Hoffers.
  { intros ->%list_elem_of_singleton. discriminate. }
  destruct (float64_eq (FullOffer.Price (pickBestOffer fullOffers)) 0) eqn:Hzero.
  { intros []%elem_of_nil. }
  destruct (Session.GetOffers session c (routeArgs args (pickBestOffer fullOffers)))
    as [[routeOffers [priceRange|]] [e|]] eqn:Hroute;
    try (intros ->%list_elem_of_singleton; discriminate);
    try (intros []%elem_of_nil).
  destruct (float64_ge _ _) eqn:Hge; [intros []%elem_of_nil |].
  destruct (Session.SerializeURL session c (routeArgs args (pickBestOffer fullOffers)))
    as [url [e|]] eqn:Hurl.
  { intros ->%list_elem_of_singleton. discriminate. }
  intros ->%list_elem_of_singleton _. simpl.
  exists fullOffers, pr0, routeOffers, priceRange, url.
  repeat split; try done; lia.
Qed.

Lemma qualifying_refinedFrom (tripLength : Z) (r : Result.t) :
  searchOk session ctx args tripLength →
  r ∈ qualifying session ctx args tripLength →
  ∃ offer,
    offer ∈ (Session.GetPriceGraph session ctx (priceGraphArgs args tripLength)).1
    ∧ refinedFrom session args tripLength ctx offer r.
Proof.
  unfold searchOk, qualifying, sampleItems. intros [_ Hall] Hr.
  apply list_elem_of_fmap in Hr as (item & -> & Hitem).
  rewrite Forall_forall in Hall. specialize (Hall item Hitem).
  apply elem_of_concat in Hitem as (items & Hitem & Hitems).
  apply list_elem_of_fmap in Hitems as (offer & -> & Hoffer).
  exists offer. split; [done |]. by apply refine_refinedFrom.
Qed.

(** A successful call: the request is valid, no search fails, and the
    output is [sort.Slice] of the qualifying Results in some order. *)
Lemma Find_success (sched : nat → list nat) (rs : list Result.t)
  (log : list (Z * list Call)) :
  Find session sort_Slice ctx args sched = (rs, None, log) →
  validateArgs args = None
  ∧ Forall (searchOk session ctx args) (Args.TripLengths args)
  ∧ ∃ allResults,
      rs = sort_Slice less allResults
      ∧ allResults ≡ₚ concat (qualifying session ctx args <$> Args.TripLengths args).
Proof.
  unfold Find. destruct (validateArgs args); [discriminate |].
  destruct (searchTripLengths _ _ _ _ _ _ _ _) as [[allResults [e|]] log'] eqn:Hs;
    [discriminate |].
  intros [= <- <-]. apply searchTripLengths_success in Hs as [Hall Hperm].
  split; [done |]. split; [done |]. by exists allResults.
Qed.

Lemma Find_ok (sched : nat → list nat) :
  validateArgs args = None →
  Forall (searchOk session ctx args) (Args.TripLengths args) →
  ∃ allResults log,
    Find session sort_Slice ctx args sched = (sort_Slice less allResults, None, log)
    ∧ allResults ≡ₚ concat (qualifying session ctx args <$> Args.TripLengths args).
Proof.
  intros Hv Hall. unfold Find. rewrite Hv.
  destruct (searchTripLengths_ok session ctx args sched _ 0 [] [] Hall)
    as (allResults & log & -> & Hperm & _).
  by exists allResults, log.
Qed.

Lemma Find_elem (sched : nat → list nat) (rs : list Result.t)
  (log : list (Z * list Call)) (r : Result.t) :
  Find session sort_Slice ctx args sched = (rs, None, log) → r ∈ rs →
  ∃ tripLength offer,
    tripLength ∈ Args.TripLengths args
    ∧ offer ∈ (Session.GetPriceGraph session ctx (priceGraphArgs args tripLength)).1
    ∧ refinedFrom session args tripLength ctx offer r.
Proof.
  intros (_ & Hall & allResults & -> & Hperm)%Find_success Hr.
  rewrite (sort_Slice_perm _ sort_Slice_spec), Hperm in Hr.
  apply elem_of_concat in Hr as (rs & Hr & Hrs).
  apply list_elem_of_fmap in Hrs as (tripLength & -> & Htl).
  rewrite Forall_forall in Hall.
  destruct (qualifying_refinedFrom tripLength r (Hall _ Htl) Hr) as (offer & ? & ?).
  by exists tripLength, offer.
Qed.

End Success.

(** C1, as the code has it: for every Result that a successful [Find]
    returns, the test of line 149 failed on the baseline that the client
    gives for that Result's own airports and dates: the price is not
    greater than or equal to the low bound; and whenever neither the price
    nor the low bound is NaN, the price is strictly under the low bound. *)
Theorem C1_results_beat_baseline
  (session : Session.t)
  (sort_Slice : (Result.t → Result.t → bool) → list Result.t → list Result.t)
  (ctx : Ctx) (args : Args.t) (sched : nat → list nat)
  (rs : list Result.t) (log : list (Z * list Call)) (r : Result.t) :
  SortSliceSpec sort_Slice →
  Find session sort_Slice ctx args sched = (rs, None, log) →
  r ∈ rs →
  ∃ routeOffers priceRange,
    Session.GetOffers session ctx (resultRoute args r)
    = (routeOffers, Some priceRange, None)
    ∧ float64_ge (Result.Price r) (PriceRange.Low priceRange) = false
    ∧ (isNumber (Result.Price r) → isNumber (PriceRange.Low priceRange) →
       float64_lt (Result.Price r) (PriceRange.Low priceRange) = true).
Proof.
  intros Hsort Hfind Hr.
  destruct (Find_elem session sort_Slice ctx args Hsort sched rs log r Hfind Hr)
    as (tripLength & offer & _ & _ & Href).
  destruct Href as (fullOffers & pr0 & routeOffers & priceRange & url
                    & _ & _ & Hroute & Hge & _ & ->).
  exists routeOffers, priceRange. split; [exact Hroute |]. simpl.
  split; [exact Hge |]. intros Hp Hlow. by apply float64_ge_false_lt.
Qed.

Lemma C1_results_beat_baseline_witness :
  ∃ routeOffers priceRange,
    Session.GetOffers (stubSession (bargain 600)) false
      (resultRoute (request [7])
         (makeResult (itinerary (day 19875) (day 19882) "SFO" 500) 7
            "https://www.google.com/travel/flights"))
    = (routeOffers, Some priceRange, None)
    ∧ float64_ge 500 (PriceRange.Low priceRange) = false
    ∧ (isNumber 500 → isNumber (PriceRange.Low priceRange) →
       float64_lt 500 (PriceRange.Low priceRange) = true).
Proof.
  apply (C1_results_beat_baseline (stubSession (bargain 600)) insertionSort_func
           false (request [7]) inOrder
           (Find (stubSession (bargain 600)) insertionSort_func false
              (request [7]) inOrder).1.1
           (Find (stubSession (bargain 600)) insertionSort_func false
              (request [7]) inOrder).2).
  - apply insertionSort_func_spec.
  - vm_compute. reflexivity.
  - vm_compute. left.
Defined.

(** C1 as stated fails where a price is NaN.  A sample whose detailed
    offers are priced NaN and 500, under a low bound of 600: [Find] returns
    the Result priced NaN, which is not strictly under 600.  A sample whose
    detailed offer is priced 500, under a low bound that is NaN: [Find]
    returns the Result priced 500, which is not strictly under NaN. *)
Lemma C1_nan_is_not_under_the_low_bound :
  (Find (stubSession (quoted [NaN; Num 500] 600)) insertionSort_func false
     (request [7]) inOrder).1
  = ([makeResult (itinerary (day 19875) (day 19882) "SFO" NaN) 7
        "https://www.google.com/travel/flights"], None)
  ∧ Session.GetOffers (stubSession (quoted [NaN; Num 500] 600)) false
      (resultRoute (request [7])
         (makeResult (itinerary (day 19875) (day 19882) "SFO" NaN) 7
            "https://www.google.com/travel/flights"))
    = ([], Some {| PriceRange.Low := 600; PriceRange.High := 900 |}, None)
  ∧ float64_lt NaN 600 = false
  ∧ (Find (stubSession (quoted [Num 500] NaN)) insertionSort_func false
       (request [7]) inOrder).1
    = ([makeResult (itinerary (day 19875) (day 19882) "SFO" 500) 7
          "https://www.google.com/travel/flights"], None)
  ∧ Session.GetOffers (stubSession (quoted [Num 500] NaN)) false
      (resultRoute (request [7])
         (makeResult (itinerary (day 19875) (day 19882) "SFO" 500) 7
            "https://www.google.com/travel/flights"))
    = ([], Some {| PriceRange.Low := NaN; PriceRange.High := 900 |}, None)
  ∧ float64_lt 500 NaN = false.
Proof. repeat split; vm_compute; reflexivity. Qed.

Lemma StronglySorted_adjacent {A : Type} (R : A → A → Prop) (l : list A)
  (i : nat) (a b : A) :
  StronglySorted R l → l !! i = Some a → l !! S i = Some b → R a b.
Proof.
  intros Hl. revert i. induction Hl as [| x l Hl IH Hx]; intros i Ha Hb.
  - by rewrite lookup_nil in Ha.
  - destruct i as [| i]; simpl in *.
    + injection Ha as ->. rewrite Forall_forall in Hx. apply Hx.
      by eapply list_elem_of_lookup_2.
    + by eapply IH.
Qed.

Lemma Find_sorted
  (session : Session.t)
  (sort_Slice : (Result.t → Result.t → bool) → list Result.t → list Result.t)
  (ctx : Ctx) (args : Args.t) (sched : nat → list nat)
  (rs : list Result.t) (log : list (Z * list Call)) :
  SortSliceSpec sort_Slice →
  Find session sort_Slice ctx args sched = (rs, None, log) →
  numberPriced rs →
  StronglySorted rankLe rs.
Proof.
  intros Hsort (_ & _ & allResults & -> & _)%Find_success Hnum.
  assert (numberPriced allResults) as Hall.
  { intros r Hr. apply Hnum. by rewrite (sort_Slice_perm _ Hsort). }
  pose proof (sort_Slice_sorted _ Hsort less allResults
                (less_StrictWeakOrderOn allResults Hall)) as Hs.
  eapply StronglySorted_impl_elem; [| exact Hs].
  intros a b Ha Hb Hab. simpl in Hab.
  apply less_false_rankLe; [by apply Hnum | by apply Hnum | done].
Qed.

(** C2, as the code has it: when no Result has a NaN price, the sequence
    that a successful [Find] returns is sorted by price, then departure
    date, then return date, then trip length, all ascending: every element
    ranks no later than every element after it, and in particular no
    adjacent pair is out of order. *)
Theorem C2_output_sorted
  (session : Session.t)
  (sort_Slice : (Result.t → Result.t → bool) → list Result.t → list Result.t)
  (ctx : Ctx) (args : Args.t) (sched : nat → list nat)
  (rs : list Result.t) (log : list (Z * list Call)) :
  SortSliceSpec sort_Slice →
  Find session sort_Slice ctx args sched = (rs, None, log) →
  numberPriced rs →
  StronglySorted rankLe rs
  ∧ ∀ i a b, rs !! i = Some a → rs !! S i = Some b → rankLe a b.
Proof.
  intros Hsort Hfind Hnum.
  pose proof (Find_sorted session sort_Slice ctx args sched rs log Hsort Hfind Hnum)
    as Hsorted.
  split; [done |]. intros i a b. by apply StronglySorted_adjacent.
Qed.

Lemma C2_output_sorted_witness :
  StronglySorted rankLe
    (Find (stubSession (bargain 600)) insertionSort_func false
       (request [7; 10]) inOrder).1.1
  ∧ ∀ i a b,
      (Find (stubSession (bargain 600)) insertionSort_func false
         (request [7; 10]) inOrder).1.1 !! i = Some a →
      (Find (stubSession (bargain 600)) insertionSort_func false
         (request [7; 10]) inOrder).1.1 !! S i = Some b →
      rankLe a b.
Proof.
  apply (C2_output_sorted (stubSession (bargain 600)) insertionSort_func
           false (request [7; 10]) inOrder _
           (Find (stubSession (bargain 600)) insertionSort_func false
              (request [7; 10]) inOrder).2).
  - apply insertionSort_func_spec.
  - vm_compute. reflexivity.
  - intros r Hr. vm_compute in Hr.
    apply elem_of_cons in Hr as [-> | Hr]; [done |].
    apply elem_of_cons in Hr as [-> | Hr]; [done |].
    by apply elem_of_nil in Hr.
Defined.

(** C2 as stated fails where a Result has a NaN price.  With [mixed] the
    Results arrive priced 520, NaN and 510; the comparator finds the NaN
    one unordered with both its neighbours, Go's insertion sort, which
    compares neighbours, moves nothing, and [Find] returns the Result at
    520 before the one at 510.  The sequence is not sorted by price: its
    third element is less than its first, and its first two elements are
    not in ascending order of price either. *)
Lemma C2_nan_price_breaks_the_order :
  (Find (stubSession mixed) insertionSort_func false (request [7]) inOrder).1
  = (mixedResults, None)
  ∧ Result.Price <$> mixedResults = [Num 520; NaN; Num 510]
  ∧ ¬ StronglySorted rankLe mixedResults
  ∧ (∃ a b, mixedResults !! 0%nat = Some a ∧ mixedResults !! 2%nat = Some b
            ∧ less b a = true)
  ∧ (∃ a b, mixedResults !! 0%nat = Some a ∧ mixedResults !! 1%nat = Some b
            ∧ ¬ rankLe a b).
Proof.
  split; [vm_compute; reflexivity |]. split; [reflexivity |].
  split; [| split].
  - intros Hs. apply StronglySorted_inv in Hs as [_ Hall].
    apply Forall_cons in Hall as [Hab _].
    unfold rankLe, rankKey, keyLe in Hab. simpl in Hab. by destruct Hab as [|[]].
  - eexists _, _. split; [reflexivity |]. split; reflexivity.
  - eexists _, _. split; [reflexivity |]. split; [reflexivity |].
    unfold rankLe, rankKey, keyLe. simpl. by intros [|[]].
Qed.

(** The first scenario of the specification: one sample on 2024-06-01,
    detailed offers at 500 and 0, a baseline with low bound 600: exactly
    one Result, at 500 for trip length 7, with a link. *)
Example one_bargain :
  (Find (stubSession (bargain 600)) insertionSort_func false (request [7]) inOrder).1
  = ([makeResult (itinerary (day 19875) (day 19882) "SFO" 500) 7
        "https://www.google.com/travel/flights"], None).
Proof. vm_compute. reflexivity. Qed.

(** The third scenario of the specification: trip lengths 7 and 10 with
    one qualifying Result each, at 500 and 300, come out as 300 then 500. *)
Example two_trip_lengths_ranked :
  Result.Price
    <$> (Find (stubSession (bargain 600)) insertionSort_func false
           (request [7; 10]) inOrder).1.1
  = [Num 300; Num 500].
Proof. vm_compute. reflexivity. Qed.

(** ** What the tasks emit, under every schedule *)

Section Emitted.

Variable session : Session.t.
Variable ctx : Ctx.
Variable args : Args.t.
Variable tripLength : Z.
Variable priceGraphOffers : list Offer.t.

Lemma task_step_traced (c : Ctx) (offer : Offer.t) (t : task) :
  tracedTask session args tripLength offer t →
  tracedTask session args tripLength offer
    (next (task_step session args tripLength c t))
  ∧ Forall (emittedFor session args tripLength offer)
      (sends (task_step session args tripLength c t)).
Proof.
  destruct t as [o | bestOffer | bestOffer | e | item |]; simpl; intros Ht.
  - subst o.
    destruct (Session.GetOffers session c _) as [[fullOffers pr0] [e|]] eqn:Hoffers;
      [done |].
    destruct (float64_eq _ _) eqn:Hzero; [done |]. simpl. split; [| done].
    by exists c, fullOffers, pr0.
  - destruct (Session.GetOffers session c _) as [[routeOffers [pr|]] [e|]];
      try done.
    by destruct (float64_ge _ _).
  - destruct (Session.SerializeURL session c _) as [url [e|]] eqn:Hurl; [done |].
    simpl. split; [| done]. intros _. by exists bestOffer, c, url.
  - split; [| done]. intros Hres. discriminate Hres.
  - split; [done |]. by constructor.
  - done.
Qed.

Lemma task_step_sends (c : Ctx) (t : task) :
  sends (task_step session args tripLength c t)
  = if t is AtSend item then [item] else [].
Proof. destruct t; simpl; repeat case_match; done. Qed.

Lemma step_traced (st : search) (i : nat) :
  traced session args tripLength priceGraphOffers st →
  traced session args tripLength priceGraphOffers
    (step session ctx args tripLength st i).
Proof.
  intros [Ht (senders & Hnd & Hfin & Hch)]. unfold step.
  destruct (tasks st !! i) as [t|] eqn:Hi; [| split; [done | by exists senders]].
  destruct (Forall2_lookup_r _ _ _ _ _ Ht Hi) as (offer & Hoffer & Htraced).
  destruct (task_step_traced (ctxWithCancel ctx st) offer t Htraced)
    as [Hnext Hsends].
  pose proof (task_step_sends (ctxWithCancel ctx st) t) as Hs.
  assert (∀ j, tasks st !! j = Some Finished →
               <[i:=next (task_step session args tripLength (ctxWithCancel ctx st) t)]>
                 (tasks st) !! j = Some Finished) as Hkeep.
  { intros j Hj. destruct (decide (i = j)) as [-> | Hne].
    - rewrite Hi in Hj. injection Hj as ->. simpl.
      apply list_lookup_insert_eq. by eapply lookup_lt_Some.
    - by rewrite list_lookup_insert_ne. }
  split; simpl.
  - rewrite <- (list_insert_id priceGraphOffers i offer) by done.
    by apply Forall2_insert.
  - rewrite Hs.
    assert ((∃ item, t = AtSend item) ∨ ¬ ∃ item, t = AtSend item)
      as [[item ->] | Hno]
      by (destruct t; first [left; by eexists | right; by intros [? [=]]]).
    + exists (senders ++ [i]). split; [| split].
      * apply NoDup_app. split; [done |]. split; [| apply NoDup_singleton].
        intros j Hj ->%list_elem_of_singleton.
        rewrite Forall_forall in Hfin. specialize (Hfin _ Hj). congruence.
      * apply Forall_app. split.
        -- eapply Forall_impl; [exact Hfin |]. exact Hkeep.
        -- apply Forall_singleton. simpl.
           apply list_lookup_insert_eq. by eapply lookup_lt_Some.
      * apply Forall2_app; [done |]. constructor; [| constructor].
        exists offer. split; [done |]. rewrite Hs in Hsends.
        by apply Forall_singleton in Hsends.
    + assert ((if t is AtSend item then [item] else []) = []) as ->
        by (destruct t; try done; destruct Hno; by eexists).
      rewrite app_nil_r. exists senders. split; [done |]. split; [| done].
      eapply Forall_impl; [exact Hfin |]. exact Hkeep.
Qed.

Lemma run_traced (sched : list nat) (st : search) :
  traced session args tripLength priceGraphOffers st →
  traced session args tripLength priceGraphOffers
    (run session ctx args tripLength sched st).
Proof.
  unfold run. revert st.
  induction sched as [| i sched IH]; intros st Ht; simpl; [done |].
  by apply IH, step_traced.
Qed.

Lemma spawn_traced :
  traced session args tripLength priceGraphOffers (spawn priceGraphOffers).
Proof.
  split; simpl.
  - apply Forall2_fmap_r, Forall_Forall2_diag, Forall_forall. by intros offer _.
  - exists []. split; [constructor |]. split; constructor.
Qed.

(** Under every schedule, every item on the channel was sent by a task of
    its own, and a Result among them was built from the winner of the
    sample that this task was spawned for. *)
Lemma emitted_by_its_task (sched : list nat) :
  eachItemOfItsTask priceGraphOffers
    (resultsCh (run session ctx args tripLength sched (spawn priceGraphOffers)))
    (emittedFor session args tripLength).
Proof.
  destruct (run_traced sched _ spawn_traced) as [_ (senders & Hnd & _ & Hch)].
  by exists senders.
Qed.

(** Tasks that have not ended and items sent never outnumber the samples. *)
Lemma step_alive (st : search) (i : nat) :
  (length (resultsCh (step session ctx args tripLength st i))
   + length (concat (alive <$> tasks (step session ctx args tripLength st i)))
   ≤ length (resultsCh st) + length (concat (alive <$> tasks st)))%nat.
Proof.
  unfold step. destruct (tasks st !! i) as [t|] eqn:Hi; [| done]. simpl.
  pose proof (concat_fmap_insert alive (tasks st) i t
                (next (task_step session args tripLength (ctxWithCancel ctx st) t)) Hi)
    as Hins.
  apply Permutation_length in Hins. rewrite !length_app in Hins.
  pose proof (task_step_sends_length session args tripLength
                (ctxWithCancel ctx st) t) as Hsend.
  rewrite length_app.
  assert (∀ t', length (alive t') = if t' is Finished then 0 else 1)%nat as Hal
    by (by intros []).
  rewrite !Hal in Hins. lia.
Qed.

Lemma run_alive (sched : list nat) (st : search) :
  (length (resultsCh (run session ctx args tripLength sched st))
   + length (concat (alive <$> tasks (run session ctx args tripLength sched st)))
   ≤ length (resultsCh st) + length (concat (alive <$> tasks st)))%nat.
Proof.
  unfold run. revert st.
  induction sched as [| i sched IH]; intros st; simpl; [done |].
  etrans; [apply IH | apply step_alive].
Qed.

Lemma spawn_alive :
  length (concat (alive <$> tasks (spawn priceGraphOffers)))
  = length priceGraphOffers.
Proof.
  unfold spawn. simpl.
  assert (∀ l : list Offer.t,
            length (concat (alive <$> (AtGetOffers <$> l))) = length l) as Hgen.
  { induction l as [| o l IH]; [done |]. csimpl. f_equal. exact IH. }
  apply Hgen.
Qed.

Lemma run_sends_at_most_once (sched : list nat) :
  (length (resultsCh (run session ctx args tripLength sched (spawn priceGraphOffers)))
   ≤ length priceGraphOffers)%nat.
Proof.
  pose proof (run_alive sched (spawn priceGraphOffers)) as Hrun.
  rewrite spawn_alive in Hrun. simpl in Hrun. lia.
Qed.

End Emitted.

Lemma collect_length (ch : list resultOrError.t) :
  (length (collect ch).1 ≤ length ch)%nat.
Proof.
  destruct (first_error_split ch) as [Hall | (pre & it & post & e & -> & Hpre & Hit)].
  - rewrite collect_results by done. simpl. by rewrite length_fmap.
  - erewrite collect_first_error by done. simpl. lia.
Qed.

Lemma eachItemOfItsTask_impl (priceGraphOffers : list Offer.t)
  (ch : list resultOrError.t) (P Q : Offer.t → resultOrError.t → Prop) :
  (∀ offer item, P offer item → Q offer item) →
  eachItemOfItsTask priceGraphOffers ch P → eachItemOfItsTask priceGraphOffers ch Q.
Proof.
  intros Himpl (senders & Hnd & Hall). exists senders. split; [done |].
  eapply Forall2_impl; [exact Hall |]. simpl.
  intros i item (offer & Hoffer & HP). exists offer. split; [done | by apply Himpl].
Qed.

(** C3, as the code has it: under every schedule, every Result on the
    channel was sent by a task of its own and carries the price of the
    winner of the detailed offers that the client returned for the sample
    of that task: a price that is not zero and is the price of one of
    these offers; when none of these offers has a NaN price, it is the
    minimum non-zero price among them. *)
Theorem C3_price_is_min_nonzero
  (session : Session.t) (ctx : Ctx) (args : Args.t) (tripLength : Z)
  (priceGraphOffers : list Offer.t) (sched : list nat) :
  eachItemOfItsTask priceGraphOffers
    (resultsCh (run session ctx args tripLength sched (spawn priceGraphOffers)))
    (λ offer item,
       isResult item →
       ∃ c fullOffers pr0,
         Session.GetOffers session c (offersArgs args offer)
         = (fullOffers, pr0, None)
         ∧ Result.Price (resultOrError.result item)
           = FullOffer.Price (pickBestOffer fullOffers)
         ∧ nonZero (Result.Price (resultOrError.result item))
         ∧ (∃ o, o ∈ fullOffers
                 ∧ FullOffer.Price o = Result.Price (resultOrError.result item))
         ∧ (pricesAreNumbers fullOffers →
            minNonZeroPrice (Result.Price (resultOrError.result item)) fullOffers)).
Proof.
  eapply eachItemOfItsTask_impl; [| apply emitted_by_its_task].
  intros offer item Hem Hres.
  destruct (Hem Hres)
    as (bestOffer & c' & url & (c & fullOffers & pr0 & Hget & -> & Hnz) & _ & ->).
  destruct (pickBestOffer_nonzero fullOffers Hnz) as [Hin Hmin].
  exists c, fullOffers, pr0. simpl. split; [done |]. split; [done |].
  split; [done |]. split; [by exists (pickBestOffer fullOffers) | done].
Qed.

Lemma C3_price_is_min_nonzero_witness :
  ∃ c fullOffers pr0,
    Session.GetOffers (stubSession (bargain 600)) c
      (offersArgs (request [7]) (sample 19875 7)) = (fullOffers, pr0, None)
    ∧ minNonZeroPrice 500 fullOffers.
Proof.
  destruct (C3_price_is_min_nonzero (stubSession (bargain 600)) false (request [7])
              7 [sample 19875 7] [0; 0; 0; 0; 0]%nat)
    as (senders & _ & Hall).
  assert (resultsCh (run (stubSession (bargain 600)) false (request [7]) 7
                       [0; 0; 0; 0; 0]%nat (spawn [sample 19875 7]))
          = [sendResult (makeResult (itinerary (day 19875) (day 19882) "SFO" 500) 7
                           "https://www.google.com/travel/flights")]) as Hch
    by (vm_compute; reflexivity).
  rewrite Hch in Hall.
  apply Forall2_cons_inv_r in Hall
    as (i & rest & (offer & Hoffer & Hitem) & _ & _).
  apply list_elem_of_lookup_2, list_elem_of_singleton in Hoffer as ->.
  destruct (Hitem eq_refl) as (c & fullOffers & pr0 & Hget & _ & _ & _ & Hmin).
  exists c, fullOffers, pr0. split; [exact Hget |]. apply Hmin.
  destruct c; [discriminate Hget |].
  injection Hget as <- _. intros o Ho.
  apply elem_of_cons in Ho as [-> | Ho]; [done |].
  apply elem_of_cons in Ho as [-> | Ho]; [done |].
  by apply elem_of_nil in Ho.
Defined.

(** C3 as stated fails where a detailed offer has a NaN price.  A sample
    whose detailed offers are priced NaN and 500, in this order: the loop
    keeps the first offer, no price comparing less than NaN, and the task
    sends a Result priced NaN, while the cheapest of the non-zero prices
    that are numbers is 500. *)
Lemma C3_nan_price_is_kept :
  Session.GetOffers (stubSession (quoted [NaN; Num 500] 600)) false
    (offersArgs (request [7]) (sample 19875 7))
  = ([itinerary (day 19875) (day 19882) "SFO" NaN;
      itinerary (day 19875) (day 19882) "SFO" 500], None, None)
  ∧ resultsCh (run (stubSession (quoted [NaN; Num 500] 600)) false (request [7]) 7
                 [0; 0; 0; 0; 0]%nat (spawn [sample 19875 7]))
    = [sendResult (makeResult (itinerary (day 19875) (day 19882) "SFO" NaN) 7
                     "https://www.google.com/travel/flights")]
  ∧ ¬ minNonZeroPrice NaN
        [itinerary (day 19875) (day 19882) "SFO" NaN;
         itinerary (day 19875) (day 19882) "SFO" 500]
  ∧ (∀ o, o ∈ [itinerary (day 19875) (day 19882) "SFO" NaN;
               itinerary (day 19875) (day 19882) "SFO" 500] →
          isNumber (FullOffer.Price o) → nonZero (FullOffer.Price o) →
          float64_le 500 (FullOffer.Price o)).
Proof.
  split; [vm_compute; reflexivity |]. split; [vm_compute; reflexivity |]. split.
  - intros (_ & _ & Hle).
    apply (Hle (itinerary (day 19875) (day 19882) "SFO" NaN)); [by left | done].
  - intros o Ho Hnum _.
    apply elem_of_cons in Ho as [-> | Ho]; [done |].
    apply elem_of_cons in Ho as [-> | Ho]; [simpl; lia |].
    by apply elem_of_nil in Ho.
Qed.

(** C10: a search spawns one task per price-graph sample, the task of each
    sample starting at the detailed-offer query for that sample; under
    every schedule the tasks put at most as many items on the channel as
    there are samples, no task more than one, so [findForTripLength]
    returns at most as many Results as the price graph has samples; and a
    Result on the channel is built from the winner of the detailed offers
    that the client returned for the sample of the task that sent it: its
    dates, airports and price are the winner's, one of these offers, and
    its link is the one the client returned for the winner. *)
Theorem C10_one_task_one_result
  (session : Session.t) (ctx : Ctx) (args : Args.t) (tripLength : Z)
  (priceGraphOffers : list Offer.t) (sched : list nat) :
  tasks (spawn priceGraphOffers) = AtGetOffers <$> priceGraphOffers
  ∧ (length (resultsCh (run session ctx args tripLength sched
                          (spawn priceGraphOffers)))
     ≤ length priceGraphOffers)%nat
  ∧ (length (findForTripLength session ctx args sched tripLength).1.1
     ≤ length (Session.GetPriceGraph session ctx
                 (priceGraphArgs args tripLength)).1)%nat
  ∧ eachItemOfItsTask priceGraphOffers
      (resultsCh (run session ctx args tripLength sched (spawn priceGraphOffers)))
      (λ offer item,
         isResult item →
         ∃ c fullOffers pr0 c' url,
           Session.GetOffers session c (offersArgs args offer)
           = (fullOffers, pr0, None)
           ∧ pickBestOffer fullOffers ∈ fullOffers
           ∧ Session.SerializeURL session c'
               (routeArgs args (pickBestOffer fullOffers)) = (url, None)
           ∧ resultOrError.result item
             = makeResult (pickBestOffer fullOffers) tripLength url
           ∧ Result.StartDate (resultOrError.result item)
             = FullOffer.StartDate (pickBestOffer fullOffers)
           ∧ Result.ReturnDate (resultOrError.result item)
             = FullOffer.ReturnDate (pickBestOffer fullOffers)
           ∧ Result.SrcAirport (resultOrError.result item)
             = FullOffer.SrcAirportCode (pickBestOffer fullOffers)
           ∧ Result.DstAirport (resultOrError.result item)
             = FullOffer.DstAirportCode (pickBestOffer fullOffers)
           ∧ Result.Price (resultOrError.result item)
             = FullOffer.Price (pickBestOffer fullOffers)).
Proof.
  split; [done |]. split; [apply run_sends_at_most_once |]. split.
  - unfold findForTripLength.
    destruct (Session.GetPriceGraph session ctx _) as [offers [e|]]; simpl;
      [lia |].
    etrans; [apply collect_length |]. apply run_sends_at_most_once.
  - eapply eachItemOfItsTask_impl; [| apply emitted_by_its_task].
    intros offer item Hem Hres.
    destruct (Hem Hres)
      as (bestOffer & c' & url & (c & fullOffers & pr0 & Hget & -> & Hnz)
          & Hurl & ->).
    destruct (pickBestOffer_nonzero fullOffers Hnz) as [Hin _].
    by exists c, fullOffers, pr0, c', url.
Qed.

Lemma C10_one_task_one_result_witness :
  (length (resultsCh (run (stubSession twoAirports) false (request [7%Z]) 7
                        [1; 1; 1; 1] (spawn [sample 19875 7; sample 19876 7])))
   ≤ length [sample 19875 7; sample 19876 7])%nat.
Proof.
  apply (C10_one_task_one_result (stubSession twoAirports) false (request [7]) 7
           [sample 19875 7; sample 19876 7] [1; 1; 1; 1]%nat).
Defined.

(** With [twoAirports] and its second task run first, the channel holds
    the Result of the second sample, built from that sample's winner, the
    San Jose departure. *)
Example second_task_sends_its_own_winner :
  resultsCh (run (stubSession twoAirports) false (request [7]) 7
               [1; 1; 1; 1]%nat (spawn [sample 19875 7; sample 19876 7]))
  = [sendResult
       (makeResult
          (pickBestOffer
             (Session.GetOffers (stubSession twoAirports) false
                (offersArgs (request [7]) (sample 19876 7))).1.1)
          7 "https://www.google.com/travel/flights")]
  ∧ FullOffer.SrcAirportCode
      (pickBestOffer
         (Session.GetOffers (stubSession twoAirports) false
            (offersArgs (request [7]) (sample 19876 7))).1.1)
    = "SJC"%string.
Proof. split; vm_compute; reflexivity. Qed.

(** The second sample of [twoAirports] departs on 2024-06-02; the Result
    of its task departs on 2024-06-01, as its winning detailed offer does. *)
Example result_dates_are_the_winners :
  Offer.StartDate <$> [sample 19875 7; sample 19876 7] = [day 19875; day 19876]
  ∧ Result.StartDate
      <$> (findForTripLength (stubSession twoAirports) false (request [7]) [] 7).1.1
    = [day 19875; day 19875].
Proof. split; vm_compute; reflexivity. Qed.

(** ** Candidates without qualifying data *)

Lemma task_step_noQualifyingData (session : Session.t) (args : Args.t)
  (tripLength : Z) (c : Ctx) (t : task) :
  noQualifyingData session args c t →
  next (task_step session args tripLength c t) = Finished
  ∧ sends (task_step session args tripLength c t) = []
  ∧ cancels (task_step session args tripLength c t) = false.
Proof.
  destruct t as [offer | bestOffer | bestOffer | e | item |]; simpl; try done.
  - intros (fullOffers & pr0 & -> & Hzero).
    apply pickBestOffer_zero in Hzero. unfold isZero in Hzero. by rewrite Hzero.
  - intros (routeOffers & pr & -> & [-> | (priceRange & -> & Hge)]); [done |].
    by rewrite Hge.
Qed.

Lemma refine_sampleNoData (session : Session.t) (args : Args.t)
  (tripLength : Z) (c : Ctx) (offer : Offer.t) :
  sampleNoData session args c offer → refine session args tripLength c offer = [].
Proof.
  intros (fullOffers & pr0 & Hget & Hcase). unfold refine. rewrite Hget.
  destruct (float64_eq _ _) eqn:Hzero; [done |].
  destruct Hcase as [Hall | (routeOffers & pr & Hroute & Hpr)].
  - apply pickBestOffer_zero in Hall. unfold isZero in Hall. congruence.
  - unfold baselineStage. rewrite Hroute.
    destruct Hpr as [-> | (priceRange & -> & Hge)]; [done |].
    by rewrite Hge.
Qed.

(** C4, as the code has it: a task goes on with one of the detailed offers
    that the test [== 0] does not take for zero, and when no detailed
    offer has a NaN price this is the cheapest of them; when every
    detailed offer is priced zero, or there is none, the task ends without
    a Result and without an error; and the offer it goes on with never has
    price zero. *)
Theorem C4_cheapest_nonzero_offer
  (session : Session.t) (args : Args.t) (tripLength : Z) (c : Ctx)
  (offer : Offer.t) (fullOffers : list FullOffer.t) (pr0 : option PriceRange.t) :
  Session.GetOffers session c (offersArgs args offer) = (fullOffers, pr0, None) →
  ((∃ o, o ∈ fullOffers ∧ nonZero (FullOffer.Price o)) →
     pickBestOffer fullOffers ∈ fullOffers
     ∧ nonZero (FullOffer.Price (pickBestOffer fullOffers))
     ∧ (pricesAreNumbers fullOffers →
        minNonZeroPrice (FullOffer.Price (pickBestOffer fullOffers)) fullOffers)
     ∧ task_step session args tripLength c (AtGetOffers offer)
       = goto (AtGetPriceRange (pickBestOffer fullOffers))
              [CallGetOffers c (offersArgs args offer)])
  ∧ ((∀ o, o ∈ fullOffers → isZero (FullOffer.Price o)) →
       task_step session args tripLength c (AtGetOffers offer)
       = goto Finished [CallGetOffers c (offersArgs args offer)])
  ∧ (∀ bestOffer,
       next (task_step session args tripLength c (AtGetOffers offer))
       = AtGetPriceRange bestOffer →
       nonZero (FullOffer.Price bestOffer)).
Proof.
  intros Hget. simpl. rewrite Hget. split; [| split].
  - intros (o & Ho & Hnz).
    assert (nonZero (FullOffer.Price (pickBestOffer fullOffers))) as Hbest.
    { destruct (isZero_or_nonZero (FullOffer.Price (pickBestOffer fullOffers)))
        as [Hz |]; [| done].
      rewrite pickBestOffer_zero in Hz. destruct (isZero_nonZero _ (Hz o Ho) Hnz). }
    destruct (pickBestOffer_nonzero fullOffers Hbest) as [Hin Hmin].
    split; [done |]. split; [done |]. split; [done |].
    unfold nonZero in Hbest. by rewrite Hbest.
  - intros Hall. apply pickBestOffer_zero in Hall. unfold isZero in Hall.
    by rewrite Hall.
  - intros bestOffer. destruct (float64_eq _ _) eqn:Hzero; simpl; [done |].
    by intros [= <-].
Qed.

Lemma C4_cheapest_nonzero_offer_witness :
  pickBestOffer [itinerary (day 19875) (day 19882) "SFO" 500;
                 itinerary (day 19875) (day 19882) "SFO" 0]
  ∈ [itinerary (day 19875) (day 19882) "SFO" 500;
     itinerary (day 19875) (day 19882) "SFO" 0]
  ∧ nonZero
      (FullOffer.Price
         (pickBestOffer [itinerary (day 19875) (day 19882) "SFO" 500;
                         itinerary (day 19875) (day 19882) "SFO" 0]))
  ∧ (pricesAreNumbers [itinerary (day 19875) (day 19882) "SFO" 500;
                       itinerary (day 19875) (day 19882) "SFO" 0] →
     minNonZeroPrice
       (FullOffer.Price
          (pickBestOffer [itinerary (day 19875) (day 19882) "SFO" 500;
                          itinerary (day 19875) (day 19882) "SFO" 0]))
       [itinerary (day 19875) (day 19882) "SFO" 500;
        itinerary (day 19875) (day 19882) "SFO" 0])
  ∧ task_step (stubSession (bargain 600)) (request [7]) 7 false
      (AtGetOffers (sample 19875 7))
    = goto (AtGetPriceRange
              (pickBestOffer [itinerary (day 19875) (day 19882) "SFO" 500;
                              itinerary (day 19875) (day 19882) "SFO" 0]))
           [CallGetOffers false (offersArgs (request [7]) (sample 19875 7))].
Proof.
  apply (C4_cheapest_nonzero_offer (stubSession (bargain 600)) (request [7]) 7
           false (sample 19875 7) _ None).
  - vm_compute. reflexivity.
  - exists (itinerary (day 19875) (day 19882) "SFO" 500). split; [by left | done].
Defined.

(** C4 as stated fails where a detailed offer has a negative price and
    where one has a NaN price.  In a list holding only an offer priced -5
    no offer is strictly positive, yet the task selects that offer and
    [Find] returns a Result for it.  In a list holding an offer priced NaN
    and then one priced 500, the task selects the first, whose price is
    not strictly positive, and not the one at 500. *)
Lemma C4_negative_or_nan_price_is_selected :
  (∀ o, o ∈ [itinerary (day 19875) (day 19882) "SFO" (-5)] →
        float64_lt 0 (FullOffer.Price o) = false)
  ∧ pickBestOffer [itinerary (day 19875) (day 19882) "SFO" (-5)]
    = itinerary (day 19875) (day 19882) "SFO" (-5)
  ∧ (Session.GetOffers (stubSession refund) false
       (offersArgs (request [7]) (sample 19875 7))).1.1
    = [itinerary (day 19875) (day 19882) "SFO" (-5)]
  ∧ (Find (stubSession refund) insertionSort_func false (request [7]) inOrder).1
    = ([makeResult (itinerary (day 19875) (day 19882) "SFO" (-5)) 7
          "https://www.google.com/travel/flights"], None)
  ∧ pickBestOffer [itinerary (day 19875) (day 19882) "SFO" NaN;
                   itinerary (day 19875) (day 19882) "SFO" 500]
    = itinerary (day 19875) (day 19882) "SFO" NaN
  ∧ float64_lt 0 NaN = false
  ∧ float64_lt 0 500 = true
  ∧ (Find (stubSession (quoted [NaN; Num 500] 600)) insertionSort_func false
       (request [7]) inOrder).1
    = ([makeResult (itinerary (day 19875) (day 19882) "SFO" NaN) 7
          "https://www.google.com/travel/flights"], None).
Proof.
  split; [| repeat split; vm_compute; reflexivity].
  by intros o ->%list_elem_of_singleton.
Qed.

(** C7, as the code has it: a task whose detailed offers are all priced
    zero (or missing), or whose baseline is absent, or whose winner's
    price is greater than or equal to the baseline's low bound, ends at
    that call without sending a Result or an error and without cancelling
    its siblings; and a call of [Find] on a valid request whose
    price-graph lookups succeed and whose samples are all of this kind
    returns an empty sequence and no error. *)
Theorem C7_no_qualifying_data_is_not_an_error
  (session : Session.t) (ctx : Ctx) (args : Args.t) :
  (∀ (tripLength : Z) (st : search) (i : nat) (t : task),
     tasks st !! i = Some t →
     noQualifyingData session args (ctxWithCancel ctx st) t →
     tasks (step session ctx args tripLength st i) !! i = Some Finished
     ∧ resultsCh (step session ctx args tripLength st i) = resultsCh st
     ∧ cancelled (step session ctx args tripLength st i) = cancelled st)
  ∧ (∀ sort_Slice (sched : nat → list nat),
       SortSliceSpec sort_Slice →
       validateArgs args = None →
       (∀ tripLength, tripLength ∈ Args.TripLengths args →
          (Session.GetPriceGraph session ctx (priceGraphArgs args tripLength)).2 = None
          ∧ ∀ offer,
              offer ∈ (Session.GetPriceGraph session ctx
                         (priceGraphArgs args tripLength)).1 →
              sampleNoData session args ctx offer) →
       (Find session sort_Slice ctx args sched).1 = ([], None)).
Proof.
  split.
  - intros tripLength st i t Hi Hno.
    destruct (task_step_noQualifyingData session args tripLength _ t Hno)
      as (Hnext & Hsends & Hcancels).
    split; [| split].
    + by rewrite (step_lookup_eq _ _ _ _ _ _ _ Hi), Hnext.
    + unfold step. rewrite Hi. simpl. by rewrite Hsends, app_nil_r.
    + unfold step. rewrite Hi. simpl. by rewrite Hcancels, orb_false_r.
  - intros sort_Slice sched Hsort Hvalid Hno.
    assert (∀ tripLength, tripLength ∈ Args.TripLengths args →
              sampleItems session ctx args tripLength = []) as Hitems.
    { intros tripLength [_ Hsamples]%Hno. unfold sampleItems.
      induction ((Session.GetPriceGraph session ctx _).1) as [| offer l IH];
        [done |].
      csimpl. rewrite (refine_sampleNoData _ _ _ _ offer); [simpl |].
      - apply IH. intros o Ho. apply Hsamples. by right.
      - apply Hsamples. by left. }
    assert (Forall (searchOk session ctx args) (Args.TripLengths args)) as Hok.
    { apply Forall_forall. intros tripLength Htl. split.
      - by apply Hno.
      - rewrite Hitems by done. constructor. }
    destruct (Find_ok session sort_Slice ctx args sched Hvalid Hok)
      as (allResults & log & -> & Hperm). simpl.
    assert (concat (qualifying session ctx args <$> Args.TripLengths args) = [])
      as Hnil.
    { clear Hok Hno Hperm.
      induction (Args.TripLengths args) as [| tripLength l IH]; [done |].
      csimpl. unfold qualifying at 1. rewrite Hitems by (by left). simpl.
      apply IH. intros tl Htl. apply Hitems. by right. }
    rewrite Hnil in Hperm. apply Permutation_nil_r in Hperm as ->.
    f_equal. apply Permutation_nil_r. apply (sort_Slice_perm _ Hsort).
Qed.

(** The second scenario of the specification: the winner at 500 does not
    beat a low bound of 450, and the call returns nothing and no error. *)
Lemma C7_no_qualifying_data_witness :
  (Find (stubSession (bargain 450)) insertionSort_func false (request [7]) inOrder).1
  = ([], None).
Proof.
  apply (C7_no_qualifying_data_is_not_an_error (stubSession (bargain 450)) false
           (request [7])); [apply insertionSort_func_spec | reflexivity |].
  intros tripLength ->%list_elem_of_singleton. split; [reflexivity |].
  intros offer ->%list_elem_of_singleton.
  eexists _, _. split; [vm_compute; reflexivity |]. right.
  eexists _, _. split; [vm_compute; reflexivity |]. right.
  eexists. split; [reflexivity |]. vm_compute. reflexivity.
Defined.

(** C7 as stated fails where the only detailed offer has a negative
    price: the sample has no positive-price entry, yet its task sends a
    Result, which [Find] returns.  It also fails where the winning price
    is NaN: that price does not beat the low bound of 600, yet the task
    sends a Result, which [Find] returns. *)
Lemma C7_negative_or_nan_price_contributes :
  (Session.GetOffers (stubSession refund) false
     (offersArgs (request [7]) (sample 19875 7)))
  = ([itinerary (day 19875) (day 19882) "SFO" (-5)], None, None)
  ∧ (∀ o, o ∈ [itinerary (day 19875) (day 19882) "SFO" (-5)] →
          float64_lt 0 (FullOffer.Price o) = false)
  ∧ refine (stubSession refund) (request [7]) 7 false (sample 19875 7)
    = [sendResult (makeResult (itinerary (day 19875) (day 19882) "SFO" (-5)) 7
                     "https://www.google.com/travel/flights")]
  ∧ (Find (stubSession refund) insertionSort_func false (request [7]) inOrder).1.1
    ≠ []
  ∧ pickBestOffer
      (Session.GetOffers (stubSession (quoted [NaN; Num 500] 600)) false
         (offersArgs (request [7]) (sample 19875 7))).1.1
    = itinerary (day 19875) (day 19882) "SFO" NaN
  ∧ Session.GetOffers (stubSession (quoted [NaN; Num 500] 600)) false
      (routeArgs (request [7]) (itinerary (day 19875) (day 19882) "SFO" NaN))
    = ([], Some {| PriceRange.Low := 600; PriceRange.High := 900 |}, None)
  ∧ float64_lt NaN 600 = false
  ∧ refine (stubSession (quoted [NaN; Num 500] 600)) (request [7]) 7 false
      (sample 19875 7)
    = [sendResult (makeResult (itinerary (day 19875) (day 19882) "SFO" NaN) 7
                     "https://www.google.com/travel/flights")]
  ∧ (Find (stubSession (quoted [NaN; Num 500] 600)) insertionSort_func false
       (request [7]) inOrder).1.1
    ≠ [].
Proof.
  split; [vm_compute; reflexivity |]. split; [| split; [| split]].
  - by intros o ->%list_elem_of_singleton.
  - vm_compute. reflexivity.
  - vm_compute. discriminate.
  - split; [vm_compute; reflexivity |]. split; [vm_compute; reflexivity |].
    split; [reflexivity |]. split; [vm_compute; reflexivity |].
    vm_compute. discriminate.
Qed.

(** ** Failures *)

(** C5: when the searches for the trip lengths before [T] succeed and the
    search for [T] fails with [e], [Find] returns [e] and no Result, and
    the searches started are those of the trip lengths up to [T] and no
    other: none after [T] is started. *)
Theorem C5_first_failure_aborts_batch
  (session : Session.t)
  (sort_Slice : (Result.t → Result.t → bool) → list Result.t → list Result.t)
  (ctx : Ctx) (args : Args.t) (sched : nat → list nat)
  (pre post : list Z) (T : Z) (e : error) :
  Args.TripLengths args = pre ++ T :: post →
  validateArgs args = None →
  (∀ j tl, pre !! j = Some tl →
     (findForTripLength session ctx args (sched j) tl).1.2 = None) →
  (findForTripLength session ctx args (sched (length pre)) T).1.2 = Some e →
  ∃ log,
    Find session sort_Slice ctx args sched = ([], Some e, log)
    ∧ log.*1 = pre ++ [T].
Proof.
  intros Htls Hvalid Hpre HT. unfold Find. rewrite Hvalid, Htls.
  destruct (searchTripLengths_first_failure session ctx args sched pre post T e
              0 [] [] Hpre HT) as (log & -> & Hlog).
  by exists log.
Qed.

Lemma C5_first_failure_aborts_batch_witness :
  ∃ log,
    Find (stubSession flaky) insertionSort_func false (request [5; 7; 10]) inOrder
    = ([], Some "rate limited"%string, log)
    ∧ log.*1 = [5] ++ [7].
Proof.
  apply (C5_first_failure_aborts_batch (stubSession flaky) insertionSort_func
           false (request [5; 7; 10]) inOrder [5] [10] 7 "rate limited"%string).
  - reflexivity.
  - reflexivity.
  - intros j tl Hj. destruct j as [| j]; simpl in Hj; [| discriminate Hj].
    injection Hj as <-. vm_compute. reflexivity.
  - vm_compute. reflexivity.
Defined.

Section Cancellation.

Variable session : Session.t.
Variable ctx : Ctx.
Variable args : Args.t.
Variable tripLength : Z.

Lemma task_step_called_done (t : task) :
  Forall sawDone (called (task_step session args tripLength true t)).
Proof.
  destruct t; simpl; repeat case_match; simpl; repeat constructor.
Qed.

Lemma step_after_cancel (st : search) (i : nat) :
  cancelled st = true →
  cancelled (step session ctx args tripLength st i) = true
  ∧ ∃ later,
      calls (step session ctx args tripLength st i) = calls st ++ later
      ∧ Forall sawDone later.
Proof.
  intros Hc. unfold step. destruct (tasks st !! i) as [t|]; simpl.
  - rewrite Hc. split; [done |]. eexists. split; [done |].
    unfold ctxWithCancel. rewrite Hc, orb_true_r. apply task_step_called_done.
  - split; [done |]. exists []. by rewrite app_nil_r.
Qed.

Lemma run_after_cancel (sched : list nat) (st : search) :
  cancelled st = true →
  cancelled (run session ctx args tripLength sched st) = true
  ∧ ∃ later,
      calls (run session ctx args tripLength sched st) = calls st ++ later
      ∧ Forall sawDone later.
Proof.
  unfold run. revert st.
  induction sched as [| i sched IH]; intros st Hc; simpl.
  - split; [done |]. exists []. by rewrite app_nil_r.
  - destruct (step_after_cancel st i Hc) as (Hc' & later & Hcalls & Hlater).
    destruct (IH _ Hc') as (Hc'' & later' & Hcalls' & Hlater').
    split; [done |]. exists (later ++ later'). split.
    + by rewrite Hcalls', Hcalls, app_assoc.
    + by apply Forall_app.
Qed.

Lemma task_step_callFails (c : Ctx) (t : task) (e : error) :
  callFails session args c t e →
  task_step session args tripLength c t
  = goto (AtCancel e) (called (task_step session args tripLength c t)).
Proof.
  destruct t as [offer | bestOffer | bestOffer | e' | item |]; simpl; try done.
  - by destruct (Session.GetOffers session c _) as [[? ?] [?|]]; simpl; intros [= ->].
  - by destruct (Session.GetOffers session c _) as [[? [?|]] [?|]]; simpl; intros [= ->].
  - by destruct (Session.SerializeURL session c _) as [? [?|]]; simpl; intros [= ->].
Qed.

End Cancellation.

(** C9, as the code has it: within one search, a task whose
    pricing-client call fails goes straight to [cancel()] and only then
    sends its error; once [cancel()] has run, the scope stays cancelled
    and every later pricing-client call of every task sees the context as
    done; the consumer returns the error that comes first on the channel,
    with no Result, whatever errors follow it; and every search starts
    with a scope of its own, not yet cancelled. *)
Theorem C9_first_error_cancels_and_wins
  (session : Session.t) (ctx : Ctx) (args : Args.t) (tripLength : Z) :
  (∀ (st : search) (i : nat) (t : task) (e : error),
     tasks st !! i = Some t →
     callFails session args (ctxWithCancel ctx st) t e →
     tasks (step session ctx args tripLength st i) !! i = Some (AtCancel e)
     ∧ resultsCh (step session ctx args tripLength st i) = resultsCh st)
  ∧ (∀ (st : search) (i : nat) (e : error),
       tasks st !! i = Some (AtCancel e) →
       cancelled (step session ctx args tripLength st i) = true
       ∧ tasks (step session ctx args tripLength st i) !! i
         = Some (AtSend (sendErr e)))
  ∧ (∀ (st : search) (sched : list nat),
       cancelled st = true →
       cancelled (run session ctx args tripLength sched st) = true
       ∧ ctxWithCancel ctx (run session ctx args tripLength sched st) = true
       ∧ ∃ later,
           calls (run session ctx args tripLength sched st) = calls st ++ later
           ∧ Forall sawDone later)
  ∧ (∀ (pre post : list resultOrError.t) (item : resultOrError.t) (e : error),
       Forall isResult pre → resultOrError.err item = Some e →
       collect (pre ++ item :: post) = ([], Some e))
  ∧ (∀ (sched : list nat) (priceGraphOffers : list Offer.t)
       (pre post : list resultOrError.t) (item : resultOrError.t) (e : error),
       Session.GetPriceGraph session ctx (priceGraphArgs args tripLength)
       = (priceGraphOffers, None) →
       resultsCh (finalState session ctx args sched tripLength priceGraphOffers)
       = pre ++ item :: post →
       Forall isResult pre → resultOrError.err item = Some e →
       (findForTripLength session ctx args sched tripLength).1 = ([], Some e))
  ∧ (∀ priceGraphOffers : list Offer.t,
       cancelled (spawn priceGraphOffers) = false
       ∧ ctxWithCancel ctx (spawn priceGraphOffers) = ctx).
Proof.
  split; [| split; [| split; [| split; [| split]]]].
  - intros st i t e Hi Hfail.
    pose proof (task_step_callFails session args tripLength _ t e Hfail) as Hstep.
    split.
    + by rewrite (step_lookup_eq _ _ _ _ _ _ _ Hi), Hstep.
    + unfold step. rewrite Hi. simpl. rewrite Hstep. simpl. by rewrite app_nil_r.
  - intros st i e Hi. split.
    + unfold step. rewrite Hi. simpl. apply orb_true_r.
    + by rewrite (step_lookup_eq _ _ _ _ _ _ _ Hi).
  - intros st sched Hc.
    destruct (run_after_cancel session ctx args tripLength sched st Hc)
      as (Hc' & later & Hcalls & Hlater).
    split; [done |]. split; [| by exists later].
    unfold ctxWithCancel. rewrite Hc'. apply orb_true_r.
  - apply collect_first_error.
  - intros sched priceGraphOffers pre post item e Hgraph Hch Hpre Hitem.
    unfold findForTripLength. rewrite Hgraph. simpl. rewrite Hch.
    by apply collect_first_error.
  - intros priceGraphOffers. split; [done |]. apply orb_false_r.
Qed.

Lemma C9_first_error_witness :
  (findForTripLength (stubSession flaky) false (request [7]) [] 7).1
  = ([], Some "rate limited"%string).
Proof.
  apply (C9_first_error_cancels_and_wins (stubSession flaky) false (request [7]) 7)
    with (priceGraphOffers := [sample 19875 7; sample 19876 7; sample 19877 7])
         (pre := [])
         (item := sendErr "rate limited")
         (post := [sendErr "context canceled"; sendErr "context canceled"]).
  - reflexivity.
  - vm_compute. reflexivity.
  - constructor.
  - reflexivity.
Defined.

(** With [flaky], the first seven-night task fails: its siblings' calls
    then see a done context, and the search returns that first error. *)
Example first_error_wins :
  (findForTripLength (stubSession flaky) false (request [7]) [] 7).1
  = ([], Some "rate limited"%string)
  ∧ resultOrError.err
      <$> resultsCh (finalState (stubSession flaky) false (request [7]) [] 7
                       [sample 19875 7; sample 19876 7; sample 19877 7])
    = [Some "rate limited"%string; Some "context canceled"%string;
       Some "context canceled"%string].
Proof. split; vm_compute; reflexivity. Qed.

(** C9 as stated fails on [oneBad], where the detailed-offer query of the
    first sample fails with "rate limited" and that of the second sample
    fails only when its context is done.  The first task makes its call
    and calls [cancel()]; before it sends, the second task makes its call,
    which sees the cancelled scope, cancels and sends; the first task
    sends last.  The error returned is the sibling's "context canceled",
    and the first pricing-client error, the one that cancelled the scope,
    is discarded.  With the tasks run in order the same search returns
    "rate limited". *)
Lemma C9_cancelling_error_can_be_discarded :
  (Session.GetOffers (stubSession oneBad) false
     (offersArgs (request [7]) (sample 19875 7))).2
  = Some "rate limited"%string
  ∧ (Session.GetOffers (stubSession oneBad) false
       (offersArgs (request [7]) (sample 19876 7))).2
    = None
  ∧ tasks (run (stubSession oneBad) false (request [7]) 7 [0]%nat
             (spawn [sample 19875 7; sample 19876 7]))
    = [AtCancel "rate limited"; AtGetOffers (sample 19876 7)]
  ∧ cancelled (run (stubSession oneBad) false (request [7]) 7 [0; 0]%nat
                 (spawn [sample 19875 7; sample 19876 7]))
    = true
  ∧ calls (run (stubSession oneBad) false (request [7]) 7 [0; 0]%nat
             (spawn [sample 19875 7; sample 19876 7]))
    = [CallGetOffers false (offersArgs (request [7]) (sample 19875 7))]
  ∧ resultOrError.err
      <$> resultsCh (finalState (stubSession oneBad) false (request [7])
                       [0; 0; 1; 1; 1]%nat 7 [sample 19875 7; sample 19876 7])
    = [Some "context canceled"%string; Some "rate limited"%string]
  ∧ (findForTripLength (stubSession oneBad) false (request [7])
       [0; 0; 1; 1; 1]%nat 7).1
    = ([], Some "context canceled"%string)
  ∧ (findForTripLength (stubSession oneBad) false (request [7]) [] 7).1
    = ([], Some "rate limited"%string).
Proof. repeat split; vm_compute; reflexivity. Qed.

(** ** Two calls with the same request *)

Lemma Find_error_nil
  (session : Session.t)
  (sort_Slice : (Result.t → Result.t → bool) → list Result.t → list Result.t)
  (ctx : Ctx) (args : Args.t) (sched : nat → list nat)
  (rs : list Result.t) (e : error) (log : list (Z * list Call)) :
  Find session sort_Slice ctx args sched = (rs, Some e, log) → rs = [].
Proof.
  unfold Find. destruct (validateArgs args); [by intros [= <- _ _] |].
  destruct (searchTripLengths _ _ _ _ _ _ _ _) as [[allResults [e'|]] log'];
    [by intros [= <- _ _] | discriminate].
Qed.

(** Two successful calls return rearrangements of one another. *)
Lemma Find_twice
  (session : Session.t)
  (sort_Slice : (Result.t → Result.t → bool) → list Result.t → list Result.t)
  (ctx : Ctx) (args : Args.t) (sched1 sched2 : nat → list nat)
  (rs1 : list Result.t) (log1 : list (Z * list Call)) :
  SortSliceSpec sort_Slice →
  Find session sort_Slice ctx args sched1 = (rs1, None, log1) →
  ∃ rs2 log2,
    Find session sort_Slice ctx args sched2 = (rs2, None, log2) ∧ rs1 ≡ₚ rs2.
Proof.
  intros Hsort (Hvalid & Hok & all1 & -> & Hperm1)%Find_success.
  destruct (Find_ok session sort_Slice ctx args sched2 Hvalid Hok)
    as (all2 & log2 & Hfind2 & Hperm2).
  exists (sort_Slice less all2), log2. split; [done |].
  by rewrite !(sort_Slice_perm _ Hsort), Hperm1, Hperm2.
Qed.

(** C8, as the code has it: two calls of [Find] with the same request, on
    a client that answers identical inputs identically, both fail or both
    succeed, whatever the order in which the runtime lets the tasks run,
    and they return the same Results with the same multiplicities; when no
    Result has a NaN price, the two sequences agree position by position
    on price, departure date, return date and trip length, and they are
    identical when no two different Results agree on these four fields. *)
Theorem C8_same_results_up_to_ties
  (session : Session.t)
  (sort_Slice : (Result.t → Result.t → bool) → list Result.t → list Result.t)
  (ctx : Ctx) (args : Args.t) (sched1 sched2 : nat → list nat)
  (rs1 rs2 : list Result.t) (err1 err2 : option error)
  (log1 log2 : list (Z * list Call)) :
  SortSliceSpec sort_Slice →
  Find session sort_Slice ctx args sched1 = (rs1, err1, log1) →
  Find session sort_Slice ctx args sched2 = (rs2, err2, log2) →
  (err1 = None ↔ err2 = None)
  ∧ rs1 ≡ₚ rs2
  ∧ (numberPriced rs1 →
     rankKey <$> rs1 = rankKey <$> rs2
     ∧ ((∀ a b, a ∈ rs1 → b ∈ rs1 → rankKey a = rankKey b → a = b) → rs1 = rs2)).
Proof.
  intros Hsort Hfind1 Hfind2.
  assert (∀ s s' rs rs' err' log log',
            Find session sort_Slice ctx args s = (rs, None, log) →
            Find session sort_Slice ctx args s' = (rs', err', log') →
            err' = None ∧ rs ≡ₚ rs') as Hsame.
  { intros s s' rs rs' err' log log' Hs Hs'.
    destruct (Find_twice session sort_Slice ctx args s s' rs log Hsort Hs)
      as (rs'' & log'' & Heq & Hperm).
    rewrite Heq in Hs'. by injection Hs' as <- <- <-. }
  destruct err1 as [e1|], err2 as [e2|].
  - apply Find_error_nil in Hfind1 as ->. apply Find_error_nil in Hfind2 as ->.
    done.
  - destruct (Hsame _ _ _ _ _ _ _ Hfind2 Hfind1) as [[=] _].
  - destruct (Hsame _ _ _ _ _ _ _ Hfind1 Hfind2) as [[=] _].
  - destruct (Hsame _ _ _ _ _ _ _ Hfind1 Hfind2) as [_ Hperm].
    split; [done |]. split; [done |]. intros Hnum1.
    assert (numberPriced rs2) as Hnum2
      by (intros r Hr; apply Hnum1; by rewrite Hperm).
    pose proof (Find_sorted _ _ _ _ _ _ _ Hsort Hfind1 Hnum1) as Hsorted1.
    pose proof (Find_sorted _ _ _ _ _ _ _ Hsort Hfind2 Hnum2) as Hsorted2.
    split.
    + apply (StronglySorted_unique_strong keyLe).
      * intros k1 k2 _ _. apply keyLe_antisym.
      * by apply (StronglySorted_fmap rankKey rankLe keyLe).
      * by apply (StronglySorted_fmap rankKey rankLe keyLe).
      * by rewrite Hperm.
    + intros Hinj. apply (StronglySorted_unique_strong rankLe); try done.
      intros a b Ha Hb Hab Hba. apply Hinj; [done | by rewrite Hperm |].
      by apply keyLe_antisym.
Qed.

Lemma C8_same_results_up_to_ties_witness :
  (@None error = None ↔ @None error = None)
  ∧ (Find (stubSession twoAirports) insertionSort_func false (request [7]) inOrder).1.1
    ≡ₚ (Find (stubSession twoAirports) insertionSort_func false (request [7])
          secondFirst).1.1
  ∧ (numberPriced
       (Find (stubSession twoAirports) insertionSort_func false (request [7])
          inOrder).1.1 →
     rankKey
       <$> (Find (stubSession twoAirports) insertionSort_func false (request [7])
              inOrder).1.1
     = rankKey
         <$> (Find (stubSession twoAirports) insertionSort_func false (request [7])
                secondFirst).1.1
     ∧ ((∀ a b,
           a ∈ (Find (stubSession twoAirports) insertionSort_func false
                  (request [7]) inOrder).1.1 →
           b ∈ (Find (stubSession twoAirports) insertionSort_func false
                  (request [7]) inOrder).1.1 →
           rankKey a = rankKey b → a = b) →
        (Find (stubSession twoAirports) insertionSort_func false (request [7])
           inOrder).1.1
        = (Find (stubSession twoAirports) insertionSort_func false (request [7])
             secondFirst).1.1)).
Proof.
  apply (C8_same_results_up_to_ties (stubSession twoAirports) insertionSort_func
           false (request [7]) inOrder secondFirst _ _ None None
           (Find (stubSession twoAirports) insertionSort_func false (request [7])
              inOrder).2
           (Find (stubSession twoAirports) insertionSort_func false (request [7])
              secondFirst).2).
  - apply insertionSort_func_spec.
  - vm_compute. reflexivity.
  - vm_compute. reflexivity.
Defined.

(** C8 as stated fails on [twoAirports], whose two samples refine to
    Results that tie on price, dates and trip length and differ in their
    airport: with the tasks run in order the San Francisco Result arrives
    and stays first, with the second task run first the San Jose one does.
    It also fails on [mixed], where one Result has a NaN price and no two
    Results tie: the prices come out as 520, NaN, 510 with the tasks run
    in order and as NaN, 510, 520 with the second task run first. *)
Lemma C8_tied_results_follow_the_schedule :
  Result.SrcAirport
    <$> (Find (stubSession twoAirports) insertionSort_func false (request [7])
           inOrder).1.1
  = ["SFO"%string; "SJC"%string]
  ∧ Result.SrcAirport
      <$> (Find (stubSession twoAirports) insertionSort_func false (request [7])
             secondFirst).1.1
    = ["SJC"%string; "SFO"%string]
  ∧ (Find (stubSession twoAirports) insertionSort_func false (request [7])
       inOrder).1.1
    ≠ (Find (stubSession twoAirports) insertionSort_func false (request [7])
         secondFirst).1.1
  ∧ Result.Price
      <$> (Find (stubSession mixed) insertionSort_func false (request [7])
             inOrder).1.1
    = [Num 520; NaN; Num 510]
  ∧ Result.Price
      <$> (Find (stubSession mixed) insertionSort_func false (request [7])
             secondFirst).1.1
    = [NaN; Num 510; Num 520].
Proof.
  split; [vm_compute; reflexivity |]. split; [vm_compute; reflexivity |].
  split; [vm_compute; discriminate |].
  split; vm_compute; reflexivity.
Qed.

(** * Further properties *)

(** ** The order of the checks of validateArgs *)

(** X1: [validateArgs] reports the first check that fails, in the order
    trip lengths present, trip lengths positive, dates in order, source
    cities present, destination cities present: each message is returned
    exactly when its check fails and every earlier check passes. *)
Theorem validateArgs_reports_first_failure (args : Args.t) :
  (validateArgs args = Some "at least one trip length is required"%string
   ↔ Args.TripLengths args = [])
  ∧ (validateArgs args = Some "trip lengths must be positive"%string
     ↔ Args.TripLengths args ≠ []
       ∧ ∃ l, l ∈ Args.TripLengths args ∧ l ≤ 0)
  ∧ (validateArgs args = Some "rangeEndDate must be on or after rangeStartDate"%string
     ↔ Args.TripLengths args ≠ []
       ∧ (∀ l, l ∈ Args.TripLengths args → 0 < l)
       ∧ Args.RangeEndDate args < Args.RangeStartDate args)
  ∧ (validateArgs args = Some "at least one source city is required"%string
     ↔ Args.TripLengths args ≠ []
       ∧ (∀ l, l ∈ Args.TripLengths args → 0 < l)
       ∧ Args.RangeStartDate args ≤ Args.RangeEndDate args
       ∧ Args.SrcCities args = [])
  ∧ (validateArgs args = Some "at least one destination city is required"%string
     ↔ Args.TripLengths args ≠ []
       ∧ (∀ l, l ∈ Args.TripLengths args → 0 < l)
       ∧ Args.RangeStartDate args ≤ Args.RangeEndDate args
       ∧ Args.SrcCities args ≠ []
       ∧ Args.DstCities args = []).
Proof.
  unfold validateArgs, Time_Before.
  assert (∀ ls : list Z,
            existsb (λ l, l <=? 0) ls = false ↔ ∀ l, l ∈ ls → 0 < l) as Hpos.
  { intros ls. split.
    - intros Hex l Hl. destruct (decide (0 < l)) as [| Hn]; [done |].
      assert (existsb (λ l, l <=? 0) ls = true) as Htrue
        by (apply existsb_nonpositive; exists l; split; [done | lia]).
      congruence.
    - intros Hall. destruct (existsb _ ls) eqn:Hex; [| done].
      apply existsb_nonpositive in Hex as (l & Hl & Hle).
      specialize (Hall l Hl). lia. }
  case_bool_decide as Hlen; rewrite length_zero_iff_nil in Hlen;
    [| destruct (existsb _ _) eqn:Hex;
       [| pose proof (proj1 (Hpos _) Hex) as Hall;
          destruct (_ <? _) eqn:Hlt;
          [apply Z.ltb_lt in Hlt
          | apply Z.ltb_ge in Hlt;
            case_bool_decide as Hsrc; rewrite length_zero_iff_nil in Hsrc;
            [| case_bool_decide as Hdst; rewrite length_zero_iff_nil in Hdst]]]].
  all: try (apply existsb_nonpositive in Hex as (l0 & Hl0 & Hle0)).
  all: repeat split; try done; try (intros H; discriminate H); eauto.
  all: intros Hc; decompose [and ex] Hc; try done; try lia.
  all: match goal with
       | Ha : ∀ l, l ∈ _ → 0 < l, Hl : ?l ∈ _ |- _ => specialize (Ha l Hl); lia
       end.
Qed.

(** ** Which of several cheapest offers wins *)

Lemma bestOffer_step_firstCheapest (seen : list FullOffer.t)
  (bestOffer fullOffer : FullOffer.t) :
  pricesAreNumbers (seen ++ [fullOffer]) →
  (bestOffer = FullOffer.zero ∧ ∀ o, o ∈ seen → isZero (FullOffer.Price o))
  ∨ firstCheapest seen bestOffer →
  (bestOffer_step bestOffer fullOffer = FullOffer.zero
   ∧ ∀ o, o ∈ seen ++ [fullOffer] → isZero (FullOffer.Price o))
  ∨ firstCheapest (seen ++ [fullOffer]) (bestOffer_step bestOffer fullOffer).
Proof.
  unfold bestOffer_step. intros Hnum.
  intros [[-> Hzero] | (pre & post & -> & Hnz & Hpre & Hpost)].
  - destruct (float64_eq (FullOffer.Price fullOffer) 0) eqn:Hp.
    + left. split; [done |].
      intros o [Ho | ->%list_elem_of_singleton]%elem_of_app; [by apply Hzero | done].
    + right. simpl. exists seen, []. split; [done |]. split; [done |]. split.
      * intros o Ho. left. by apply Hzero.
      * intros o Ho. by apply elem_of_nil in Ho.
  - right. destruct (float64_eq (FullOffer.Price fullOffer) 0) eqn:Hp.
    + exists pre, (post ++ [fullOffer]). split; [by rewrite <- app_assoc |].
      split; [done |]. split; [done |].
      intros o [Ho | ->%list_elem_of_singleton]%elem_of_app; [by apply Hpost |].
      by left.
    + unfold nonZero in Hnz. rewrite Hnz. simpl.
      destruct (float64_lt (FullOffer.Price fullOffer) (FullOffer.Price bestOffer))
        eqn:Hlt.
      * exists (pre ++ bestOffer :: post), []. split; [done |]. split; [done |].
        split; [| intros o Ho; by apply elem_of_nil in Ho].
        intros o [Ho | Ho]%elem_of_app.
        -- destruct (Hpre o Ho) as [| Hbo]; [by left | right].
           by eapply float64_lt_trans.
        -- apply elem_of_cons in Ho as [-> | Ho]; [by right |].
           destruct (Hpost o Ho) as [| Hbo]; [by left | right].
           by eapply float64_lt_le_lt.
      * exists pre, (post ++ [fullOffer]). split; [by rewrite <- app_assoc |].
        split; [done |]. split; [done |].
        intros o [Ho | ->%list_elem_of_singleton]%elem_of_app; [by apply Hpost |].
        right. apply float64_not_lt_le; [| | done]; apply Hnum.
        -- apply elem_of_app. right. by left.
        -- apply elem_of_app. left. apply elem_of_app. right. by left.
Qed.

Lemma foldl_firstCheapest (more seen : list FullOffer.t) (bestOffer : FullOffer.t) :
  pricesAreNumbers (seen ++ more) →
  (bestOffer = FullOffer.zero ∧ ∀ o, o ∈ seen → isZero (FullOffer.Price o))
  ∨ firstCheapest seen bestOffer →
  (foldl bestOffer_step bestOffer more = FullOffer.zero
   ∧ ∀ o, o ∈ seen ++ more → isZero (FullOffer.Price o))
  ∨ firstCheapest (seen ++ more) (foldl bestOffer_step bestOffer more).
Proof.
  revert seen bestOffer.
  induction more as [| o more IH]; intros seen bestOffer Hnum Hb; simpl.
  - by rewrite app_nil_r.
  - replace (seen ++ o :: more) with ((seen ++ [o]) ++ more) in *
      by (by rewrite <- app_assoc).
    apply IH; [done |]. apply bestOffer_step_firstCheapest; [| done].
    intros o' Ho'. apply Hnum, elem_of_app. by left.
Qed.

(** X2: when no detailed offer has a NaN price, the winner is, among the
    offers of non-zero price, the cheapest, and of several that are
    equally cheap the one listed first: every offer before the winner is
    priced zero or strictly dearer, every offer after it is priced zero or
    at least as dear. *)
Theorem pickBestOffer_first_cheapest (fullOffers : list FullOffer.t) :
  pricesAreNumbers fullOffers →
  (∃ o, o ∈ fullOffers ∧ nonZero (FullOffer.Price o)) →
  firstCheapest fullOffers (pickBestOffer fullOffers).
Proof.
  intros Hnum (o & Ho & Hnz).
  destruct (foldl_firstCheapest fullOffers [] FullOffer.zero) as [[_ Hzero] | H].
  - done.
  - left. split; [done |]. intros o' Ho'. by apply elem_of_nil in Ho'.
  - destruct (isZero_nonZero _ (Hzero o Ho) Hnz).
  - exact H.
Qed.

Lemma pickBestOffer_first_cheapest_witness :
  firstCheapest tiedOffers (pickBestOffer tiedOffers).
Proof.
  apply pickBestOffer_first_cheapest.
  - intros o Ho. unfold tiedOffers in Ho.
    repeat (apply elem_of_cons in Ho as [-> | Ho]; [done |]).
    by apply elem_of_nil in Ho.
  - exists (itinerary (day 19875) (day 19882) "SJC" 500). split; [| done].
    apply list_elem_of_further, list_elem_of_here.
Defined.

(** Of the two offers at 500 in [tiedOffers], the San Jose one, listed
    first, wins. *)
Example tied_offers_first_wins :
  pickBestOffer tiedOffers = itinerary (day 19875) (day 19882) "SJC" 500.
Proof. vm_compute. reflexivity. Qed.

(** ** What a successful call returns *)

(** X3: every Result of a successful [Find] carries one of the requested
    trip lengths, the one of the search that produced it, and that trip
    length is positive. *)
Theorem Find_trip_length_is_requested
  (session : Session.t)
  (sort_Slice : (Result.t → Result.t → bool) → list Result.t → list Result.t)
  (ctx : Ctx) (args : Args.t) (sched : nat → list nat)
  (rs : list Result.t) (log : list (Z * list Call)) (r : Result.t) :
  SortSliceSpec sort_Slice →
  Find session sort_Slice ctx args sched = (rs, None, log) →
  r ∈ rs →
  Result.TripLength r ∈ Args.TripLengths args ∧ 0 < Result.TripLength r.
Proof.
  intros Hsort Hfind Hr.
  destruct (Find_elem session sort_Slice ctx args Hsort sched rs log r Hfind Hr)
    as (tripLength & offer & Htl & _ & Href).
  destruct Href as (fullOffers & pr0 & routeOffers & priceRange & url
                    & _ & _ & _ & _ & _ & ->).
  simpl. split; [done |].
  apply Find_success in Hfind as (Hvalid & _).
  pose proof (validateArgs_spec args) as Hspec. rewrite Hvalid in Hspec.
  destruct (decide (0 < tripLength)) as [| Hle]; [done |].
  destruct Hspec. right; left. exists tripLength. split; [done | lia].
Qed.

Lemma Find_trip_length_is_requested_witness :
  Result.TripLength
    (makeResult (itinerary (day 19875) (day 19882) "SFO" 500) 10
       "https://www.google.com/travel/flights")
  ∈ Args.TripLengths (request [10])
  ∧ 0 < Result.TripLength
          (makeResult (itinerary (day 19875) (day 19882) "SFO" 500) 10
             "https://www.google.com/travel/flights").
Proof.
  apply (Find_trip_length_is_requested (stubSession twoAirports)
           insertionSort_func false (request [10]) inOrder
           (Find (stubSession twoAirports) insertionSort_func false
              (request [10]) inOrder).1.1
           (Find (stubSession twoAirports) insertionSort_func false
              (request [10]) inOrder).2).
  - apply insertionSort_func_spec.
  - vm_compute. reflexivity.
  - vm_compute. left.
Defined.

(** The trip length of a Result is the requested one even where the dates
    of the winning offer lie seven days apart and ten were asked for. *)
Example trip_length_is_not_measured :
  (λ r, (Result.TripLength r, Result.ReturnDate r - Result.StartDate r))
    <$> (Find (stubSession twoAirports) insertionSort_func false
           (request [10]) inOrder).1.1
  = [(10, day 7); (10, day 7)].
Proof. vm_compute. reflexivity. Qed.

(** X4: the link of every Result of a successful [Find] is the one that
    the client's link operation returns for that Result's own dates and
    airport pair, the arguments of its baseline query. *)
Theorem Find_link_is_for_the_result
  (session : Session.t)
  (sort_Slice : (Result.t → Result.t → bool) → list Result.t → list Result.t)
  (ctx : Ctx) (args : Args.t) (sched : nat → list nat)
  (rs : list Result.t) (log : list (Z * list Call)) (r : Result.t) :
  SortSliceSpec sort_Slice →
  Find session sort_Slice ctx args sched = (rs, None, log) →
  r ∈ rs →
  Session.SerializeURL session ctx (resultRoute args r)
  = (Result.ShareableLink r, None).
Proof.
  intros Hsort Hfind Hr.
  destruct (Find_elem session sort_Slice ctx args Hsort sched rs log r Hfind Hr)
    as (tripLength & offer & _ & _ & Href).
  destruct Href as (fullOffers & pr0 & routeOffers & priceRange & url
                    & _ & _ & _ & _ & Hurl & ->).
  exact Hurl.
Qed.

Lemma Find_link_is_for_the_result_witness :
  Session.SerializeURL (stubSession (bargain 600)) false
    (resultRoute (request [7])
       (makeResult (itinerary (day 19875) (day 19882) "SFO" 500) 7
          "https://www.google.com/travel/flights"))
  = (Result.ShareableLink
       (makeResult (itinerary (day 19875) (day 19882) "SFO" 500) 7
          "https://www.google.com/travel/flights"), None).
Proof.
  apply (Find_link_is_for_the_result (stubSession (bargain 600))
           insertionSort_func false (request [7]) inOrder
           (Find (stubSession (bargain 600)) insertionSort_func false
              (request [7]) inOrder).1.1
           (Find (stubSession (bargain 600)) insertionSort_func false
              (request [7]) inOrder).2).
  - apply insertionSort_func_spec.
  - vm_compute. reflexivity.
  - vm_compute. left.
Defined.

Lemma refinedFrom_refine (session : Session.t) (args : Args.t) (tripLength : Z)
  (c : Ctx) (offer : Offer.t) (r : Result.t) :
  refinedFrom session args tripLength c offer r →
  refine session args tripLength c offer = [sendResult r].
Proof.
  intros (fullOffers & pr0 & routeOffers & priceRange & url
          & Hget & Hnz & Hroute & Hlt & Hurl & ->).
  unfold refine. unfold nonZero in Hnz. rewrite Hget, Hnz.
  unfold baselineStage. rewrite Hroute, Hlt.
  unfold linkStage. by rewrite Hurl.
Qed.

(** X5: a successful [Find] leaves no bargain out, under every schedule:
    for every requested trip length and every sample of its price graph
    whose winning detailed offer is priced under the low bound of its
    baseline (more exactly: is not taken for zero and is not found greater
    than or equal to that bound), the Result built from that winner is in
    the output. *)
Theorem Find_returns_every_bargain
  (session : Session.t)
  (sort_Slice : (Result.t → Result.t → bool) → list Result.t → list Result.t)
  (ctx : Ctx) (args : Args.t) (sched : nat → list nat)
  (rs : list Result.t) (log : list (Z * list Call))
  (tripLength : Z) (offer : Offer.t) (r : Result.t) :
  SortSliceSpec sort_Slice →
  Find session sort_Slice ctx args sched = (rs, None, log) →
  tripLength ∈ Args.TripLengths args →
  offer ∈ (Session.GetPriceGraph session ctx (priceGraphArgs args tripLength)).1 →
  refinedFrom session args tripLength ctx offer r →
  r ∈ rs.
Proof.
  intros Hsort (_ & _ & allResults & -> & Hperm)%Find_success Htl Hoffer Href.
  rewrite (sort_Slice_perm _ Hsort), Hperm.
  apply elem_of_concat. exists (qualifying session ctx args tripLength).
  split; [| by apply list_elem_of_fmap_2].
  unfold qualifying, sampleItems.
  apply list_elem_of_fmap. exists (sendResult r). split; [done |].
  apply elem_of_concat. exists (refine session args tripLength ctx offer).
  split; [| by apply list_elem_of_fmap_2].
  rewrite (refinedFrom_refine _ _ _ _ _ r Href). by left.
Qed.

Lemma Find_returns_every_bargain_witness :
  makeResult (itinerary (day 19875) (day 19882) "SJC" 500) 7
    "https://www.google.com/travel/flights"
  ∈ (Find (stubSession twoAirports) insertionSort_func false (request [7])
       secondFirst).1.1.
Proof.
  apply (Find_returns_every_bargain (stubSession twoAirports) insertionSort_func
           false (request [7]) secondFirst _
           (Find (stubSession twoAirports) insertionSort_func false (request [7])
              secondFirst).2
           7 (sample 19876 7)).
  - apply insertionSort_func_spec.
  - vm_compute. reflexivity.
  - left.
  - vm_compute. right. left.
  - exists [itinerary (day 19875) (day 19882) "SJC" 500], None, [],
      {| PriceRange.Low := 600; PriceRange.High := 900 |},
      "https://www.google.com/travel/flights"%string.
    vm_compute. repeat split; try reflexivity; discriminate.
Defined.

(** ** The calls of a search *)

Section Calls.

Variable session : Session.t.
Variable ctx : Ctx.
Variable args : Args.t.
Variable tripLength : Z.

Lemma task_step_callsLeft (c : Ctx) (t : task) :
  (length (called (task_step session args tripLength c t))
   + length (callsLeft (next (task_step session args tripLength c t)))
   ≤ length (callsLeft t))%nat.
Proof. destruct t; simpl; repeat case_match; simpl; lia. Qed.

Lemma step_callsLeft (st : search) (i : nat) :
  (length (calls (step session ctx args tripLength st i))
   + length (concat (callsLeft <$> tasks (step session ctx args tripLength st i)))
   ≤ length (calls st) + length (concat (callsLeft <$> tasks st)))%nat.
Proof.
  unfold step. destruct (tasks st !! i) as [t|] eqn:Hi; [| done]. simpl.
  pose proof (concat_fmap_insert callsLeft (tasks st) i t
                (next (task_step session args tripLength (ctxWithCancel ctx st) t)) Hi)
    as Hins.
  apply Permutation_length in Hins. rewrite !length_app in Hins.
  pose proof (task_step_callsLeft (ctxWithCancel ctx st) t) as Hcalls.
  rewrite length_app. lia.
Qed.

Lemma run_callsLeft (sched : list nat) (st : search) :
  (length (calls (run session ctx args tripLength sched st))
   + length (concat (callsLeft <$> tasks (run session ctx args tripLength sched st)))
   ≤ length (calls st) + length (concat (callsLeft <$> tasks st)))%nat.
Proof.
  unfold run. revert st.
  induction sched as [| i sched IH]; intros st; simpl; [done |].
  etrans; [apply IH | apply step_callsLeft].
Qed.

Lemma spawn_callsLeft (priceGraphOffers : list Offer.t) :
  length (concat (callsLeft <$> tasks (spawn priceGraphOffers)))
  = (3 * length priceGraphOffers)%nat.
Proof.
  unfold spawn. simpl.
  induction priceGraphOffers as [| o l IH]; [done |]. csimpl. rewrite IH. lia.
Qed.

Lemma task_step_refinementCall (c : Ctx) (t : task) :
  Forall (refinementCall args) (called (task_step session args tripLength c t)).
Proof.
  assert (∀ c' offer,
            refinementCall args (CallGetOffers c' (offersArgs args offer)))
    as Hcities by (intros; left; by unfold citiesQuery).
  assert (∀ c' bestOffer,
            refinementCall args (CallGetOffers c' (routeArgs args bestOffer)))
    as Hroute by (intros; right; unfold routeQuery; simpl; eauto 10).
  assert (∀ c' bestOffer,
            refinementCall args (CallSerializeURL c' (routeArgs args bestOffer)))
    as Hlink by (intros; unfold refinementCall, routeQuery; simpl; eauto 10).
  destruct t as [offer | bestOffer | bestOffer | e | item |]; simpl;
    repeat case_match; simpl;
    first [apply Forall_nil_2 | apply Forall_singleton; auto].
Qed.

Lemma run_refinementCall (sched : list nat) (st : search) :
  Forall (refinementCall args) (calls st) →
  Forall (refinementCall args) (calls (run session ctx args tripLength sched st)).
Proof.
  unfold run. revert st.
  induction sched as [| i sched IH]; intros st Hst; simpl; [done |].
  apply IH. unfold step. destruct (tasks st !! i) as [t|]; [| done]. simpl.
  apply Forall_app. split; [done | apply task_step_refinementCall].
Qed.

Lemma task_step_clientError (c : Ctx) (t : task) :
  carriesClientError session t →
  carriesClientError session (next (task_step session args tripLength c t))
  ∧ Forall (λ item, ∀ e, resultOrError.err item = Some e →
                         returnedByClient session e)
      (sends (task_step session args tripLength c t)).
Proof.
  destruct t as [offer | bestOffer | bestOffer | e | item |]; simpl; intros Ht.
  - destruct (Session.GetOffers session c (offersArgs args offer))
      as [[fullOffers pr0] [e|]] eqn:Hget; simpl.
    + split; [| done]. right; left. exists c, (offersArgs args offer).
      by rewrite Hget.
    + by destruct (float64_eq _ _).
  - destruct (Session.GetOffers session c (routeArgs args bestOffer))
      as [[routeOffers [pr|]] [e|]] eqn:Hget; simpl; try done.
    + split; [| done]. right; left. exists c, (routeArgs args bestOffer).
      by rewrite Hget.
    + by destruct (float64_ge _ _).
    + split; [| done]. right; left. exists c, (routeArgs args bestOffer).
      by rewrite Hget.
  - destruct (Session.SerializeURL session c (routeArgs args bestOffer))
      as [url [e|]] eqn:Hurl; simpl.
    + split; [| done]. right; right. exists c, (routeArgs args bestOffer).
      by rewrite Hurl.
    + split; [| done]. intros e He. discriminate He.
  - split; [| done]. by intros e' [= <-].
  - split; [done |]. by constructor.
  - done.
Qed.

Lemma run_clientErrors (sched : list nat) (st : search) :
  clientErrors session st →
  clientErrors session (run session ctx args tripLength sched st).
Proof.
  unfold run. revert st.
  induction sched as [| i sched IH]; intros st Hst; simpl; [done |].
  apply IH. destruct Hst as [Ht Hch]. unfold step.
  destruct (tasks st !! i) as [t|] eqn:Hi; [| done].
  destruct (task_step_clientError (ctxWithCancel ctx st) t) as [Hnext Hsends].
  { by eapply Forall_lookup_1. }
  split; simpl; [by apply Forall_insert | by apply Forall_app].
Qed.

Lemma spawn_clientErrors (priceGraphOffers : list Offer.t) :
  clientErrors session (spawn priceGraphOffers).
Proof.
  split; simpl; [| constructor]. apply Forall_fmap, Forall_forall. by intros.
Qed.

Lemma run_no_tasks (sched : list nat) :
  run session ctx args tripLength sched (spawn []) = spawn [].
Proof.
  unfold run. induction sched as [| i sched IH]; simpl; [done |]. exact IH.
Qed.

End Calls.

(** X6: whatever the schedule, a search makes at most one pricing-client
    call for the price graph and three for each of its samples (detailed
    offers, baseline, link). *)
Theorem findForTripLength_call_budget
  (session : Session.t) (ctx : Ctx) (args : Args.t)
  (sched : list nat) (tripLength : Z) :
  (length (findForTripLength session ctx args sched tripLength).2
   ≤ 1 + 3 * length (Session.GetPriceGraph session ctx
                       (priceGraphArgs args tripLength)).1)%nat.
Proof.
  unfold findForTripLength.
  destruct (Session.GetPriceGraph session ctx _) as [priceGraphOffers [e|]];
    simpl; [lia |].
  pose proof (run_callsLeft session ctx args tripLength
                (sched ++ completion (length priceGraphOffers))
                (spawn priceGraphOffers)) as Hrun.
  rewrite spawn_callsLeft in Hrun. simpl in Hrun.
  unfold finalState. lia.
Qed.

(** The budget is met when the only sample qualifies: four calls. *)
Example call_budget_is_tight :
  length (findForTripLength (stubSession (bargain 600)) false (request [7]) [] 7).2
  = 4%nat.
Proof. vm_compute. reflexivity. Qed.

Lemma findForTripLength_searchCalls
  (session : Session.t) (ctx : Ctx) (args : Args.t)
  (sched : list nat) (tripLength : Z) :
  searchCalls ctx args
    (tripLength, (findForTripLength session ctx args sched tripLength).2).
Proof.
  unfold searchCalls, findForTripLength. simpl.
  destruct (Session.GetPriceGraph session ctx _) as [priceGraphOffers [e|]]; simpl.
  - by exists [].
  - eexists. split; [done |]. by apply run_refinementCall.
Qed.

(** A property of the entries that the searches add to the log holds of
    the whole log. *)
Lemma searchTripLengths_log
  (session : Session.t) (ctx : Ctx) (args : Args.t)
  (P : Z * list Call → Prop) (sched : nat → list nat)
  (tripLengths : list Z) (k : nat) (acc : list Result.t)
  (log : list (Z * list Call)) :
  (∀ k' tl, tl ∈ tripLengths →
     (findForTripLength session ctx args (sched k') tl).1.2 = None
     ∨ (searchTripLengths session ctx args sched k tripLengths acc log).1.2 ≠ None →
     P (tl, (findForTripLength session ctx args (sched k') tl).2)) →
  Forall P log →
  Forall P (searchTripLengths session ctx args sched k tripLengths acc log).2.
Proof.
  revert k acc log.
  induction tripLengths as [| tl rest IH]; intros k acc log HP Hlog; simpl;
    [done |].
  simpl in HP.
  destruct (findForTripLength session ctx args (sched k) tl)
    as [[partial [e|]] cs] eqn:Hfind; simpl.
  - apply Forall_app. split; [done |]. apply Forall_singleton.
    specialize (HP k tl). rewrite Hfind in HP. apply HP; [by left |].
    by right.
  - apply IH.
    + intros k' tl' Htl' Hcase. apply HP; [by right |]. exact Hcase.
    + apply Forall_app. split; [done |]. apply Forall_singleton.
      specialize (HP k tl). rewrite Hfind in HP. apply HP; [by left |].
      by left.
Qed.

Lemma Find_searchCalls
  (session : Session.t)
  (sort_Slice : (Result.t → Result.t → bool) → list Result.t → list Result.t)
  (ctx : Ctx) (args : Args.t) (sched : nat → list nat) :
  Forall (searchCalls ctx args) (Find session sort_Slice ctx args sched).2.
Proof.
  assert (Forall (searchCalls ctx args)
            (searchTripLengths session ctx args sched 0 (Args.TripLengths args)
               [] []).2) as Hlog.
  { apply searchTripLengths_log; [| constructor].
    intros k tl _ _. apply findForTripLength_searchCalls. }
  unfold Find. destruct (validateArgs args); [constructor |].
  destruct (searchTripLengths _ _ _ _ _ _ _ _) as [[allResults [e|]] log]; done.
Qed.

(** X7: in every search that [Find] starts, the first call is the
    price-graph lookup for that trip length over the request's whole date
    range and city sets, and every other call is either a detailed-offer
    query by the request's city sets with no airports, or a query for
    exactly one source and one destination airport with no cities; every
    call carries the request's options. *)
Theorem Find_log_calls
  (session : Session.t)
  (sort_Slice : (Result.t → Result.t → bool) → list Result.t → list Result.t)
  (ctx : Ctx) (args : Args.t) (sched : nat → list nat) :
  Forall (searchCalls ctx args) (Find session sort_Slice ctx args sched).2
  ∧ ∀ tripLength,
      PriceGraphArgs.Options (priceGraphArgs args tripLength) = Args.Options args
      ∧ PriceGraphArgs.RangeStartDate (priceGraphArgs args tripLength)
        = Args.RangeStartDate args
      ∧ PriceGraphArgs.RangeEndDate (priceGraphArgs args tripLength)
        = Args.RangeEndDate args
      ∧ PriceGraphArgs.SrcCities (priceGraphArgs args tripLength)
        = Args.SrcCities args
      ∧ PriceGraphArgs.DstCities (priceGraphArgs args tripLength)
        = Args.DstCities args
      ∧ PriceGraphArgs.TripLength (priceGraphArgs args tripLength) = tripLength.
Proof.
  split; [| done].
  assert (Forall (searchCalls ctx args)
            (searchTripLengths session ctx args sched 0 (Args.TripLengths args)
               [] []).2) as Hlog.
  { apply searchTripLengths_log; [| constructor].
    intros k tl _ _. unfold searchCalls, findForTripLength. simpl.
    destruct (Session.GetPriceGraph session ctx _) as [priceGraphOffers [e|]];
      simpl; [by exists [] |].
    eexists. split; [done |]. by apply run_refinementCall. }
  unfold Find. destruct (validateArgs args); [constructor |].
  destruct (searchTripLengths _ _ _ _ _ _ _ _) as [[allResults [e|]] log]; done.
Qed.

(** X8: in a successful call of [Find] no search is ever cancelled by one
    of its tasks: whatever the schedule, when the search of a requested
    trip length returns, [cancel()] has not been called by any of its
    tasks. *)
Theorem Find_success_is_never_cancelled
  (session : Session.t)
  (sort_Slice : (Result.t → Result.t → bool) → list Result.t → list Result.t)
  (ctx : Ctx) (args : Args.t) (sched : nat → list nat)
  (rs : list Result.t) (log : list (Z * list Call)) :
  Find session sort_Slice ctx args sched = (rs, None, log) →
  ∀ k tripLength,
    tripLength ∈ Args.TripLengths args →
    cancelled (finalState session ctx args (sched k) tripLength
                 (Session.GetPriceGraph session ctx
                    (priceGraphArgs args tripLength)).1) = false.
Proof.
  intros Hfind k tripLength Htl.
  pose proof (Find_success _ _ _ _ _ _ _ Hfind) as (_ & Hok & _).
  rewrite Forall_forall in Hok. destruct (Hok _ Htl) as [_ Hall].
  by destruct (finalState_quiet session ctx args tripLength (sched k) _ Hall).
Qed.

Lemma Find_success_is_never_cancelled_witness :
  cancelled (finalState (stubSession twoAirports) false (request [7; 10])
               (secondFirst 1) 10
               (Session.GetPriceGraph (stubSession twoAirports) false
                  (priceGraphArgs (request [7; 10]) 10)).1) = false.
Proof.
  apply (Find_success_is_never_cancelled (stubSession twoAirports)
           insertionSort_func false (request [7; 10]) secondFirst
           (Find (stubSession twoAirports) insertionSort_func false
              (request [7; 10]) secondFirst).1.1
           (Find (stubSession twoAirports) insertionSort_func false
              (request [7; 10]) secondFirst).2).
  - vm_compute. reflexivity.
  - apply list_elem_of_further, list_elem_of_here.
Defined.

(** X9: results and an error never come together: under every schedule
    [findForTripLength] returns no Result or no error, and so does
    [Find]. *)
Theorem results_or_error_never_both
  (session : Session.t)
  (sort_Slice : (Result.t → Result.t → bool) → list Result.t → list Result.t)
  (ctx : Ctx) (args : Args.t) :
  (∀ (sched : list nat) (tripLength : Z),
     (findForTripLength session ctx args sched tripLength).1.1 = []
     ∨ (findForTripLength session ctx args sched tripLength).1.2 = None)
  ∧ (∀ sched : nat → list nat,
       (Find session sort_Slice ctx args sched).1.1 = []
       ∨ (Find session sort_Slice ctx args sched).1.2 = None).
Proof.
  split.
  - intros sched tripLength. unfold findForTripLength.
    destruct (Session.GetPriceGraph session ctx _) as [priceGraphOffers [e|]];
      simpl; [by left |].
    destruct (first_error_split
                (resultsCh (finalState session ctx args sched tripLength
                              priceGraphOffers)))
      as [Hall | (pre & item & post & e & -> & Hpre & Hitem)].
    + right. by rewrite collect_results.
    + left. by erewrite collect_first_error.
  - intros sched.
    destruct (Find session sort_Slice ctx args sched) as [[rs [e|]] log] eqn:Hfind;
      simpl; [left | by right].
    by eapply Find_error_nil.
Qed.

(** With [flaky], two seven-night tasks are cancelled after they could
    have qualified and the first fails: nothing is returned but the error. *)
Example partial_results_are_dropped :
  (findForTripLength (stubSession flaky) false (request [7]) [] 7).1
  = ([], Some "rate limited"%string).
Proof. vm_compute. reflexivity. Qed.

Lemma searchTripLengths_started
  (session : Session.t) (ctx : Ctx) (args : Args.t) (sched : nat → list nat)
  (tripLengths : list Z) (k : nat) (acc : list Result.t)
  (log : list (Z * list Call)) :
  ∃ started,
    (searchTripLengths session ctx args sched k tripLengths acc log).2.*1
    = log.*1 ++ started
    ∧ started `prefix_of` tripLengths
    ∧ ((searchTripLengths session ctx args sched k tripLengths acc log).1.2 = None →
       started = tripLengths).
Proof.
  revert k acc log.
  induction tripLengths as [| tl rest IH]; intros k acc log; simpl.
  - exists []. by rewrite app_nil_r.
  - destruct (findForTripLength session ctx args (sched k) tl)
      as [[partial [e|]] cs]; simpl.
    + exists [tl]. rewrite fmap_app. split; [done |].
      split; [by exists rest | done].
    + destruct (IH (S k) (acc ++ partial) (log ++ [(tl, cs)]))
        as (started & Hlog & Hpre & Hall).
      exists (tl :: started). rewrite Hlog, fmap_app, <- app_assoc.
      split; [done |]. split; [by apply prefix_cons |].
      intros Hnone. by rewrite Hall.
Qed.

(** X10: [Find] starts its searches in request order, one per trip
    length and each at most once: the trip lengths of the searches started
    are an initial part of the requested ones, and all of them when the
    call succeeds. *)
Theorem Find_searches_in_request_order
  (session : Session.t)
  (sort_Slice : (Result.t → Result.t → bool) → list Result.t → list Result.t)
  (ctx : Ctx) (args : Args.t) (sched : nat → list nat) :
  (Find session sort_Slice ctx args sched).2.*1 `prefix_of` Args.TripLengths args
  ∧ ((Find session sort_Slice ctx args sched).1.2 = None →
     (Find session sort_Slice ctx args sched).2.*1 = Args.TripLengths args).
Proof.
  destruct (searchTripLengths_started session ctx args sched
              (Args.TripLengths args) 0 [] [])
    as (started & Hlog & Hpre & Hall).
  unfold Find. destruct (validateArgs args); simpl.
  { split; [apply prefix_nil | discriminate]. }
  destruct (searchTripLengths _ _ _ _ _ _ _ _) as [[allResults [e|]] log];
    simpl in *; rewrite Hlog.
  - split; [done | discriminate].
  - split; [done |]. intros _. by apply Hall.
Qed.

(** X11: a price graph without samples gives a successful search with no
    Result and no call beyond the price-graph lookup, under every
    schedule; a failed price-graph lookup gives its own error, no Result
    and no further call. *)
Theorem findForTripLength_without_samples
  (session : Session.t) (ctx : Ctx) (args : Args.t)
  (sched : list nat) (tripLength : Z) :
  (Session.GetPriceGraph session ctx (priceGraphArgs args tripLength) = ([], None) →
   findForTripLength session ctx args sched tripLength
   = ([], None, [CallGetPriceGraph ctx (priceGraphArgs args tripLength)]))
  ∧ (∀ priceGraphOffers e,
       Session.GetPriceGraph session ctx (priceGraphArgs args tripLength)
       = (priceGraphOffers, Some e) →
       findForTripLength session ctx args sched tripLength
       = ([], Some e, [CallGetPriceGraph ctx (priceGraphArgs args tripLength)])).
Proof.
  split.
  - intros Hgraph. unfold findForTripLength. rewrite Hgraph.
    unfold finalState. simpl. by rewrite app_nil_r, run_no_tasks.
  - intros priceGraphOffers e Hgraph. unfold findForTripLength. by rewrite Hgraph.
Qed.

Lemma findForTripLength_without_samples_witness :
  findForTripLength (stubSession sparse) false (request [7]) [0; 3; 0]%nat 7
  = ([], None, [CallGetPriceGraph false (priceGraphArgs (request [7]) 7)]).
Proof.
  apply (findForTripLength_without_samples (stubSession sparse) false
           (request [7]) [0; 3; 0]%nat 7).
  reflexivity.
Defined.

(** ** Where errors come from *)

Lemma findForTripLength_error_from_client
  (session : Session.t) (ctx : Ctx) (args : Args.t)
  (sched : list nat) (tripLength : Z) (e : error) :
  (findForTripLength session ctx args sched tripLength).1.2 = Some e →
  returnedByClient session e.
Proof.
  unfold findForTripLength.
  destruct (Session.GetPriceGraph session ctx (priceGraphArgs args tripLength))
    as [priceGraphOffers [e'|]] eqn:Hgraph; simpl.
  - intros [= <-]. left. exists ctx, (priceGraphArgs args tripLength).
    by rewrite Hgraph.
  - destruct (first_error_split
                (resultsCh (finalState session ctx args sched tripLength
                              priceGraphOffers)))
      as [Hall | (pre & item & post & e' & Hch & Hpre & Hitem)].
    + by rewrite collect_results.
    + rewrite Hch. erewrite collect_first_error by done. simpl. intros [= <-].
      destruct (run_clientErrors session ctx args tripLength
                  (sched ++ completion (length priceGraphOffers))
                  (spawn priceGraphOffers) (spawn_clientErrors _ _))
        as [_ Hitems].
      fold (finalState session ctx args sched tripLength priceGraphOffers) in Hitems.
      rewrite Hch, Forall_forall in Hitems. apply (Hitems item); [| done].
      apply elem_of_app. right. by left.
Qed.

Lemma searchTripLengths_error_from_search
  (session : Session.t) (ctx : Ctx) (args : Args.t) (sched : nat → list nat)
  (tripLengths : list Z) (k : nat) (acc : list Result.t)
  (log : list (Z * list Call)) (e : error) :
  (searchTripLengths session ctx args sched k tripLengths acc log).1.2 = Some e →
  ∃ k' tl, tl ∈ tripLengths
           ∧ (findForTripLength session ctx args (sched k') tl).1.2 = Some e.
Proof.
  revert k acc log.
  induction tripLengths as [| tl rest IH]; intros k acc log; simpl; [done |].
  destruct (findForTripLength session ctx args (sched k) tl)
    as [[partial [e'|]] cs] eqn:Hfind; simpl.
  - intros [= <-]. exists k, tl. split; [by left |]. by rewrite Hfind.
  - intros (k' & tl' & Htl' & He)%IH. exists k', tl'. split; [by right | done].
Qed.

(** X12: [Find] invents no error: the error of a failing call is either
    one of the five messages of [validateArgs] or an error that the
    pricing client returned to a price-graph, offers or link call. *)
Theorem Find_error_is_validation_or_client
  (session : Session.t)
  (sort_Slice : (Result.t → Result.t → bool) → list Result.t → list Result.t)
  (ctx : Ctx) (args : Args.t) (sched : nat → list nat)
  (rs : list Result.t) (e : error) (log : list (Z * list Call)) :
  Find session sort_Slice ctx args sched = (rs, Some e, log) →
  InvalidRequest e ∨ returnedByClient session e.
Proof.
  unfold Find. pose proof (validateArgs_spec args) as Hspec.
  destruct (validateArgs args) as [e'|].
  - intros [= _ <- _]. left. by destruct Hspec.
  - destruct (searchTripLengths _ _ _ _ _ _ _ _) as [[allResults [e'|]] log']
      eqn:Hs; [| discriminate].
    intros [= _ <- _]. right.
    destruct (searchTripLengths_error_from_search session ctx args sched
                (Args.TripLengths args) 0 [] [] e') as (k & tl & _ & He).
    { by rewrite Hs. }
    by eapply findForTripLength_error_from_client.
Qed.

Lemma Find_error_is_validation_or_client_witness :
  InvalidRequest "rate limited"%string
  ∨ returnedByClient (stubSession flaky) "rate limited"%string.
Proof.
  apply (Find_error_is_validation_or_client (stubSession flaky)
           insertionSort_func false (request [5; 7; 10]) inOrder []
           "rate limited"%string
           (Find (stubSession flaky) insertionSort_func false
              (request [5; 7; 10]) inOrder).2).
  vm_compute. reflexivity.
Defined.

(** ** The comparator *)

(** X13: on Results whose prices are numbers the comparator of [Find] is
    a transitive ordering, as [sort.Slice] requires, and it leaves two such
    Results unordered exactly when they agree on price, departure date,
    return date and trip length; two that differ in one of these are
    ordered one way and not the other.  A Result whose price is NaN is
    unordered with every Result, and on a slice that holds one between
    Results of different prices the comparator is not a transitive
    ordering. *)
Theorem less_orders_by_rank_key :
  (∀ l, numberPriced l → StrictWeakOrderOn less l)
  ∧ (∀ a b, isNumber (Result.Price a) → isNumber (Result.Price b) →
       (less a b = false ∧ less b a = false ↔ rankKey a = rankKey b))
  ∧ (∀ a b, isNumber (Result.Price a) → isNumber (Result.Price b) →
       rankKey a ≠ rankKey b →
       (less a b = true ∧ less b a = false)
       ∨ (less b a = true ∧ less a b = false))
  ∧ (∀ a b, Result.Price a = NaN → less a b = false ∧ less b a = false)
  ∧ ¬ StrictWeakOrderOn less mixedResults.
Proof.
  split; [apply less_StrictWeakOrderOn |].
  assert (∀ a b, isNumber (Result.Price a) → isNumber (Result.Price b) →
            (less a b = false ∧ less b a = false ↔ rankKey a = rankKey b))
    as Hties.
  { intros a b Ha Hb. rewrite !less_false_rankLe by done. unfold rankLe. split.
    - intros [Hba Hab]. by apply keyLe_antisym.
    - intros ->. destruct (keyLe_total (rankKey b) (rankKey b)); done. }
  split; [exact Hties |]. split; [| split; [apply less_NaN |]].
  - intros a b Ha Hb Hne.
    assert (numberPriced [a; b]) as Hnum.
    { intros r Hr. apply elem_of_cons in Hr as [-> | Hr]; [done |].
      by apply list_elem_of_singleton in Hr as ->. }
    pose proof (less_StrictWeakOrderOn [a; b] Hnum) as Hswo.
    assert (a ∈ [a; b]) as Hina by (by left).
    assert (b ∈ [a; b]) as Hinb by (right; by left).
    destruct (less a b) eqn:Hab, (less b a) eqn:Hba.
    + pose proof (lt_trans less _ Hswo a b a Hina Hinb Hina Hab Hba) as Haa.
      by rewrite (lt_irrefl less _ Hswo) in Haa.
    + by left.
    + by right.
    + destruct Hne. by apply Hties.
  - intros Hswo.
    assert (∃ a b c, a ∈ mixedResults ∧ b ∈ mixedResults ∧ c ∈ mixedResults
                     ∧ less c b = false ∧ less b a = false ∧ less c a = true)
      as (a & b & c & Ha & Hb & Hc & Hcb & Hba & Hca).
    { eexists _, _, _. split; [by left |].
      split; [right; by left |]. split; [right; right; by left |].
      repeat split; reflexivity. }
    pose proof (lt_incomp_trans less _ Hswo c b a Hc Hb Ha Hcb Hba). congruence.
Qed.

(** ** The tool front end *)

(** What a request that passes the handler's own checks is turned into. *)
Lemma parseParams_spec (std : Std.t) (params : findCheapestOffersParams.t) :
  match parseParams std params with
  | inl _ => rejected std params
  | inr (args, curr) =>
      ¬ rejected std params
      ∧ Std.time_Parse std (findCheapestOffersParams.RangeStartDate params)
        = (Args.RangeStartDate args, None)
      ∧ Std.time_Parse std (findCheapestOffersParams.RangeEndDate params)
        = (Args.RangeEndDate args, None)
      ∧ Args.TripLengths args = findCheapestOffersParams.TripLengths params
      ∧ Args.SrcCities args = findCheapestOffersParams.SrcCities params
      ∧ Args.DstCities args = findCheapestOffersParams.DstCities params
      ∧ Options.Currency (Args.Options args) = curr
      ∧ Options.Stops (Args.Options args) = AnyStops
      ∧ Options.Class (Args.Options args) = Economy
      ∧ Options.TripType (Args.Options args) = RoundTrip
      ∧ Travelers.Adults (Options.Travelers (Args.Options args))
        = (if findCheapestOffersParams.Adults params =? 0 then 1
           else findCheapestOffersParams.Adults params)
      ∧ (findCheapestOffersParams.Language params = ""%string →
         Options.Lang (Args.Options args) = language_English)
      ∧ (findCheapestOffersParams.Currency params = ""%string →
         curr = currency_USD)
  end.
Proof.
  unfold parseParams, rejected.
  destruct (Std.time_Parse std (findCheapestOffersParams.RangeStartDate params))
    as [startDate [e|]]; simpl; [by left |].
  destruct (Std.time_Parse std (findCheapestOffersParams.RangeEndDate params))
    as [endDate [e|]]; simpl; [by right; left |].
  case_bool_decide as Hlen; rewrite length_zero_iff_nil in Hlen;
    [by do 2 right; left |].
  destruct (existsb _ _) eqn:Hex;
    [do 3 right; left; by apply existsb_nonpositive |].
  case_bool_decide as Hsrc; rewrite length_zero_iff_nil in Hsrc;
    [by do 4 right; left |].
  case_bool_decide as Hdst; rewrite length_zero_iff_nil in Hdst;
    [by do 5 right; left |].
  assert (¬ ∃ l, l ∈ findCheapestOffersParams.TripLengths params ∧ l ≤ 0) as Hpos.
  { intros Hl%existsb_nonpositive. congruence. }
  assert (¬ (if findCheapestOffersParams.Adults params =? 0 then 1
             else findCheapestOffersParams.Adults params) < 0
          → ¬ findCheapestOffersParams.Adults params < 0) as Hadults0.
  { destruct (_ =? 0) eqn:Hz; lia. }
  assert ((if findCheapestOffersParams.Adults params =? 0 then 1
           else findCheapestOffersParams.Adults params) < 0
          → findCheapestOffersParams.Adults params < 0) as Hadults1.
  { destruct (_ =? 0) eqn:Hz; lia. }
  case_bool_decide as Hlang;
    [destruct (Std.language_Parse std _) as [lang [e|]] eqn:Hparse; simpl;
       [do 6 right; left; by split |] |];
    (case_bool_decide as Hcurr;
       [destruct (Std.currency_ParseISO std _) as [curr [e|]] eqn:Hiso; simpl;
          [do 7 right; left; by split |] |]);
    (destruct (_ <? 0) eqn:Hadults;
       [do 8 right; apply Hadults1; lia |]);
    (repeat split; try done;
     intros [H|[H|[H|[H|[H|[H|[[H1 H2]|[[H1 H2]|H]]]]]]]]; try done;
     apply Hadults0 in H; [done | lia]).
Qed.

(** X14: the handler fails on its own checks, without calling [Find] and
    so without any pricing-client call, exactly when a date does not
    parse, no trip length is given, a trip length is at most 0, no source
    or no destination city is given, a non-empty language or currency does
    not parse, or the number of adults is negative; it then returns no
    tool result and an empty response. *)
Theorem findCheapestOffers_rejects_before_any_call
  (std : Std.t)
  (sort_Slice : (Result.t → Result.t → bool) → list Result.t → list Result.t)
  (s : server.t) (ctx : Ctx) (sched : nat → list nat)
  (params : findCheapestOffersParams.t) :
  (rejected std params ↔ ∃ e, parseParams std params = inl e)
  ∧ (∀ e, parseParams std params = inl e →
       findCheapestOffers std sort_Slice s ctx sched params
       = (None, findCheapestOffersResponse.zero, Some e, [])).
Proof.
  pose proof (parseParams_spec std params) as Hspec. split.
  - destruct (parseParams std params) as [e | [args curr]].
    + split; [intros _; by exists e | done].
    + destruct Hspec as [Hnot _]. split; [done | by intros [e [=]]].
  - intros e He. unfold findCheapestOffers. by rewrite He.
Qed.

Lemma findCheapestOffers_rejects_witness :
  findCheapestOffers stubStd insertionSort_func
    {| server.session := stubSession (bargain 600) |} false inOrder
    (toolParams "tomorrow" [7] 1)
  = (None, findCheapestOffersResponse.zero,
     Some "parse rangeStartDate: cannot parse date"%string, []).
Proof.
  apply (findCheapestOffers_rejects_before_any_call stubStd insertionSort_func
           {| server.session := stubSession (bargain 600) |} false inOrder
           (toolParams "tomorrow" [7] 1)).
  reflexivity.
Defined.

(** X15: a request that passes the handler's checks can fail the
    validation of [Find] in one way only, an end date before the start
    date, which the handler itself does not test: [validateArgs] accepts
    the request built exactly when its dates are in order, and otherwise
    the handler returns the date-order error of [validateArgs], no result
    and an empty response, with no pricing-client call made. *)
Theorem findCheapestOffers_leaves_date_order_to_Find
  (std : Std.t)
  (sort_Slice : (Result.t → Result.t → bool) → list Result.t → list Result.t)
  (s : server.t) (ctx : Ctx) (sched : nat → list nat)
  (params : findCheapestOffersParams.t) (args : Args.t) (curr : string) :
  parseParams std params = inr (args, curr) →
  (validateArgs args = None ↔ Args.RangeStartDate args ≤ Args.RangeEndDate args)
  ∧ (Args.RangeEndDate args < Args.RangeStartDate args →
     findCheapestOffers std sort_Slice s ctx sched params
     = (None, findCheapestOffersResponse.zero,
        Some "rangeEndDate must be on or after rangeStartDate"%string, [])).
Proof.
  intros Hparse. pose proof (parseParams_spec std params) as Hspec.
  rewrite Hparse in Hspec.
  destruct Hspec as (Hnot & _ & _ & Htl & Hsrc & Hdst & _).
  assert (validateArgs args
          = if Args.RangeEndDate args <? Args.RangeStartDate args
            then Some "rangeEndDate must be on or after rangeStartDate"%string
            else None) as Hvalid.
  { unfold validateArgs, Time_Before. rewrite Htl, Hsrc, Hdst.
    case_bool_decide as Hlen; rewrite length_zero_iff_nil in Hlen.
    { destruct Hnot. by do 2 right; left. }
    destruct (existsb _ _) eqn:Hex.
    { destruct Hnot. do 3 right; left. by apply existsb_nonpositive. }
    destruct (_ <? _); [done |].
    case_bool_decide as Hs; rewrite length_zero_iff_nil in Hs.
    { destruct Hnot. by do 4 right; left. }
    case_bool_decide as Hd; rewrite length_zero_iff_nil in Hd; [| done].
    destruct Hnot. by do 5 right; left. }
  split.
  - rewrite Hvalid. destruct (_ <? _) eqn:Hlt.
    + apply Z.ltb_lt in Hlt. split; [done | lia].
    + apply Z.ltb_ge in Hlt. done.
  - intros Hlt. unfold findCheapestOffers, Find. rewrite Hparse, Hvalid.
    apply Z.ltb_lt in Hlt. by rewrite Hlt.
Qed.

Lemma findCheapestOffers_leaves_date_order_witness :
  (validateArgs (request [7]) = None
   ↔ Args.RangeStartDate (request [7]) ≤ Args.RangeEndDate (request [7]))
  ∧ (Args.RangeEndDate (request [7]) < Args.RangeStartDate (request [7]) →
     findCheapestOffers stubStd insertionSort_func
       {| server.session := stubSession (bargain 600) |} false inOrder
       (toolParams "2024-06-01" [7] 0)
     = (None, findCheapestOffersResponse.zero,
        Some "rangeEndDate must be on or after rangeStartDate"%string, [])).
Proof.
  apply (findCheapestOffers_leaves_date_order_to_Find stubStd insertionSort_func
           {| server.session := stubSession (bargain 600) |} false inOrder
           (toolParams "2024-06-01" [7] 0) (request [7]) "USD").
  reflexivity.
Defined.

(** A range given backwards passes the handler's checks and is refused by
    [validateArgs], before any pricing-client call. *)
Example backwards_range_is_refused_by_Find :
  findCheapestOffers stubStd insertionSort_func
    {| server.session := stubSession (bargain 600) |} false inOrder
    {| findCheapestOffersParams.RangeStartDate := "2024-06-03";
       findCheapestOffersParams.RangeEndDate := "2024-06-01";
       findCheapestOffersParams.TripLengths := [7];
       findCheapestOffersParams.SrcCities := ["San Francisco"%string];
       findCheapestOffersParams.DstCities := ["New York"%string];
       findCheapestOffersParams.Language := "";
       findCheapestOffersParams.Currency := "";
       findCheapestOffersParams.Adults := 2 |}
  = (None, findCheapestOffersResponse.zero,
     Some "rangeEndDate must be on or after rangeStartDate"%string, []).
Proof. vm_compute. reflexivity. Qed.

Lemma searchCalls_options (ctx : Ctx) (args : Args.t) (entry : Z * list Call) :
  searchCalls ctx args entry →
  Forall (λ call, callOptions call = Args.Options args) entry.2.
Proof.
  intros (rest & -> & Hrest). constructor; [done |].
  eapply Forall_impl; [exact Hrest |].
  intros [c a | c a | c a]; simpl; [done | |].
  - by intros [(_ & _ & _ & _ & ?) | (_ & _ & _ & _ & ?)].
  - by intros (_ & _ & _ & _ & ?).
Qed.

(** X16: every pricing-client call that the handler causes carries the
    options the handler derives from its parameters: the number of adults
    given, or one when it is left at zero, and never less than one; any
    stops, economy class, round trip; English and US dollars when the
    language and the currency are left empty. *)
Theorem findCheapestOffers_calls_carry_front_end_options
  (std : Std.t)
  (sort_Slice : (Result.t → Result.t → bool) → list Result.t → list Result.t)
  (s : server.t) (ctx : Ctx) (sched : nat → list nat)
  (params : findCheapestOffersParams.t) :
  Forall (λ entry,
            Forall (λ call, frontEndOptions params (callOptions call)) entry.2)
    (findCheapestOffers std sort_Slice s ctx sched params).2.
Proof.
  unfold findCheapestOffers.
  pose proof (parseParams_spec std params) as Hspec.
  destruct (parseParams std params) as [e | [args curr]]; [constructor |].
  destruct Hspec as (Hnot & _ & _ & _ & _ & _ & Hcurr & Hstops & Hclass & Htrip
                     & Hadults & Hlang & Husd).
  assert (frontEndOptions params (Args.Options args)) as Hopts.
  { unfold frontEndOptions. rewrite Hadults, Hstops, Hclass, Htrip, Hcurr.
    repeat split; try done.
    destruct (_ =? 0) eqn:Hz; [lia |].
    destruct (decide (findCheapestOffersParams.Adults params < 0)) as [Hneg |];
      [| lia].
    destruct Hnot. by do 8 right. }
  pose proof (Find_searchCalls (server.session s) sort_Slice ctx args sched)
    as Hlog.
  assert (Forall (λ entry,
                    Forall (λ call, frontEndOptions params (callOptions call))
                      entry.2)
            (Find (server.session s) sort_Slice ctx args sched).2) as Hall.
  { eapply Forall_impl; [exact Hlog |]. intros entry Hentry.
    eapply Forall_impl; [by apply (searchCalls_options ctx) |].
    simpl. by intros call ->. }
  by destruct (Find (server.session s) sort_Slice ctx args sched)
    as [[results [e|]] log].
Qed.

(** With the number of adults left at zero, all four calls of the first
    scenario ask for one adult. *)
Example calls_ask_for_one_adult :
  (λ entry : Z * list Call,
     (λ call, Travelers.Adults (Options.Travelers (callOptions call)))
       <$> entry.2)
    <$> (findCheapestOffers stubStd insertionSort_func
           {| server.session := stubSession (bargain 600) |} false inOrder
           (toolParams "2024-06-01" [7] 0)).2
  = [[1; 1; 1; 1]].
Proof. vm_compute. reflexivity. Qed.

Lemma rankLe_price (a b : Result.t) :
  rankLe a b → float64_le (Result.Price a) (Result.Price b).
Proof.
  unfold rankLe, rankKey, keyLe.
  destruct (Result.Price a), (Result.Price b); simpl; try (intros [|[]]; done).
  rewrite Z.ltb_lt, Z.eqb_eq. lia.
Qed.

(** X17: a successful call of the handler answers with one offer per
    Result of [Find], in the same order, all in one currency, and with one
    text; when no offer has a NaN price, the offers are in ascending order
    of price, so that the first offer, the one the text presents as the
    cheapest, is priced no higher than any offer of the response. *)
Theorem findCheapestOffers_response_is_ranked
  (std : Std.t)
  (sort_Slice : (Result.t → Result.t → bool) → list Result.t → list Result.t)
  (s : server.t) (ctx : Ctx) (sched : nat → list nat)
  (params : findCheapestOffersParams.t)
  (result : option CallToolResult.t) (response : findCheapestOffersResponse.t)
  (log : list (Z * list Call)) :
  SortSliceSpec sort_Slice →
  findCheapestOffers std sort_Slice s ctx sched params
  = (result, response, None, log) →
  result
  = Some {| CallToolResult.Content :=
              [summaryText std (findCheapestOffersResponse.Offers response)] |}
  ∧ (∃ args curr results,
       parseParams std params = inr (args, curr)
       ∧ Find (server.session s) sort_Slice ctx args sched = (results, None, log)
       ∧ findCheapestOffersResponse.Offers response = offerOf std curr <$> results)
  ∧ (∀ o1 o2,
       o1 ∈ findCheapestOffersResponse.Offers response →
       o2 ∈ findCheapestOffersResponse.Offers response →
       offerResponse.Currency o1 = offerResponse.Currency o2)
  ∧ ((∀ o, o ∈ findCheapestOffersResponse.Offers response →
           isNumber (offerResponse.Price o)) →
     StronglySorted
       (λ a b, float64_le (offerResponse.Price a) (offerResponse.Price b))
       (findCheapestOffersResponse.Offers response)
     ∧ (∀ cheapest rest o,
          findCheapestOffersResponse.Offers response = cheapest :: rest →
          o ∈ findCheapestOffersResponse.Offers response →
          float64_le (offerResponse.Price cheapest) (offerResponse.Price o))).
Proof.
  intros Hsort. unfold findCheapestOffers.
  destruct (parseParams std params) as [e | [args curr]] eqn:Hparse;
    [discriminate |].
  destruct (Find (server.session s) sort_Slice ctx args sched)
    as [[results [e|]] log'] eqn:Hfind; [discriminate |].
  intros [= <- <- <-]. simpl.
  split; [done |]. split; [by exists args, curr, results |]. split.
  { intros o1 o2 (r1 & -> & _)%list_elem_of_fmap (r2 & -> & _)%list_elem_of_fmap.
    done. }
  intros Hnum.
  assert (numberPriced results) as Hres.
  { intros r Hr. apply (Hnum (offerOf std curr r)). by apply list_elem_of_fmap_2. }
  assert (StronglySorted
            (λ a b, float64_le (offerResponse.Price a) (offerResponse.Price b))
            (offerOf std curr <$> results)) as Hsorted.
  { eapply (StronglySorted_fmap (offerOf std curr) rankLe);
      [| by eapply Find_sorted].
    intros a b Hab. simpl. by apply rankLe_price. }
  split; [done |].
  intros cheapest rest o Heq Ho. rewrite Heq in Hsorted, Ho, Hnum.
  apply StronglySorted_inv in Hsorted as [_ Hall].
  apply elem_of_cons in Ho as [-> | Ho].
  - apply float64_le_refl, Hnum. by left.
  - rewrite Forall_forall in Hall. by apply Hall.
Qed.

Lemma findCheapestOffers_response_is_ranked_witness :
  (findCheapestOffers stubStd insertionSort_func
     {| server.session := stubSession (bargain 600) |} false inOrder
     (toolParams "2024-06-01" [7; 10] 0)).1.1.1
  = Some {| CallToolResult.Content :=
              [summaryText stubStd
                 (findCheapestOffersResponse.Offers
                    (findCheapestOffers stubStd insertionSort_func
                       {| server.session := stubSession (bargain 600) |} false
                       inOrder (toolParams "2024-06-01" [7; 10] 0)).1.1.2)] |}.
Proof.
  apply (findCheapestOffers_response_is_ranked stubStd insertionSort_func
           {| server.session := stubSession (bargain 600) |} false inOrder
           (toolParams "2024-06-01" [7; 10] 0) _ _
           (findCheapestOffers stubStd insertionSort_func
              {| server.session := stubSession (bargain 600) |} false inOrder
              (toolParams "2024-06-01" [7; 10] 0)).2).
  - apply insertionSort_func_spec.
  - vm_compute. reflexivity.
Defined.

(** The first scenario through the front end: one offer at 500, named in
    the text. *)
Example tool_answer_for_one_bargain :
  (findCheapestOffers stubStd insertionSort_func
     {| server.session := stubSession (bargain 600) |} false inOrder
     (toolParams "2024-06-01" [7] 0)).1.1
  = (Some {| CallToolResult.Content :=
               ["Found 1 cheap offer(s). Cheapest: SFO -> JFK on 2024-06-01T00:00:00Z for 500 USD (7 days)."%string] |},
     {| findCheapestOffersResponse.Offers :=
          [{| offerResponse.StartDate := "2024-06-01T00:00:00Z";
              offerResponse.ReturnDate := "2024-06-08T00:00:00Z";
              offerResponse.SrcAirport := "SFO";
              offerResponse.DstAirport := "JFK";
              offerResponse.Price := 500;
              offerResponse.TripLength := 7;
              offerResponse.Currency := "USD";
              offerResponse.ShareableLink := "https://www.google.com/travel/flights" |}] |}).
Proof. vm_compute. reflexivity. Qed.
